(** * SeniorDesign: the ROS2 addition client and the Gazebo world bootstrap

    A shallow embedding of

    - [dev/src/bringup/bringup/spawn_demo.py] (node [CreateWorld]) and
    - [Tutorial/.../py_srvcli/client_member_function.py] (node
      [MinimalClientAsync] and its [main]),

    followed by the properties stated about them.

    Python code is embedded in a state-and-exception monad.  The state
    holds the attributes of the node and a trace of the calls made to the
    ROS2 client library (clients created, messages logged, requests sent,
    callbacks registered), oldest first.  Everything the scripts obtain from
    outside is read from an environment record: the availability of the
    services, the random module, the files (their text, or the exception
    that reading them raises), [sys.argv], [rclpy.ok()], the completion of
    the future, and the value of [int] on the strings on which its syntax is
    not written out.  Loops that wait on the environment take
    fuel; a run that exhausts it ends with [Diverge], with the trace made so
    far.  A run that raises ends with [Raise], with the trace made so far.

    Python floats are taken as exact rationals.  The helpers of the
    repository that are not among the sources ([feet_to_meters],
    [euler_to_quaternion], [model_paths]) are parameters of the
    embedding. *)

From Stdlib Require Import Ascii String QArith Qround Qabs Lqa.
From stdpp Require Import base decidable option list gmap strings pretty.

Local Open Scope string_scope.
Local Open Scope list_scope.

(** ** A small Python runtime *)

Module Py.

(** Instances of Python's [Exception] class.  The builtin ones raised by
    the embedded code carry their argument; [AnyException] stands for every
    other instance of [Exception] (one set on a future by the executor, or
    the bare [Exception()] raised by the code) with its class name and
    message. *)
Inductive exn : Type :=
| KeyError (key : string)
| IndexError (msg : string)
| ValueError (msg : string)
| TypeError (msg : string)
| OSError (msg : string)
| AnyException (cls msg : string).

Definition is_KeyError (e : exn) : bool :=
  match e with KeyError _ => true | _ => false end.

(** [repr] of a string, with single quotes. *)
Definition repr_str (s : string) : string := "'" +:+ s +:+ "'".

(** [str(e)]: the message; for a [KeyError] the [repr] of the key. *)
Definition str_exn (e : exn) : string :=
  match e with
  | KeyError k => repr_str k
  | IndexError m | ValueError m | TypeError m | OSError m => m
  | AnyException _ m => m
  end.

Definition class_name (e : exn) : string :=
  match e with
  | KeyError _ => "KeyError"
  | IndexError _ => "IndexError"
  | ValueError _ => "ValueError"
  | TypeError _ => "TypeError"
  | OSError _ => "OSError"
  | AnyException c _ => c
  end.

(** [repr(e)]: [Class('message')], and [Class()] without arguments. *)
Definition repr_exn (e : exn) : string :=
  match e with
  | KeyError k => "KeyError(" +:+ repr_str k +:+ ")"
  | _ =>
      if String.eqb (str_exn e) "" then class_name e +:+ "()"
      else class_name e +:+ "(" +:+ repr_str (str_exn e) +:+ ")"
  end.

(** How a computation ends: with a value, with a raised exception, or not
    at all within the fuel given to its loops. *)
Inductive outcome (A : Type) : Type :=
| Ok (a : A)
| Raise (e : exn)
| Diverge.
Arguments Ok {A} a.
Arguments Raise {A} e.
Arguments Diverge {A}.

(** Computations over a state [S]; the state reached is returned in every
    case, so the effects of a run that raises remain visible. *)
Definition M (S A : Type) : Type := S -> outcome A * S.

Definition ret {S A} (a : A) : M S A := fun s => (Ok a, s).

Definition bind {S A B} (m : M S A) (k : A -> M S B) : M S B :=
  fun s =>
    match m s with
    | (Ok a, s') => k a s'
    | (Raise e, s') => (Raise e, s')
    | (Diverge, s') => (Diverge, s')
    end.

Definition raise {S A} (e : exn) : M S A := fun s => (Raise e, s).

Definition diverge {S A} : M S A := fun s => (Diverge, s).

Definition get {S} : M S S := fun s => (Ok s, s).

Definition modify {S} (f : S -> S) : M S unit := fun s => (Ok tt, f s).

(** [try: body  except <class> as e: handler e]; [catches] selects the
    exceptions of the class named in the [except] clause. *)
Definition try_except {S A} (body : M S A) (catches : exn -> bool)
    (handler : exn -> M S A) : M S A :=
  fun s =>
    match body s with
    | (Raise e, s') => if catches e then handler e s' else (Raise e, s')
    | r => r
    end.

(** [try: body  except <class> as e: handler e  else: orelse]; the [else]
    block runs after a body that did not raise, outside the [try]. *)
Definition try_except_else {S A B} (body : M S A) (catches : exn -> bool)
    (handler : exn -> M S B) (orelse : A -> M S B) : M S B :=
  fun s =>
    match body s with
    | (Ok a, s') => orelse a s'
    | (Raise e, s') => if catches e then handler e s' else (Raise e, s')
    | (Diverge, s') => (Diverge, s')
    end.

(** [except Exception]: every value of [exn]. *)
Definition Exception (e : exn) : bool := true.

Definition lift_result {S A} (r : exn + A) : M S A :=
  match r with inl e => raise e | inr a => ret a end.

(** What the body of a loop asks for when it ends. *)
Inductive ctl : Type := Next | Break.

(** [while cond: body].  The loop is cut after [fuel] evaluations of its
    condition, with outcome [Diverge]. *)
Fixpoint while {S} (fuel : nat) (cond : M S bool) (body : M S ctl)
    : M S unit :=
  match fuel with
  | O => diverge
  | S fuel' =>
      bind cond (fun c =>
        if c then
          bind body (fun k =>
            match k with
            | Break => ret tt
            | Next => while fuel' cond body
            end)
        else ret tt)
  end.

(** [for x in xs: body x], for a body without [break]. *)
Fixpoint for_each {S A} (xs : list A) (body : A -> M S unit) : M S unit :=
  match xs with
  | [] => ret tt
  | x :: xs' => bind (body x) (fun _ => for_each xs' body)
  end.

(** [range(n)] *)
Definition range (n : nat) : list nat := seq 0 n.

End Py.

Import Py.

Notation "'do' x <- c1 ; c2" := (bind c1 (fun x => c2))
  (at level 10, x name, c1 at level 100, c2 at level 200, only parsing).
Notation "c1 ;; c2" := (bind c1 (fun _ => c2))
  (at level 100, c2 at level 200, right associativity, only parsing).

(** ** Python values and builtins used by the two scripts *)

(** The values stored in a pose dictionary: a number (Python [int] and
    [float] are both taken as exact rationals) or a dictionary of numbers
    (the value under ['orientation']). *)
Inductive pyval : Type :=
| PyNum (q : Q)
| PyDict (d : gmap string Q).

(** [d[key]] on a dictionary. *)
Definition getitem {S V} (d : gmap string V) (key : string) : M S V :=
  match d !! key with
  | Some v => ret v
  | None => raise (KeyError key)
  end.

(** [v[key]] on a value. *)
Definition subscript {S} (v : pyval) (key : string) : M S Q :=
  match v with
  | PyDict d => getitem d key
  | PyNum _ => raise (TypeError "'float' object is not subscriptable")
  end.

(** [float(v)], for a number in the range of a double: an [int] beyond
    that range, on which [float] raises [OverflowError], is not among the
    values embedded. *)
Definition float {S} (v : pyval) : M S Q :=
  match v with
  | PyNum q => ret q
  | PyDict _ =>
      raise (TypeError
        "float() argument must be a string or a real number, not 'dict'")
  end.

(** The value assigned to a [float64] message field must be a float. *)
Definition float64_field {S} (v : pyval) : M S Q :=
  match v with
  | PyNum q => ret q
  | PyDict _ => raise (AnyException "AssertionError"
                         "The field must be of type 'float'")
  end.

(** [xs[i]] on a list. *)
Definition list_index {S A} (xs : list A) (i : nat) : M S A :=
  match xs !! i with
  | Some v => ret v
  | None => raise (IndexError "list index out of range")
  end.

(** [zip] of the unpacked list of pairs: nothing for an empty list,
    otherwise the tuple of the
    first components and the tuple of the second components. *)
Definition zip_star {A B} (pairs : list (A * B)) : option (list A * list B) :=
  match pairs with
  | [] => None
  | _ :: _ => Some (map fst pairs, map snd pairs)
  end.

(** [a, b = it] for the iterator made by [zip_star]. *)
Definition unpack2 {S A B} (it : option (A * B)) : M S (A * B) :=
  match it with
  | Some ab => ret ab
  | None => raise (ValueError "not enough values to unpack (expected 2, got 0)")
  end.

(** A local computation (over local variables [L]) run inside a computation
    over [S]; it does not touch [S]. *)
Definition run_local {S L A} (m : M L A) (l : L) : M S (A * L) :=
  fun s =>
    match m l with
    | (Ok a, l') => (Ok (a, l'), s)
    | (Raise e, _) => (Raise e, s)
    | (Diverge, _) => (Diverge, s)
    end.

(** [while] and [for] with the local variables they update passed along. *)
Fixpoint while_with {S L} (fuel : nat) (cond : L -> M S bool)
    (body : L -> M S (ctl * L)) (l : L) : M S L :=
  match fuel with
  | O => diverge
  | S fuel' =>
      do c <- cond l;
      if c : bool then
        do r <- body l;
        match r with
        | (Break, l') => ret l'
        | (Next, l') => while_with fuel' cond body l'
        end
      else ret l
  end.

Fixpoint for_with {S A L} (xs : list A) (body : A -> L -> M S L) (l : L)
    : M S L :=
  match xs with
  | [] => ret l
  | x :: xs' => do l' <- body x l; for_with xs' body l'
  end.

(** [int(s)].  A Python string is represented by its UTF-8 encoding, so
    that the characters below 128 are the ASCII characters.  The parser is
    written out for the strings of ASCII characters of length at most 4300,
    on which no limit on the number of digits applies: the whitespace that
    [int] drops at both ends is made of the characters 9 to 13 and 32, one
    sign is allowed, then decimal digits, with single underscores between
    digits. *)
Definition is_space (c : ascii) : bool :=
  let n := nat_of_ascii c in
  (Nat.leb 9 n && Nat.leb n 13) || Nat.eqb n 32.

Definition digit_value (c : ascii) : option Z :=
  let n := nat_of_ascii c in
  if Nat.leb 48 n && Nat.leb n 57 then Some (Z.of_nat (n - 48)) else None.

Fixpoint lstrip (s : string) : string :=
  match s with
  | String c s' => if is_space c then lstrip s' else s
  | EmptyString => s
  end.

Definition strip (s : string) : string :=
  String.rev (lstrip (String.rev (lstrip s))).

Fixpoint parse_digits (s : string) (acc : Z) (after_digit : bool)
    : option Z :=
  match s with
  | EmptyString => if after_digit then Some acc else None
  | String c s' =>
      if Ascii.eqb c "_"
      then (if after_digit then parse_digits s' acc false else None)
      else match digit_value c with
           | Some d => parse_digits s' (10 * acc + d) true
           | None => None
           end
  end.

Fixpoint all_ascii (s : string) : bool :=
  match s with
  | EmptyString => true
  | String c s' => Nat.ltb (nat_of_ascii c) 128 && all_ascii s'
  end.

(** The strings on which [int] is written out. *)
Definition int_embedded (s : string) : bool :=
  all_ascii s && Nat.leb (String.length s) 4300.

(** The integer that a string of at most 4300 characters denotes in the
    syntax above, if it denotes one. *)
Definition parse_int (s : string) : option Z :=
  if Nat.leb (String.length s) 4300 then
    match strip s with
    | String "-" s' => Z.opp <$> parse_digits s' 0 false
    | String "+" s' => parse_digits s' 0 false
    | s' => parse_digits s' 0 false
    end
  else None.

(** The value of [int(s)], [None] when it raises [ValueError].  A string
    in the syntax above has its value.  Another string of the embedded
    fragment is not an integer literal.  On the other strings (a character
    beyond ASCII, which may be a digit or a space of Unicode, or more than
    4300 characters, where the version of Python decides whether a limit on
    the digits applies) the answer of [int] is taken from outside, as
    [elsewhere]. *)
Definition int_value (elsewhere : string -> option Z) (s : string)
    : option Z :=
  match parse_int s with
  | Some n => Some n
  | None => if int_embedded s then None else elsewhere s
  end.

Definition int {S} (elsewhere : string -> option Z) (s : string) : M S Z :=
  match int_value elsewhere s with
  | Some n => ret n
  | None => raise (ValueError ("invalid literal for int() with base 10: "
                               +:+ repr_str s))
  end.

(** ** The ROS2 messages *)

Module Point.
Record t : Type := mk { x : Q; y : Q; z : Q }.
Definition default : t := mk 0 0 0.
Definition set_x (v : Q) (p : t) : t := mk v (y p) (z p).
Definition set_y (v : Q) (p : t) : t := mk (x p) v (z p).
Definition set_z (v : Q) (p : t) : t := mk (x p) (y p) v.
End Point.

Module Quaternion.
Record t : Type := mk { x : Q; y : Q; z : Q; w : Q }.
(** [geometry_msgs/Quaternion] defaults to the identity rotation. *)
Definition default : t := mk 0 0 0 1.
Definition set_x (v : Q) (q : t) : t := mk v (y q) (z q) (w q).
Definition set_y (v : Q) (q : t) : t := mk (x q) v (z q) (w q).
Definition set_z (v : Q) (q : t) : t := mk (x q) (y q) v (w q).
Definition set_w (v : Q) (q : t) : t := mk (x q) (y q) (z q) v.
End Quaternion.

Module Pose.
Record t : Type := mk { position : Point.t; orientation : Quaternion.t }.
Definition default : t := mk Point.default Quaternion.default.
End Pose.

Module SpawnEntity.
Record Request : Type := mkRequest {
  name : string;
  xml : string;
  robot_namespace : string;
  initial_pose : Pose.t;
  reference_frame : string
}.
Definition Request_default : Request := mkRequest "" "" "" Pose.default "".

Definition set_name (v : string) (r : Request) : Request :=
  mkRequest v (xml r) (robot_namespace r) (initial_pose r) (reference_frame r).
Definition set_xml (v : string) (r : Request) : Request :=
  mkRequest (name r) v (robot_namespace r) (initial_pose r) (reference_frame r).
Definition set_position (f : Point.t -> Point.t) (r : Request) : Request :=
  mkRequest (name r) (xml r) (robot_namespace r)
    (Pose.mk (f (Pose.position (initial_pose r)))
             (Pose.orientation (initial_pose r)))
    (reference_frame r).
Definition set_orientation (f : Quaternion.t -> Quaternion.t) (r : Request)
    : Request :=
  mkRequest (name r) (xml r) (robot_namespace r)
    (Pose.mk (Pose.position (initial_pose r))
             (f (Pose.orientation (initial_pose r))))
    (reference_frame r).

Record Response : Type := mkResponse {
  success : bool;
  status_message : string
}.

Definition repr_bool (b : bool) : string := if b then "True" else "False".

Definition repr_Response (r : Response) : string :=
  "gazebo_msgs.srv.SpawnEntity_Response(success=" +:+ repr_bool (success r)
  +:+ ", status_message=" +:+ repr_str (status_message r) +:+ ")".
End SpawnEntity.

(** Modelled from the spec: the service type [SendGolfBallPoses] of the
    package [custom_interfaces], whose declaration is not among the sources.
    Its request batches the positions and the names of the golf balls, and
    its response reports success. *)
Module SendGolfBallPoses.
Record Request : Type := mkRequest {
  golfballs : list Point.t;
  names : list string
}.
Definition Request_default : Request := mkRequest [] [].

Record Response : Type := mkResponse { success : bool }.
End SendGolfBallPoses.

(** ** [spawn_demo.py]: the node [CreateWorld] *)

Module SpawnDemo.

Inductive request : Type :=
| SpawnEntityReq (r : SpawnEntity.Request)
| SendGolfBallPosesReq (r : SendGolfBallPoses.Request).

(** The two closures registered as done-callbacks; [spawn_result] captures
    the [name] argument of [spawn]. *)
Inductive callback : Type :=
| CbSpawnResult (name : string)
| CbPublishGolfballsResults.

Inductive level : Type := INFO | WARN | FATAL.

(** What the node asks of the client library, in the order it asks it. *)
Inductive event : Type :=
| CreateClient (srv_name : string)
| Log (lvl : level) (msg : string)
| CallAsync (srv_name : string) (req : request)
| AddDoneCallback (cb : callback).

Record world : Type := mkWorld {
  golfballs : list (Point.t * string);   (* self.golfballs *)
  trace : list event;                    (* oldest event first *)
  rand_calls : nat;                      (* calls of the random module so far *)
  waits : nat                            (* calls of wait_for_service so far *)
}.

Definition world0 : world := mkWorld [] [] 0 0.

(** What the run obtains from outside. *)
Record Env : Type := mkEnv {
  (** the raw number behind the value that the k-th call of the random
      module returns *)
  entropy : nat -> N;
  (** whether the k-th call of [wait_for_service], made on the named
      service, finds it available *)
  service_ready : string -> nat -> bool;
  (** [open(path).read()]: the text of the file, or the exception that
      opening or reading it raises *)
  read_file : string -> exn + string
}.

Definition emit (ev : event) : M world unit :=
  modify (fun w => mkWorld (golfballs w) (trace w ++ [ev])
                           (rand_calls w) (waits w)).

Definition log (lvl : level) (msg : string) : M world unit :=
  emit (Log lvl msg).

Definition set_golfballs (g : list (Point.t * string)) : M world unit :=
  modify (fun w => mkWorld g (trace w) (rand_calls w) (waits w)).

(** [self.golfballs.append(info)] *)
Definition golfballs_append (info : Point.t * string) : M world unit :=
  modify (fun w => mkWorld (golfballs w ++ [info]) (trace w)
                           (rand_calls w) (waits w)).

(** The requests sent, in order, with the service they were sent to. *)
Fixpoint calls (tr : list event) : list (string * request) :=
  match tr with
  | [] => []
  | CallAsync srv req :: tr' => (srv, req) :: calls tr'
  | _ :: tr' => calls tr'
  end.

Definition is_spawn (c : string * request) : option SpawnEntity.Request :=
  match c with (_, SpawnEntityReq r) => Some r | _ => None end.

Definition is_send (c : string * request)
    : option SendGolfBallPoses.Request :=
  match c with (_, SendGolfBallPosesReq r) => Some r | _ => None end.

(** The [SpawnEntity] requests of a trace, and its [SendGolfBallPoses]
    requests. *)
Definition spawn_requests (tr : list event) : list SpawnEntity.Request :=
  omap is_spawn (calls tr).

Definition send_requests (tr : list event)
    : list SendGolfBallPoses.Request :=
  omap is_send (calls tr).

Definition logs (tr : list event) : list (level * string) :=
  omap (fun ev => match ev with Log l m => Some (l, m) | _ => None end) tr.

(** *** Notions used to state what a run does *)

(** A request as it appears among the calls of a trace. *)
Definition spawn_call (req : SpawnEntity.Request) : string * request :=
  ("/spawn_entity", SpawnEntityReq req).

Definition send_call (req : SendGolfBallPoses.Request) : string * request :=
  ("/golfball_poses", SendGolfBallPosesReq req).

(** The world after more events. *)
Definition push (evs : list event) (w : world) : world :=
  mkWorld (golfballs w) (trace w ++ evs) (rand_calls w) (waits w).

(** The two events of a call of [spawn] that sends [req]. *)
Definition spawn_events (req : SpawnEntity.Request) : list event :=
  [CallAsync "/spawn_entity" (SpawnEntityReq req);
   AddDoneCallback (CbSpawnResult (SpawnEntity.name req))].

(** A pose with numeric coordinates [px], [py], [pz]. *)
Definition numeric_pose (pose : gmap string pyval) (px py pz : Q) : Prop :=
  pose !! "x" = Some (PyNum px) /\ pose !! "y" = Some (PyNum py) /\
  pose !! "z" = Some (PyNum pz).

(** The orientation [spawn] builds from an orientation dictionary [q],
    starting from [o]: the fields are assigned in the order x, y, z, w up to
    the first missing key. *)
Definition oriented (q : gmap string Q) (o : Quaternion.t) : Quaternion.t :=
  match q !! "x" with
  | None => o
  | Some ox =>
      let o := Quaternion.set_x ox o in
      match q !! "y" with
      | None => o
      | Some oy =>
          let o := Quaternion.set_y oy o in
          match q !! "z" with
          | None => o
          | Some oz =>
              let o := Quaternion.set_z oz o in
              match q !! "w" with
              | None => o
              | Some ow => Quaternion.set_w ow o
              end
          end
      end
  end.

(** What the pose dictionary of [spawn_golfballs] holds in every pass of its
    loop: z is 0.0 and there is no orientation. *)
Definition ball_pose_inv (pose : gmap string pyval) : Prop :=
  pose !! "z" = Some (PyNum 0) /\ pose !! "orientation" = None.

(** The messages of the two waiting loops, and of the start of the node. *)
Definition started : list event :=
  [Log INFO "world_creator node has started"].

Definition waiting_for_spawn : event :=
  Log WARN "Service not available. Waiting...".

Definition waiting_for_poses : event :=
  Log INFO "Waiting for /golfball_poses service...".

(** A computation that takes nothing from the generator. *)
Definition keeps_generator {A} (m : M world A) : Prop :=
  forall w : world, rand_calls (snd (m w)) = rand_calls w.

Section CreateWorld.

(** [helpers.functions] and [helpers.filepaths] are not among the
    sources; the node is embedded over any definition of them.
    [euler_to_quaternion] returns a dictionary of numbers (it is read
    with the keys x, y, z and w), [model_paths] is a dictionary from
    model names to file paths.  [radians] is [math.radians]. *)
Variable feet_to_meters : Q -> Q.
Variable euler_to_quaternion : Q -> Q -> Q -> gmap string Q.
Variable radians : Q -> Q.
Variable model_paths : gmap string string.

Variable env : Env.

(** *** The random module *)

Definition next_raw : M world N :=
  fun w => (Ok (entropy env (rand_calls w)),
            mkWorld (golfballs w) (trace w) (S (rand_calls w)) (waits w)).

(** [random.randint(a, b)]: [a] plus a number below [b - a + 1]. *)
Definition randint (a b : Z) : M world Z :=
  do raw <- next_raw;
  ret (a + Z.of_N raw mod (b - a + 1))%Z.

(** [random.random()]: a 53-bit integer divided by 2^53. *)
Definition random : M world Q :=
  do raw <- next_raw;
  ret (Z.of_N (raw mod 2 ^ 53) # 2 ^ 53).

(** *** The client library *)

Definition create_client (srv_name : string) : M world unit :=
  emit (CreateClient srv_name).

(** [client.wait_for_service(1.0)] *)
Definition wait_for_service (srv_name : string) : M world bool :=
  fun w => (Ok (service_ready env srv_name (waits w)),
            mkWorld (golfballs w) (trace w) (rand_calls w) (S (waits w))).

Definition call_async (srv_name : string) (req : request) : M world unit :=
  emit (CallAsync srv_name req).

Definition add_done_callback (cb : callback) : M world unit :=
  emit (AddDoneCallback cb).

(** [open(model_paths[key]).read()] *)
Definition read_model (key : string) : M world string :=
  do path <- getitem model_paths key;
  lift_result (read_file env path).

(** *** The done-callbacks *)

Definition spawn_result (name : string)
    (future : exn + SpawnEntity.Response) : M world unit :=
  try_except
    (do result <- lift_result future;
     log INFO ("Result: " +:+ SpawnEntity.repr_Response result))
    Exception
    (fun e => log WARN ("Could not spawn " +:+ name
                        +:+ ". Exception: " +:+ str_exn e)).

Definition publish_golfballs_results
    (future : exn + SendGolfBallPoses.Response) : M world unit :=
  try_except
    (do response <- lift_result future;
     if negb (SendGolfBallPoses.success response)
     then raise (AnyException "Exception" "")
     else ret tt)
    Exception
    (fun e => log FATAL ("Could not send golf ball poses. Exception: "
                         +:+ str_exn e)).

(** *** [CreateWorld.spawn] *)

(** The assignments of [spawn] to its local variable [request], in the
    order of the source.  The [try] block ends with
    [except KeyError: pass]: the assignments made before a [KeyError]
    stay, any other exception goes on. *)
Definition spawn_request (name xml : string) (pose : gmap string pyval)
    : M SpawnEntity.Request unit :=
  modify (SpawnEntity.set_name name);;
  modify (SpawnEntity.set_xml xml);;
  do vx <- getitem pose "x";
  do px <- float vx;
  modify (SpawnEntity.set_position (Point.set_x px));;
  do vy <- getitem pose "y";
  do py <- float vy;
  modify (SpawnEntity.set_position (Point.set_y py));;
  do vz <- getitem pose "z";
  do pz <- float vz;
  modify (SpawnEntity.set_position (Point.set_z pz));;
  try_except
    (do orientation <- getitem pose "orientation";
     do ox <- subscript orientation "x";
     modify (SpawnEntity.set_orientation (Quaternion.set_x ox));;
     do oy <- subscript orientation "y";
     modify (SpawnEntity.set_orientation (Quaternion.set_y oy));;
     do oz <- subscript orientation "z";
     modify (SpawnEntity.set_orientation (Quaternion.set_z oz));;
     do ow <- subscript orientation "w";
     modify (SpawnEntity.set_orientation (Quaternion.set_w ow)))
    is_KeyError
    (fun _ => ret tt).

Definition spawn (name xml : string) (pose : gmap string pyval)
    : M world unit :=
  do r <- run_local (spawn_request name xml pose)
                    SpawnEntity.Request_default;
  let request := snd r in
  call_async "/spawn_entity" (SpawnEntityReq request);;
  add_done_callback (CbSpawnResult name).

(** *** The world *)

Definition spawn_grass : M world unit :=
  let name := "grass" in
  do xml <- read_model "grass";
  spawn name xml
    {[ "x" := PyNum 0; "y" := PyNum 0; "z" := PyNum 0 ]}.

Definition spawn_tape : M world unit :=
  let coordinates : list (gmap string pyval) :=
    [ {[ "x" := PyNum 9.898041; "y" := PyNum (-8.527939);
         "z" := PyNum 0 ]};
      {[ "x" := PyNum 8.521017; "y" := PyNum (-9.901380);
         "z" := PyNum 0;
         "orientation" :=
           PyDict (euler_to_quaternion 0 0 (radians 90)) ]} ] in
  for_each (range 2) (fun i =>
    let name := "tape" +:+ pretty i in
    do xml <- read_model "tape";
    do pose <- list_index coordinates i;
    spawn name xml pose).

(** One pass through the body of the [while True] loop of
    [spawn_golfballs]: it draws the two coordinates and leaves the loop
    (the test that would send it round again is commented out). *)
Definition draw_position (dist : Q) (pose : gmap string pyval)
    : M world (ctl * gmap string pyval) :=
  do r1 <- random;
  let pose := <[ "x" := PyNum (r1 * dist - dist / 2) ]> pose in
  do r2 <- random;
  let pose := <[ "y" := PyNum (r2 * dist - dist / 2) ]> pose in
  ret (Break, pose).

(** The body of the [for] loop of [spawn_golfballs]; [pose] is the one
    dictionary created before the loop and updated in every pass. *)
Definition spawn_golfball (fuel : nat) (dist : Q) (i : nat)
    (pose : gmap string pyval) : M world (gmap string pyval) :=
  do pose <- while_with fuel (fun _ => ret true) (draw_position dist) pose;
  let name := "ball" +:+ pretty i in
  do vx <- getitem pose "x";
  do x <- float64_field vx;
  do vy <- getitem pose "y";
  do y <- float64_field vy;
  do vz <- getitem pose "z";
  do z <- float64_field vz;
  let point := Point.mk x y z in
  let golfball_info := (point, name) in
  golfballs_append golfball_info;;
  do xml <- read_model "golfball";
  spawn name xml pose;;
  ret pose.

Definition spawn_golfballs (fuel : nat) : M world unit :=
  do num_golfballs <- randint 30 60;
  let pose : gmap string pyval := {[ "z" := PyNum 0 ]} in
  let dist := feet_to_meters 75 in
  for_with (range (Z.to_nat num_golfballs)) (spawn_golfball fuel dist) pose;;
  ret tt.

Definition spawn_robot : M world unit :=
  let name := "turtlebot" in
  do xml <- read_model "robot";
  spawn name xml
    {[ "x" := PyNum 11; "y" := PyNum (-11); "z" := PyNum 0;
       "orientation" :=
         PyDict (euler_to_quaternion 0 0 (radians 180)) ]}.

(** [spawn_border] is not called ([create_world] has the call commented
    out) and is left out. *)
Definition create_world (fuel : nat) : M world unit :=
  spawn_grass;;
  spawn_tape;;
  spawn_robot;;
  spawn_golfballs fuel.

Definition publish_golfballs (fuel : nat) : M world unit :=
  let srv_name := "/golfball_poses" in
  create_client srv_name;;
  while fuel
    (do ready <- wait_for_service srv_name; ret (negb ready))
    (log INFO ("Waiting for " +:+ srv_name +:+ " service...");;
     ret Next);;
  let request := SendGolfBallPoses.Request_default in
  do w <- get;
  do fields <- unpack2 (zip_star (golfballs w));
  let request := SendGolfBallPoses.mkRequest (fst fields) (snd fields) in
  call_async srv_name (SendGolfBallPosesReq request);;
  add_done_callback CbPublishGolfballsResults.

(** [CreateWorld.__init__]; the node's name is ['world_creator']. *)
Definition get_name : string := "world_creator".

Definition init (fuel : nat) : M world unit :=
  create_client "/spawn_entity";;
  while fuel
    (do ready <- wait_for_service "/spawn_entity"; ret (negb ready))
    (log WARN "Service not available. Waiting...";; ret Next);;
  log INFO (get_name +:+ " node has started");;
  set_golfballs [];;
  create_world fuel;;
  publish_golfballs fuel.

(** *** What a run is expected to produce *)

(** The value of the j-th call of the generator as [random.random()] gives
    it, and the coordinate made from it. *)
Definition unit_draw (j : nat) : Q :=
  Z.of_N (entropy env j mod 2 ^ 53) # 2 ^ 53.

Definition coordinate (dist : Q) (j : nat) : Q :=
  unit_draw j * dist - dist / 2.

Definition ball_name (i : nat) : string := "ball" +:+ pretty i.

(** The position of the ball whose x coordinate comes from call [j] of the
    generator and whose y coordinate comes from call [j + 1]. *)
Definition ball_point (j : nat) : Point.t :=
  let dist := feet_to_meters 75 in
  Point.mk (coordinate dist j) (coordinate dist (S j)) 0.

(** The request sent for the ball of index [i] placed from call [j]. *)
Definition ball_request (xml : string) (j i : nat) : SpawnEntity.Request :=
  SpawnEntity.mkRequest (ball_name i) xml ""
    (Pose.mk (ball_point j) Quaternion.default) "".

(** The entries appended to [self.golfballs], and the events of the
    requests, for the balls of the indices [idx] when the first coordinate
    of ball 0 comes from call [j]. *)
Definition ball_entry (j i : nat) : Point.t * string :=
  (ball_point (j + 2 * i), ball_name i).

Definition ball_events (xml : string) (j i : nat) : list event :=
  spawn_events (ball_request xml (j + 2 * i) i).

(** The pose dictionary after the ball placed from call [j]. *)
Definition ball_pose (j : nat) (pose : gmap string pyval)
    : gmap string pyval :=
  let dist := feet_to_meters 75 in
  <[ "y" := PyNum (coordinate dist (S j)) ]>
    (<[ "x" := PyNum (coordinate dist j) ]> pose).

(** The number of golf balls when [randint] is call [j] of the generator. *)
Definition ball_count (j : nat) : nat :=
  Z.to_nat (30 + Z.of_N (entropy env j) mod (60 - 30 + 1)).

(** The square of side [dist] centred at the origin, closed on its lower
    sides and open on its upper sides. *)
Definition in_square (dist : Q) (p : Point.t) : Prop :=
  (- (dist / 2) <= Point.x p /\ Point.x p < dist / 2 /\
   - (dist / 2) <= Point.y p /\ Point.y p < dist / 2)%Q.

(** The requests for the grass, the two tape strips and the robot, given
    the texts of their model files. *)
Definition grass_request (xml : string) : SpawnEntity.Request :=
  SpawnEntity.mkRequest "grass" xml ""
    (Pose.mk (Point.mk 0 0 0) Quaternion.default) "".

Definition tape0_request (xml : string) : SpawnEntity.Request :=
  SpawnEntity.mkRequest "tape0" xml ""
    (Pose.mk (Point.mk 9.898041 (-8.527939) 0) Quaternion.default) "".

Definition tape1_request (xml : string) : SpawnEntity.Request :=
  SpawnEntity.mkRequest "tape1" xml ""
    (Pose.mk (Point.mk 8.521017 (-9.901380) 0)
       (oriented (euler_to_quaternion 0 0 (radians 90)) Quaternion.default))
    "".

Definition robot_request (xml : string) : SpawnEntity.Request :=
  SpawnEntity.mkRequest "turtlebot" xml ""
    (Pose.mk (Point.mk 11 (-11) 0)
       (oriented (euler_to_quaternion 0 0 (radians 180)) Quaternion.default))
    "".

(** The events of the grass, the tape strips and the robot. *)
Definition marker_events (xg xt xr : string) : list event :=
  spawn_events (grass_request xg)
  ++ (spawn_events (tape0_request xt) ++ spawn_events (tape1_request xt))
  ++ spawn_events (robot_request xr).

(** The request that forwards the list [g] of golf balls. *)
Definition poses_request (g : list (Point.t * string))
    : SendGolfBallPoses.Request :=
  SendGolfBallPoses.mkRequest (map fst g) (map snd g).

(** The [SpawnEntity] requests of a complete run, in order: grass, tape
    strips, robot, then [n] balls, ball 0 placed from call [j]. *)
Definition expected_requests (xg xt xr xb : string) (j n : nat)
    : list SpawnEntity.Request :=
  [grass_request xg; tape0_request xt; tape1_request xt; robot_request xr]
  ++ map (fun i => ball_request xb (j + 2 * i) i) (seq 0 n).

(** The entity names of a complete run with [n] balls. *)
Definition expected_names (n : nat) : list string :=
  ["grass"; "tape0"; "tape1"; "turtlebot"] ++ map ball_name (seq 0 n).

(** The text of a model file, or the exception that reading it raises. *)
Definition model_text (key : string) : exn + string :=
  match model_paths !! key with
  | None => inl (KeyError key)
  | Some path => read_file env path
  end.

(** The number of calls of [wait_for_service], among the [fuel] calls that
    start with call [k], that come before the first one to find the service
    available. *)
Fixpoint unready (srv_name : string) (fuel k : nat) : nat :=
  match fuel with
  | O => O
  | S fuel' =>
      if service_ready env srv_name k then O
      else S (unready srv_name fuel' (S k))
  end.

(** The named service is found available by some call of
    [wait_for_service], whenever the calls start. *)
Definition comes_up (srv_name : string) : Prop :=
  forall k0 : nat, exists k : nat,
    (k0 <= k)%nat /\ service_ready env srv_name k = true.

(** How a run of the constructor can end short of returning: cut short in
    a waiting loop, or on the exception of a model that cannot be read. *)
Definition stopped (o : outcome unit) : Prop :=
  o = Diverge \/
  exists (key : string) (e : exn), model_text key = inl e /\ o = Raise e.

(** The models can all be read. *)
Definition models_readable : Prop :=
  exists xg xt xr xb : string,
    model_text "grass" = inr xg /\ model_text "tape" = inr xt /\
    model_text "robot" = inr xr /\ model_text "golfball" = inr xb.

(** A point placed from the calls [j] and [j + 1] of the random module:
    its x is made from the value of call [j] and its y from the value of
    call [j + 1], by the same affine map; the two values lie in [0, 1); the
    point lies in the square, and a coordinate falls in [a, b) exactly when
    the value it is made from falls in the interval that the map sends onto
    it; its z is 0. *)
Definition placed_at (j : nat) (p : Point.t) : Prop :=
  let dist := feet_to_meters 75 in
    Point.x p = (unit_draw j * dist - dist / 2)%Q /\
    Point.y p = (unit_draw (S j) * dist - dist / 2)%Q /\
    Point.z p = 0%Q /\
    (0 <= unit_draw j /\ unit_draw j < 1)%Q /\
    (0 <= unit_draw (S j) /\ unit_draw (S j) < 1)%Q /\
    in_square dist p /\
    (forall a b : Q,
        ((a <= Point.x p /\ Point.x p < b)%Q <->
         ((a + dist / 2) / dist <= unit_draw j /\
          unit_draw j < (b + dist / 2) / dist)%Q) /\
        ((a <= Point.y p /\ Point.y p < b)%Q <->
         ((a + dist / 2) / dist <= unit_draw (S j) /\
          unit_draw (S j) < (b + dist / 2) / dist)%Q)).

End CreateWorld.

(** *** A sample environment *)

(** Sample definitions of the helpers that are not among the sources, and a
    sample environment: the conversion factor of the foot, a fixed
    quaternion, an approximation of the degree, four model files that can
    all be read, services found by the second call that waits for them. *)
Definition sample_feet_to_meters (feet : Q) : Q := feet * 0.3048.

Definition sample_euler_to_quaternion (roll pitch yaw : Q) : gmap string Q :=
  {[ "x" := 0%Q; "y" := 0%Q; "z" := 1%Q; "w" := 0%Q ]}.

Definition sample_radians (degrees : Q) : Q := degrees * (355 # 113) / 180.

Definition sample_model_paths : gmap string string :=
  {[ "grass" := "models/grass/model.sdf";
     "tape" := "models/tape/model.sdf";
     "robot" := "models/turtlebot/model.sdf";
     "golfball" := "models/golfball/model.sdf" ]}.

Definition sample_env : Env :=
  mkEnv (fun k => N.of_nat (977 * k + 41))
        (fun _ k => Nat.leb 1 k)
        (fun path => inr ("<sdf>" +:+ path +:+ "</sdf>")).



End SpawnDemo.

(** ** [client_member_function.py]: the addition client *)

Module ClientMemberFunction.

(** [example_interfaces/srv/AddTwoInts] *)
Module AddTwoInts.
Record Request : Type := mkRequest { a : Z; b : Z }.
Definition Request_default : Request := mkRequest 0 0.
Definition set_a (v : Z) (r : Request) : Request := mkRequest v (b r).
Definition set_b (v : Z) (r : Request) : Request := mkRequest (a r) v.
Record Response : Type := mkResponse { sum : Z }.

(** The fields are declared [int64]: the setter of a field accepts only a
    value that fits. *)
Definition fits_int64 (v : Z) : bool :=
  (- 2 ^ 63 <=? v)%Z && (v <? 2 ^ 63)%Z.
End AddTwoInts.

(** The future of the one service call: not created yet, pending, or done
    with a response or with an exception. *)
Inductive future_state : Type :=
| NoFuture
| Pending
| Done (r : exn + AddTwoInts.Response).

Inductive event : Type :=
| RclpyInit
| CreateClient (srv_name : string)
| LogInfo (msg : string)
| CallAsync (srv_name : string) (req : AddTwoInts.Request)
| SpinOnce
| DestroyNode
| RclpyShutdown.

Record world : Type := mkWorld {
  req : AddTwoInts.Request;      (* self.req *)
  future : future_state;         (* self.future *)
  trace : list event;            (* oldest event first *)
  waits : nat;                   (* calls of wait_for_service so far *)
  oks : nat;                     (* calls of rclpy.ok() so far *)
  spins : nat                    (* calls of rclpy.spin_once so far *)
}.

Definition world0 : world :=
  mkWorld AddTwoInts.Request_default NoFuture [] 0 0 0.

Record Env : Type := mkEnv {
  (** [sys.argv] *)
  argv : list string;
  (** whether the k-th call of [wait_for_service] finds the service *)
  service_ready : nat -> bool;
  (** the value of the k-th call of [rclpy.ok()] *)
  rclpy_ok : nat -> bool;
  (** what the k-th call of [spin_once] completes the pending future
      with, [None] when it leaves it pending *)
  completes : nat -> option (exn + AddTwoInts.Response);
  (** the value of [int] on the strings on which it is not written out,
      [None] when it raises [ValueError] *)
  int_elsewhere : string -> option Z
}.

Definition emit (ev : event) : M world unit :=
  modify (fun w => mkWorld (req w) (future w) (trace w ++ [ev])
                           (waits w) (oks w) (spins w)).

Definition log_info (msg : string) : M world unit := emit (LogInfo msg).

Definition set_req (f : AddTwoInts.Request -> AddTwoInts.Request)
    : M world unit :=
  modify (fun w => mkWorld (f (req w)) (future w) (trace w)
                           (waits w) (oks w) (spins w)).

Definition set_future (f : future_state) : M world unit :=
  modify (fun w => mkWorld (req w) f (trace w) (waits w) (oks w) (spins w)).

(** The requests sent and the messages logged, in order. *)
Definition calls (tr : list event) : list AddTwoInts.Request :=
  omap (fun ev => match ev with CallAsync _ r => Some r | _ => None end) tr.

Definition logs (tr : list event) : list string :=
  omap (fun ev => match ev with LogInfo m => Some m | _ => None end) tr.

Section Client.

Variable env : Env.

Definition wait_for_service : M world bool :=
  fun w => (Ok (service_ready env (waits w)),
            mkWorld (req w) (future w) (trace w)
                    (S (waits w)) (oks w) (spins w)).

Definition ok : M world bool :=
  fun w => (Ok (rclpy_ok env (oks w)),
            mkWorld (req w) (future w) (trace w)
                    (waits w) (S (oks w)) (spins w)).

(** [rclpy.spin_once(node)]: the executor may complete the pending
    future. *)
Definition spin_once : M world unit :=
  emit SpinOnce;;
  fun w =>
    let fut :=
      match future w, completes env (spins w) with
      | Pending, Some r => Done r
      | f, _ => f
      end in
    (Ok tt, mkWorld (req w) fut (trace w) (waits w) (oks w)
                    (S (spins w))).

(** [self.cli.call_async(request)]: sends the request, returns a pending
    future. *)
Definition call_async (request : AddTwoInts.Request)
    : M world future_state :=
  emit (CallAsync "add_two_ints" request);;
  ret Pending.

(** [future.done()] *)
Definition future_done : M world bool :=
  do w <- get;
  ret (match future w with Done _ => true | _ => false end).

(** [future.result()]: the result of a done future, or its exception
    raised.  It is only called on a done future. *)
Definition future_result : M world AddTwoInts.Response :=
  do w <- get;
  match future w with
  | Done r => lift_result r
  | _ => raise (AnyException "AttributeError" "future has no result")
  end.

(** The assertion made by the setter of the [int64] field [name]. *)
Definition int64_field (name : string) (v : Z) : M world Z :=
  if AddTwoInts.fits_int64 v then ret v
  else raise (AnyException "AssertionError"
                ("The '" +:+ name +:+ "' field must be an integer in "
                 +:+ "[-9223372036854775808, 9223372036854775807]")).

(** [MinimalClientAsync.__init__] *)
Definition init (fuel : nat) : M world unit :=
  emit (CreateClient "add_two_ints");;
  while fuel
    (do ready <- wait_for_service; ret (negb ready))
    (log_info "service not available, waiting again...";; ret Next);;
  set_req (fun _ => AddTwoInts.Request_default).

Definition send_request : M world unit :=
  do arg1 <- list_index (argv env) 1;
  do a <- int (int_elsewhere env) arg1;
  do a <- int64_field "a" a;
  set_req (AddTwoInts.set_a a);;
  do arg2 <- list_index (argv env) 2;
  do b <- int (int_elsewhere env) arg2;
  do b <- int64_field "b" b;
  set_req (AddTwoInts.set_b b);;
  do w <- get;
  do fut <- call_async (req w);
  set_future fut.

(** The body of the [while rclpy.ok()] loop of [main]. *)
Definition poll : M world ctl :=
  spin_once;;
  do done <- future_done;
  if done : bool then
    try_except_else
      future_result
      Exception
      (fun e => log_info ("Service call failed (" +:+ repr_exn e +:+ ",)"))
      (fun response =>
         do w <- get;
         log_info ("Result of add_two_ints: for "
                   +:+ pretty (AddTwoInts.a (req w)) +:+ " + "
                   +:+ pretty (AddTwoInts.b (req w)) +:+ " = "
                   +:+ pretty (AddTwoInts.sum response)));;
    ret Break
  else ret Next.

Definition main (fuel : nat) : M world unit :=
  emit RclpyInit;;
  init fuel;;
  send_request;;
  while fuel ok poll;;
  emit DestroyNode;;
  emit RclpyShutdown.

(** *** What a run is expected to produce *)

(** The number of calls of [wait_for_service], among the [fuel] calls that
    start with call [k], that come before the first one to find the service
    available. *)
Fixpoint unready (fuel k : nat) : nat :=
  match fuel with
  | O => O
  | S fuel' =>
      if service_ready env k then O else S (unready fuel' (S k))
  end.

(** How the polling loop ends. *)
Inductive poll_end : Type :=
| Completed (r : exn + AddTwoInts.Response)  (* the future is done: break *)
| Stopped                                    (* rclpy.ok() is false *)
| OutOfFuel.

(** The loop started with a pending future, at call [ko] of [rclpy.ok()]
    and call [ks] of [spin_once]: the number of passes through its body and
    the way it ends. *)
Fixpoint poll_steps (fuel ko ks : nat) : nat * poll_end :=
  match fuel with
  | O => (O, OutOfFuel)
  | S fuel' =>
      if rclpy_ok env ko then
        match completes env ks with
        | Some r => (1, Completed r)
        | None =>
            let (n, e) := poll_steps fuel' (S ko) (S ks) in (S n, e)
        end
      else (O, Stopped)
  end.

(** The message logged for the result of the future. *)
Definition result_message (request : AddTwoInts.Request)
    (r : exn + AddTwoInts.Response) : string :=
  match r with
  | inl e => "Service call failed (" +:+ repr_exn e +:+ ",)"
  | inr response =>
      "Result of add_two_ints: for "
      +:+ pretty (AddTwoInts.a request) +:+ " + "
      +:+ pretty (AddTwoInts.b request) +:+ " = "
      +:+ pretty (AddTwoInts.sum response)
  end.

End Client.

(** The events that follow the first request of a trace. *)
Fixpoint after_call (tr : list event) : list event :=
  match tr with
  | [] => []
  | CallAsync _ _ :: tr' => tr'
  | _ :: tr' => after_call tr'
  end.

(** The messages logged after the request was sent: one for each time the
    result of the future is processed. *)
Definition results_logged (tr : list event) : list string :=
  logs (after_call tr).

Definition waiting_again : event :=
  LogInfo "service not available, waiting again...".

(** The events and the future that the end of the polling loop leaves. *)
Definition processed (request : AddTwoInts.Request) (e : poll_end)
    : list event :=
  match e with
  | Completed r => [LogInfo (result_message request r)]
  | _ => []
  end.

Definition future_after (e : poll_end) : future_state :=
  match e with Completed r => Done r | _ => Pending end.

(** The statement that a run of [main] that returns has sent one request,
    has polled until the future was done and has processed its result
    exactly once. *)
Definition processes_result_once (env : Env) (fuel : nat) : Prop :=
  forall w' : world,
    main env fuel world0 = (Ok tt, w') ->
    length (calls (trace w')) = 1 /\
    (exists r, future w' = Done r) /\
    length (results_logged (trace w')) = 1.

(** An environment in which [rclpy.ok()] holds twice and then no more (the
    context is shut down), while the service has not answered yet. *)
Definition shutdown_env : Env :=
  mkEnv ["client_member_function.py"; "2"; "3"]
        (fun _ => true)
        (fun k => Nat.ltb k 2)
        (fun k => if Nat.eqb k 5
                  then Some (inr (AddTwoInts.mkResponse 5)) else None)
        (fun _ => None).

(** The trace of a run of [main] that returns: [d] messages while waiting
    for the service, the request, [n] calls of [spin_once], then what the
    end [e] of the polling loop leaves. *)
Definition main_trace (request : AddTwoInts.Request) (d n : nat)
    (e : poll_end) : list event :=
  [RclpyInit; CreateClient "add_two_ints"]
  ++ replicate d waiting_again
  ++ [CallAsync "add_two_ints" request]
  ++ replicate n SpinOnce
  ++ processed request e
  ++ [DestroyNode; RclpyShutdown].

(** An environment in which the service answers 5 during the third call
    of [spin_once], and one in which it fails then. *)
Definition answering_env : Env :=
  mkEnv ["client_member_function.py"; "2"; "3"]
        (fun k => Nat.leb 1 k)
        (fun _ => true)
        (fun k => if Nat.eqb k 2
                  then Some (inr (AddTwoInts.mkResponse 5)) else None)
        (fun _ => None).

Definition failing_env : Env :=
  mkEnv ["client_member_function.py"; "2"; "3"]
        (fun k => Nat.leb 1 k)
        (fun _ => true)
        (fun k => if Nat.eqb k 2
                  then Some (inl (AnyException "RuntimeError" "no server"))
                  else None)
        (fun _ => None).

End ClientMemberFunction.

(** ** [spawn_demo.py]: [spawn_border] and [main] *)

Module SpawnDemoRest.
Import SpawnDemo.

(** A number in the range of a double, the largest of which is
    [2^1024 - 2^971]: [float] returns on it.  A pose dictionary is in range
    when the numbers that [spawn] passes to [float] are: those under x, y
    and z, and those under x, y, z and w of its orientation. *)
Definition in_double_range (q : Q) : Prop :=
  (Qabs q <= inject_Z (2 ^ 1024 - 2 ^ 971))%Q.

Definition number_in_range (v : option pyval) : Prop :=
  match v with
  | Some (PyNum q) => in_double_range q
  | _ => True
  end.

Definition field_in_range (v : option Q) : Prop :=
  match v with
  | Some q => in_double_range q
  | None => True
  end.

Definition pose_in_range (pose : gmap string pyval) : Prop :=
  number_in_range (pose !! "x") /\ number_in_range (pose !! "y") /\
  number_in_range (pose !! "z") /\
  match pose !! "orientation" with
  | Some (PyDict d) =>
      field_in_range (d !! "x") /\ field_in_range (d !! "y") /\
      field_in_range (d !! "z") /\ field_in_range (d !! "w")
  | _ => True
  end.

(** The integer nearest to [q], the even one when [q] lies half way. *)
Definition round_half_even (q : Q) : Z :=
  let f := Qfloor q in
  match (q - inject_Z f ?= 1 # 2)%Q with
  | Lt => f
  | Gt => (f + 1)%Z
  | Eq => if Z.even f then f else (f + 1)%Z
  end.

(** [round(q, ndigits)]: the nearest multiple of [10 ** -ndigits], ties to
    the even one. *)
Definition round (q : Q) (ndigits : nat) : Q :=
  let scale := inject_Z (10 ^ Z.of_nat ndigits) in
  (inject_Z (round_half_even (q * scale)) / scale)%Q.

(** [enumerate(xs)] *)
Definition enumerate {A} (xs : list A) : list (nat * A) :=
  combine (seq 0 (length xs)) xs.

(** The done-callbacks registered so far, in the order of registration. *)
Definition registered (tr : list event) : list callback :=
  omap (fun ev => match ev with AddDoneCallback cb => Some cb | _ => None end)
       tr.

(** The done-callback that the script registers on the future of a
    request. *)
Definition callback_of (c : string * request) : callback :=
  match c with
  | (_, SpawnEntityReq r) => CbSpawnResult (SpawnEntity.name r)
  | (_, SendGolfBallPosesReq _) => CbPublishGolfballsResults
  end.

(** The warnings of a trace. *)
Definition warnings (tr : list event) : list string :=
  omap (fun ev => match ev with Log WARN m => Some m | _ => None end) tr.

(** What the constructor appends to the trace once it has found the spawn
    service: messages at level INFO, the client of [/golfball_poses], and
    requests, each followed at once by the registration of its callback. *)
Inductive appended : list event -> Prop :=
| appended_nil : appended []
| appended_info (msg : string) (rest : list event) :
    appended rest -> appended (Log INFO msg :: rest)
| appended_client (rest : list event) :
    appended rest -> appended (CreateClient "/golfball_poses" :: rest)
| appended_call (srv : string) (req : request) (rest : list event) :
    appended rest ->
    appended (CallAsync srv req :: AddDoneCallback (callback_of (srv, req))
              :: rest).

(** The item of work that one call of [rclpy.spin_once] executes.  The
    executor executes at most one item; the items of this node that run
    code of the script are the done-callbacks of its futures.  [Idle]: no
    such item; otherwise the done-callback registered [i]-th, called with
    its future, which is done with a response or with an exception. *)
Inductive work : Type :=
| Idle
| SpawnDone (i : nat) (future : exn + SpawnEntity.Response)
| PosesDone (i : nat) (future : exn + SendGolfBallPoses.Response).

(** The state of the process that runs [main]: the node, once constructed,
    and whether [rclpy] is initialised. *)
Inductive lifecycle : Type := NotInitialised | Initialised | ShutDown.

Record process : Type := mkProcess {
  node : world;
  rclpy : lifecycle
}.

Definition process0 : process := mkProcess world0 NotInitialised.

(** A computation of the node, run inside the process. *)
Definition in_node {A} (m : M world A) : M process A :=
  fun p =>
    match m (node p) with
    | (o, w) => (o, mkProcess w (rclpy p))
    end.

Definition set_rclpy (l : lifecycle) : M process unit :=
  modify (fun p => mkProcess (node p) l).

Section Rest.

Variable feet_to_meters : Q -> Q.
Variable euler_to_quaternion : Q -> Q -> Q -> gmap string Q.
Variable radians : Q -> Q.
Variable model_paths : gmap string string.
Variable env : Env.

(** [CreateWorld.spawn_border]; [create_world] has its call commented
    out. *)
Definition spawn_border : M world unit :=
  let DISTANCE_TO_EDGE := round (feet_to_meters 75) 2 in
  let BORDER_WIDTH : Q := 0.3%Q in
  let PLACEMENT := ((DISTANCE_TO_EDGE + BORDER_WIDTH) / 2)%Q in
  let poses : list (gmap string pyval) :=
    [ {[ "x" := PyNum 0; "y" := PyNum PLACEMENT; "z" := PyNum 0 ]};
      {[ "x" := PyNum PLACEMENT; "y" := PyNum 0; "z" := PyNum 0;
         "orientation" := PyDict (euler_to_quaternion 0 0 (radians 90)) ]};
      {[ "x" := PyNum 0; "y" := PyNum (- PLACEMENT); "z" := PyNum 0 ]};
      {[ "x" := PyNum (- PLACEMENT); "y" := PyNum 0; "z" := PyNum 0;
         "orientation" := PyDict (euler_to_quaternion 0 0 (radians 90)) ]} ]
  in
  for_each (enumerate poses) (fun ip =>
    let name := "border" +:+ pretty (fst ip) in
    do xml <- read_model model_paths env "border";
    spawn name xml (snd ip)).

(** [rclpy.spin_once(node)]: the executor executes one item of work. *)
Definition spin_once (item : work) : M world unit :=
  do w <- get;
  match item with
  | Idle => ret tt
  | SpawnDone i future =>
      match registered (trace w) !! i with
      | Some (CbSpawnResult name) => spawn_result name future
      | _ => ret tt
      end
  | PosesDone i future =>
      match registered (trace w) !! i with
      | Some CbPublishGolfballsResults => publish_golfballs_results future
      | _ => ret tt
      end
  end.

(** [main]: [rclpy.init()], [rclpy.spin_once(CreateWorld())],
    [rclpy.shutdown()]. *)
Definition main (fuel : nat) (item : work) : M process unit :=
  set_rclpy Initialised;;
  in_node (init feet_to_meters euler_to_quaternion radians model_paths env
                fuel);;
  in_node (spin_once item);;
  set_rclpy ShutDown.

(** The distance of the border from the origin. *)
Definition border_placement : Q :=
  ((round (feet_to_meters 75) 2 + 0.3) / 2)%Q.

(** The four requests of [spawn_border], given the text of the model. *)
Definition border_requests (xml : string) : list SpawnEntity.Request :=
  let P := border_placement in
  let turned := oriented (euler_to_quaternion 0 0 (radians 90))
                         Quaternion.default in
  [ SpawnEntity.mkRequest "border0" xml ""
      (Pose.mk (Point.mk 0 P 0) Quaternion.default) "";
    SpawnEntity.mkRequest "border1" xml ""
      (Pose.mk (Point.mk P 0 0) turned) "";
    SpawnEntity.mkRequest "border2" xml ""
      (Pose.mk (Point.mk 0 (- P) 0) Quaternion.default) "";
    SpawnEntity.mkRequest "border3" xml ""
      (Pose.mk (Point.mk (- P) 0 0) turned) "" ].

End Rest.

End SpawnDemoRest.

(** ** [client_member_function.py]: the command line *)

Module ClientRest.
Import ClientMemberFunction.

(** What [send_request] obtains for a field of the request from the
    command line at index [i]. *)
Inductive field_value : Type :=
| Missing             (* [sys.argv[i]] raises [IndexError] *)
| NotAnInteger        (* [int] raises [ValueError] *)
| OutOfRange          (* the assignment to the field raises [AssertionError] *)
| Value (v : Z).

Definition argument (env : Env) (i : nat) : field_value :=
  match argv env !! i with
  | None => Missing
  | Some arg =>
      match int_value (int_elsewhere env) arg with
      | None => NotAnInteger
      | Some v => if AddTwoInts.fits_int64 v then Value v else OutOfRange
      end
  end.

(** The class of the exception raised for a field that is not obtained. *)
Definition raises (f : field_value) (e : exn) : Prop :=
  match f with
  | Missing => exists msg : string, e = IndexError msg
  | NotAnInteger => exists msg : string, e = ValueError msg
  | OutOfRange => exists msg : string, e = AnyException "AssertionError" msg
  | Value _ => False
  end.

(** The three steps that [send_request] makes for the field [name], from
    the argument at index [i]. *)
Definition read_field (env : Env) (name : string) (i : nat) : M world Z :=
  do arg <- list_index (argv env) i;
  do v <- int (int_elsewhere env) arg;
  int64_field name v.

(** The events of the start of [main], up to the [d]-th message of the
    loop that waits for the service. *)
Definition waiting_trace (d : nat) : list event :=
  [RclpyInit; CreateClient "add_two_ints"] ++ replicate d waiting_again.

(** An environment whose second argument is not an integer, with the
    service found by the second call that waits for it. *)
Definition bad_argument_env : Env :=
  mkEnv ["client_member_function.py"; "2"; "three"]
        (fun k => Nat.leb 1 k)
        (fun _ => true)
        (fun _ => None)
        (fun _ => None).

(** The Arabic-Indic digit three, as its two bytes in UTF-8, and an
    environment whose first argument is that digit, on which [int]
    returns 3. *)
Definition arabic_three : string :=
  String (ascii_of_nat 217) (String (ascii_of_nat 163) EmptyString).

Definition unicode_digit_env : Env :=
  mkEnv ["client_member_function.py"; arabic_three; "42"]
        (fun _ => true)
        (fun _ => true)
        (fun _ => None)
        (fun s => if String.eqb s arabic_three then Some 3%Z else None).

End ClientRest.

(** * Properties *)

(** ** The monad *)

Lemma bind_Ok {S A B} (m : M S A) (k : A -> M S B) s a s' :
  m s = (Ok a, s') -> bind m k s = k a s'.
Proof. intros H. unfold bind. now rewrite H. Qed.

Lemma bind_Raise {S A B} (m : M S A) (k : A -> M S B) s e s' :
  m s = (Raise e, s') -> bind m k s = (Raise e, s').
Proof. intros H. unfold bind. now rewrite H. Qed.

Lemma bind_ret {S A B} (a : A) (k : A -> M S B) s :
  bind (ret a) k s = k a s.
Proof. reflexivity. Qed.

Lemma bind_assoc {S A B C} (m : M S A) (f : A -> M S B) (g : B -> M S C) s :
  bind (bind m f) g s = bind m (fun a => bind (f a) g) s.
Proof. unfold bind. destruct (m s) as [[a|e|] s']; reflexivity. Qed.

(** A loop whose body always breaks makes one pass, whatever the fuel. *)
Lemma while_with_break_once {S L} (fuel : nat) (body : L -> M S (ctl * L))
    (l l' : L) (s s' : S) :
  body l s = (Ok (Break, l'), s') ->
  while_with (Datatypes.S fuel) (fun _ => ret true) body l s = (Ok l', s').
Proof. intros H. simpl. unfold bind, ret. now rewrite H. Qed.

(** ** Runs of the sample environments *)

Example parse_int_samples :
  map parse_int ["12"; "+7"; " -3_0 "; "007"; "1__2"; "_1"; "1_"; ""; "- 1"]
  = [Some 12%Z; Some 7%Z; Some (-30)%Z; Some 7%Z; None; None; None; None;
     None].
Proof. vm_compute. reflexivity. Qed.

(** The constructor at the sample environment: one warning while the
    service is waited for, then 40 golf balls, 44 spawn requests and the
    request that forwards the poses. *)
Example sample_init_run :
  let run := SpawnDemo.init SpawnDemo.sample_feet_to_meters
               SpawnDemo.sample_euler_to_quaternion SpawnDemo.sample_radians
               SpawnDemo.sample_model_paths SpawnDemo.sample_env 3
               SpawnDemo.world0 in
  fst run = Ok tt /\
  length (SpawnDemo.golfballs (snd run)) = 40 /\
  length (SpawnDemo.spawn_requests (SpawnDemo.trace (snd run))) = 44 /\
  length (SpawnDemo.send_requests (SpawnDemo.trace (snd run))) = 1 /\
  SpawnDemo.rand_calls (snd run) = 81.
Proof. vm_compute. repeat split; reflexivity. Qed.

(** Without the golf ball model the constructor raises in the first pass
    of the loop of [spawn_golfballs], after the entry of the first ball was
    appended and before any request for a ball. *)
Example sample_init_without_golfball_model :
  let run := SpawnDemo.init SpawnDemo.sample_feet_to_meters
               SpawnDemo.sample_euler_to_quaternion SpawnDemo.sample_radians
               (delete "golfball" SpawnDemo.sample_model_paths)
               SpawnDemo.sample_env 3 SpawnDemo.world0 in
  fst run = Raise (KeyError "golfball") /\
  map snd (SpawnDemo.golfballs (snd run)) = ["ball0"] /\
  map SpawnEntity.name (SpawnDemo.spawn_requests (SpawnDemo.trace (snd run)))
  = ["grass"; "tape0"; "tape1"; "turtlebot"] /\
  SpawnDemo.send_requests (SpawnDemo.trace (snd run)) = [].
Proof. vm_compute. repeat split; reflexivity. Qed.

(** The addition client at the environment whose service answers 5. *)
Example sample_main_run :
  ClientMemberFunction.main ClientMemberFunction.answering_env 4
    ClientMemberFunction.world0 =
  (Ok tt,
   ClientMemberFunction.mkWorld
     (ClientMemberFunction.AddTwoInts.mkRequest 2 3)
     (ClientMemberFunction.Done
        (inr (ClientMemberFunction.AddTwoInts.mkResponse 5)))
     [ClientMemberFunction.RclpyInit;
      ClientMemberFunction.CreateClient "add_two_ints";
      ClientMemberFunction.LogInfo "service not available, waiting again...";
      ClientMemberFunction.CallAsync "add_two_ints"
        (ClientMemberFunction.AddTwoInts.mkRequest 2 3);
      ClientMemberFunction.SpinOnce; ClientMemberFunction.SpinOnce;
      ClientMemberFunction.SpinOnce;
      ClientMemberFunction.LogInfo "Result of add_two_ints: for 2 + 3 = 5";
      ClientMemberFunction.DestroyNode; ClientMemberFunction.RclpyShutdown]
     2 3 3).
Proof. vm_compute. reflexivity. Qed.

(** ** [spawn_demo.py] *)

Module SpawnDemoProps.
Import SpawnDemo.

(** *** Events *)

Lemma emit_push (ev : event) (w : world) : emit ev w = (Ok tt, push [ev] w).
Proof. reflexivity. Qed.

Lemma push_push (a b : list event) (w : world) :
  push b (push a w) = push (a ++ b) w.
Proof. unfold push. simpl. now rewrite <- app_assoc. Qed.

Lemma calls_app (a b : list event) : calls (a ++ b) = calls a ++ calls b.
Proof.
  induction a as [|ev a IH]; simpl; [reflexivity|].
  destruct ev; simpl; now rewrite ?IH.
Qed.

Lemma spawn_requests_app (a b : list event) :
  spawn_requests (a ++ b) = spawn_requests a ++ spawn_requests b.
Proof. unfold spawn_requests. now rewrite calls_app, omap_app. Qed.

Lemma send_requests_app (a b : list event) :
  send_requests (a ++ b) = send_requests a ++ send_requests b.
Proof. unfold send_requests. now rewrite calls_app, omap_app. Qed.

(** *** [spawn] *)

Section Spawn.

Variables (name xml : string) (pose : gmap string pyval).

(** The request [spawn] builds for a pose without orientation. *)
Lemma spawn_request_plain (px py pz : Q) (r0 : SpawnEntity.Request) :
  numeric_pose pose px py pz ->
  pose !! "orientation" = None ->
  spawn_request name xml pose r0 =
    (Ok tt,
     SpawnEntity.mkRequest name xml (SpawnEntity.robot_namespace r0)
       (Pose.mk (Point.mk px py pz)
                (Pose.orientation (SpawnEntity.initial_pose r0)))
       (SpawnEntity.reference_frame r0)).
Proof.
  intros (Hx & Hy & Hz) Ho. unfold spawn_request, try_except, bind, getitem.
  rewrite Hx, Hy, Hz, Ho. reflexivity.
Qed.

(** The request [spawn] builds for a pose with an orientation dictionary. *)
Lemma spawn_request_oriented (px py pz : Q) (q : gmap string Q)
    (r0 : SpawnEntity.Request) :
  numeric_pose pose px py pz ->
  pose !! "orientation" = Some (PyDict q) ->
  spawn_request name xml pose r0 =
    (Ok tt,
     SpawnEntity.mkRequest name xml (SpawnEntity.robot_namespace r0)
       (Pose.mk (Point.mk px py pz)
                (oriented q (Pose.orientation (SpawnEntity.initial_pose r0))))
       (SpawnEntity.reference_frame r0)).
Proof.
  intros (Hx & Hy & Hz) Ho.
  unfold spawn_request, try_except, bind, getitem, subscript, getitem, oriented.
  rewrite Hx, Hy, Hz, Ho. simpl.
  destruct (q !! "x"); simpl; [|reflexivity].
  destruct (q !! "y"); simpl; [|reflexivity].
  destruct (q !! "z"); simpl; [|reflexivity].
  destruct (q !! "w"); simpl; reflexivity.
Qed.

(** [spawn] sends the request it built and registers its callback. *)
Lemma spawn_sends (req : SpawnEntity.Request) (w : world) :
  spawn_request name xml pose SpawnEntity.Request_default = (Ok tt, req) ->
  spawn name xml pose w =
    (Ok tt, push [CallAsync "/spawn_entity" (SpawnEntityReq req);
                  AddDoneCallback (CbSpawnResult name)] w).
Proof.
  intros H. unfold spawn, run_local, bind. rewrite H. cbv beta iota zeta.
  unfold call_async, add_done_callback. rewrite !emit_push.
  cbv beta iota zeta. now rewrite push_push.
Qed.

End Spawn.

(** *** The run of the constructor *)

Section Run.

Variable feet_to_meters : Q -> Q.
Variable euler_to_quaternion : Q -> Q -> Q -> gmap string Q.
Variable radians : Q -> Q.
Variable model_paths : gmap string string.
Variable env : Env.

Local Abbreviation dist := (feet_to_meters 75).
Local Abbreviation model_text := (model_text model_paths env).
Local Abbreviation read_model := (read_model model_paths env).
Local Abbreviation ball_point := (ball_point feet_to_meters env).
Local Abbreviation ball_pose := (ball_pose feet_to_meters env).
Local Abbreviation ball_request := (ball_request feet_to_meters env).
Local Abbreviation ball_entry := (ball_entry feet_to_meters env).
Local Abbreviation ball_events := (ball_events feet_to_meters env).
Local Abbreviation spawn_golfball := (spawn_golfball model_paths env).
Local Abbreviation spawn_golfballs :=
  (spawn_golfballs feet_to_meters model_paths env).
Local Abbreviation spawn_grass := (spawn_grass model_paths env).
Local Abbreviation spawn_tape :=
  (spawn_tape euler_to_quaternion radians model_paths env).
Local Abbreviation spawn_robot :=
  (spawn_robot euler_to_quaternion radians model_paths env).
Local Abbreviation tape1_request := (tape1_request euler_to_quaternion radians).
Local Abbreviation robot_request := (robot_request euler_to_quaternion radians).
Local Abbreviation create_world :=
  (create_world feet_to_meters euler_to_quaternion radians model_paths env).
Local Abbreviation init :=
  (init feet_to_meters euler_to_quaternion radians model_paths env).
Local Abbreviation publish_golfballs := (publish_golfballs env).
Local Abbreviation ball_count := (ball_count env).
Local Abbreviation stopped := (stopped model_paths env).
Local Abbreviation models_readable := (models_readable model_paths env).
Local Abbreviation placed_at := (placed_at feet_to_meters env).

Lemma read_model_run (key : string) (w : world) :
  read_model key w =
    (match model_text key with inl e => Raise e | inr text => Ok text end, w).
Proof.
  unfold SpawnDemo.read_model, SpawnDemo.model_text, bind, getitem.
  destruct (model_paths !! key) as [path|]; simpl; [|reflexivity].
  destruct (read_file env path); reflexivity.
Qed.

Lemma random_run (w : world) :
  random env w =
    (Ok (unit_draw env (rand_calls w)),
     mkWorld (golfballs w) (trace w) (S (rand_calls w)) (waits w)).
Proof. reflexivity. Qed.

Lemma draw_position_run (pose : gmap string pyval) (w : world) :
  draw_position env dist pose w =
    (Ok (Break, ball_pose (rand_calls w) pose),
     mkWorld (golfballs w) (trace w) (S (S (rand_calls w))) (waits w)).
Proof. reflexivity. Qed.

Lemma ball_pose_lookup (j : nat) (pose : gmap string pyval) :
  pose !! "z" = Some (PyNum 0) ->
  pose !! "orientation" = None ->
  numeric_pose (ball_pose j pose)
    (Point.x (ball_point j)) (Point.y (ball_point j)) (Point.z (ball_point j))
  /\ ball_pose j pose !! "orientation" = None.
Proof.
  intros Hz Ho. unfold numeric_pose, SpawnDemo.ball_pose. simpl.
  repeat split.
  - rewrite lookup_insert_ne by discriminate. now rewrite lookup_insert_eq.
  - now rewrite lookup_insert_eq.
  - now rewrite !lookup_insert_ne by discriminate.
  - now rewrite !lookup_insert_ne by discriminate.
Qed.

(** One pass of the [for] loop when the golf ball model can be read. *)
Lemma spawn_golfball_ok (fuel i : nat) (pose : gmap string pyval)
    (xml : string) (g : list (Point.t * string)) (t : list event)
    (r k : nat) :
  model_text "golfball" = inr xml ->
  pose !! "z" = Some (PyNum 0) ->
  pose !! "orientation" = None ->
  spawn_golfball (S fuel) dist i pose (mkWorld g t r k) =
    (Ok (ball_pose r pose),
     mkWorld (g ++ [(ball_point r, ball_name i)])
       (t ++ [CallAsync "/spawn_entity" (SpawnEntityReq (ball_request xml r i));
              AddDoneCallback (CbSpawnResult (ball_name i))])
       (S (S r)) k).
Proof.
  intros Hm Hz Ho.
  destruct (ball_pose_lookup r pose Hz Ho) as [(Hx & Hy & Hz') Ho'].
  unfold SpawnDemo.spawn_golfball.
  erewrite bind_Ok
    by (apply while_with_break_once; apply draw_position_run).
  cbn [rand_calls golfballs trace waits].
  unfold bind at 1, getitem at 1. rewrite Hx. cbn [ret float64_field].
  unfold bind at 1. cbn [ret float64_field].
  unfold bind at 1, getitem at 1. rewrite Hy. cbn [ret float64_field].
  unfold bind at 1. cbn [ret float64_field].
  unfold bind at 1, getitem at 1. rewrite Hz'. cbn [ret float64_field].
  unfold bind at 1. cbn [ret float64_field].
  unfold bind at 1. unfold golfballs_append at 1, modify at 1.
  cbn [rand_calls golfballs trace waits].
  unfold bind at 1. rewrite read_model_run, Hm.
  erewrite bind_Ok.
  2:{ apply spawn_sends. eapply spawn_request_plain; [|exact Ho'].
      split; [exact Hx|split; [exact Hy|exact Hz']]. }
  reflexivity.
Qed.

Lemma spawn_grass_run (w : world) :
  spawn_grass w =
    match model_text "grass" with
    | inl e => (Raise e, w)
    | inr xml => (Ok tt, push (spawn_events (grass_request xml)) w)
    end.
Proof.
  unfold SpawnDemo.spawn_grass. unfold bind at 1. rewrite read_model_run.
  destruct (model_text "grass") as [e|xml]; [reflexivity|].
  apply spawn_sends.
  apply spawn_request_plain; [repeat split|]; reflexivity.
Qed.

Lemma read_model_ok (key xml : string) (w : world) :
  model_text key = inr xml -> read_model key w = (Ok xml, w).
Proof. intros H. now rewrite read_model_run, H. Qed.

Lemma read_model_err (key : string) (e : exn) (w : world) :
  model_text key = inl e -> read_model key w = (Raise e, w).
Proof. intros H. now rewrite read_model_run, H. Qed.

Lemma spawn_tape_run (w : world) :
  spawn_tape w =
    match model_text "tape" with
    | inl e => (Raise e, w)
    | inr xml =>
        (Ok tt, push (spawn_events (tape0_request xml)
                      ++ spawn_events (tape1_request xml)) w)
    end.
Proof.
  unfold SpawnDemo.spawn_tape. cbn [range seq for_each].
  destruct (model_text "tape") as [e|xml] eqn:Hm.
  - rewrite bind_assoc.
    now rewrite (bind_Raise _ _ _ _ _ (read_model_err _ _ _ Hm)).
  - rewrite bind_assoc.
    rewrite (bind_Ok _ _ _ _ _ (read_model_ok _ _ _ Hm)).
    rewrite bind_assoc. unfold list_index at 1.
    cbn [lookup list_lookup]. rewrite bind_ret.
    erewrite bind_Ok.
    2:{ apply spawn_sends.
        apply spawn_request_plain; [repeat split|]; reflexivity. }
    rewrite bind_assoc.
    rewrite (bind_Ok _ _ _ _ _ (read_model_ok _ _ _ Hm)).
    rewrite bind_assoc. unfold list_index at 1.
    cbn [lookup list_lookup]. rewrite bind_ret.
    erewrite bind_Ok.
    2:{ apply spawn_sends.
        eapply spawn_request_oriented; [repeat split|]; reflexivity. }
    cbn [ret]. rewrite push_push. reflexivity.
Qed.

Lemma spawn_robot_run (w : world) :
  spawn_robot w =
    match model_text "robot" with
    | inl e => (Raise e, w)
    | inr xml => (Ok tt, push (spawn_events (robot_request xml)) w)
    end.
Proof.
  unfold SpawnDemo.spawn_robot.
  destruct (model_text "robot") as [e|xml] eqn:Hm.
  - now rewrite (bind_Raise _ _ _ _ _ (read_model_err _ _ _ Hm)).
  - rewrite (bind_Ok _ _ _ _ _ (read_model_ok _ _ _ Hm)).
    apply spawn_sends.
    eapply spawn_request_oriented; [repeat split|]; reflexivity.
Qed.

Lemma ball_pose_inv_init : ball_pose_inv {[ "z" := PyNum 0 ]}.
Proof. split; reflexivity. Qed.

Lemma ball_pose_inv_step (j : nat) (pose : gmap string pyval) :
  ball_pose_inv pose -> ball_pose_inv (ball_pose j pose).
Proof.
  intros [Hz Ho]. unfold SpawnDemo.ball_pose.
  split; now rewrite !lookup_insert_ne by discriminate.
Qed.

(** The [for] loop over the indices [s, s + len) when the golf ball model
    can be read: one entry and one request per index, two calls of the
    generator per index. *)
Lemma golfball_loop_ok (fuel : nat) (xml : string) (j : nat) :
  model_text "golfball" = inr xml ->
  forall (len s : nat) (pose : gmap string pyval)
         (g : list (Point.t * string)) (t : list event) (k : nat),
    ball_pose_inv pose ->
    exists pose',
      for_with (seq s len) (spawn_golfball (S fuel) dist) pose
               (mkWorld g t (j + 2 * s) k) =
        (Ok pose',
         mkWorld (g ++ map (ball_entry j) (seq s len))
                 (t ++ flat_map (ball_events xml j) (seq s len))
                 (j + 2 * (s + len)) k).
Proof.
  intros Hm. induction len as [|len IH]; intros s pose g t k Hinv.
  - exists pose. cbn [seq for_with map flat_map].
    rewrite !app_nil_r, Nat.add_0_r. reflexivity.
  - destruct Hinv as [Hz Ho].
    destruct (IH (S s) (ball_pose (j + 2 * s) pose)
                 (g ++ [ball_entry j s]) (t ++ ball_events xml j s) k)
      as [pose' Hrun].
    { now apply ball_pose_inv_step. }
    exists pose'. cbn [seq for_with].
    erewrite bind_Ok by (apply spawn_golfball_ok; eassumption).
    replace (S (S (j + 2 * s))) with (j + 2 * S s) by lia.
    etransitivity; [exact Hrun|]. cbn [map flat_map].
    rewrite <- !app_assoc.
    replace (j + 2 * (S s + len)) with (j + 2 * (s + S len)) by lia.
    reflexivity.
Qed.

Lemma ball_count_bounds (j : nat) : 30 <= ball_count j <= 60.
Proof.
  unfold SpawnDemo.ball_count.
  pose proof (Z.mod_pos_bound (Z.of_N (entropy env j)) (60 - 30 + 1)) as H.
  lia.
Qed.

Lemma randint_run (w : world) :
  randint env 30 60 w =
    (Ok (30 + Z.of_N (entropy env (rand_calls w)) mod (60 - 30 + 1))%Z,
     mkWorld (golfballs w) (trace w) (S (rand_calls w)) (waits w)).
Proof. reflexivity. Qed.

(** One pass of the [for] loop when the golf ball model cannot be read: the
    entry is appended before the file is opened. *)
Lemma spawn_golfball_unreadable (fuel i : nat) (pose : gmap string pyval)
    (e : exn) (g : list (Point.t * string)) (t : list event) (r k : nat) :
  model_text "golfball" = inl e ->
  ball_pose_inv pose ->
  spawn_golfball (S fuel) dist i pose (mkWorld g t r k) =
    (Raise e, mkWorld (g ++ [(ball_point r, ball_name i)]) t (S (S r)) k).
Proof.
  intros Hm [Hz Ho].
  destruct (ball_pose_lookup r pose Hz Ho) as [(Hx & Hy & Hz') Ho'].
  unfold SpawnDemo.spawn_golfball.
  erewrite bind_Ok
    by (apply while_with_break_once; apply draw_position_run).
  cbn [rand_calls golfballs trace waits].
  unfold getitem. rewrite Hx, Hy, Hz'.
  repeat (erewrite bind_Ok by reflexivity).
  now rewrite (bind_Raise _ _ _ _ _ (read_model_err _ _ _ Hm)).
Qed.

(** The three ways [spawn_golfballs] ends. *)
Lemma spawn_golfballs_run (fuel : nat) (g : list (Point.t * string))
    (t : list event) (r k : nat) :
  spawn_golfballs fuel (mkWorld g t r k) =
    match fuel with
    | O => (Diverge, mkWorld g t (S r) k)
    | S _ =>
        match model_text "golfball" with
        | inl e =>
            (Raise e, mkWorld (g ++ [ball_entry (S r) 0]) t (S (S (S r))) k)
        | inr xml =>
            (Ok tt,
             mkWorld (g ++ map (ball_entry (S r)) (seq 0 (ball_count r)))
                     (t ++ flat_map (ball_events xml (S r))
                                    (seq 0 (ball_count r)))
                     (S r + 2 * ball_count r) k)
        end
    end.
Proof.
  unfold SpawnDemo.spawn_golfballs.
  rewrite (bind_Ok _ _ _ _ _ (randint_run _)).
  cbn [rand_calls golfballs trace waits]. unfold range.
  change (Z.to_nat (30 + Z.of_N (entropy env r) mod (60 - 30 + 1)))
    with (ball_count r).
  pose proof (ball_count_bounds r) as Hn.
  destruct fuel as [|fuel].
  - destruct (ball_count r) as [|n]; [lia|]. reflexivity.
  - destruct (model_text "golfball") as [e|xml] eqn:Hm.
    + destruct (ball_count r) as [|n]; [lia|].
      cbn [seq for_with]. rewrite bind_assoc.
      erewrite bind_Raise.
      2:{ apply spawn_golfball_unreadable;
          [exact Hm|apply ball_pose_inv_init]. }
      unfold SpawnDemo.ball_entry.
      replace (S r + 2 * 0) with (S r) by lia. reflexivity.
    + destruct (golfball_loop_ok fuel xml (S r) Hm (ball_count r) 0
                  {[ "z" := PyNum 0 ]} g t k ball_pose_inv_init)
        as [pose' Hrun].
      replace (S r + 2 * 0) with (S r) in Hrun by lia.
      rewrite (bind_Ok _ _ _ _ _ Hrun). reflexivity.
Qed.

(** *** Waiting for a service *)

Local Abbreviation unready := (unready env).

Lemma unready_le (srv : string) (fuel k : nat) : unready srv fuel k <= fuel.
Proof.
  revert k. induction fuel as [|fuel IH]; intros k; simpl; [lia|].
  destruct (service_ready env srv k); [lia|]. specialize (IH (S k)). lia.
Qed.

Lemma unready_found (srv : string) (fuel k d : nat) :
  service_ready env srv (k + d) = true -> d < fuel ->
  unready srv fuel k < fuel.
Proof.
  revert k d. induction fuel as [|fuel IH]; intros k d Hr Hd; [lia|].
  simpl. destruct (service_ready env srv k) eqn:Hk; [lia|].
  destruct d as [|d].
  - rewrite Nat.add_0_r in Hr. congruence.
  - assert (unready srv fuel (S k) < fuel); [|lia].
    apply (IH (S k) d); [|lia].
    now replace (S k + d) with (k + S d) by lia.
Qed.

(** The waiting loops of [__init__] and [publish_golfballs]: one message per
    call that does not find the service; the loop ends with the first call
    that finds it. *)
Lemma wait_loop_run (srv : string) (lvl : level) (msg : string) (fuel : nat) :
  forall (g : list (Point.t * string)) (t : list event) (r k : nat),
    while fuel
      (do ready <- wait_for_service env srv; ret (negb ready))
      (log lvl msg;; ret Next)
      (mkWorld g t r k) =
    let d := unready srv fuel k in
    if Nat.ltb d fuel
    then (Ok tt, mkWorld g (t ++ replicate d (Log lvl msg)) r (S (k + d)))
    else (Diverge, mkWorld g (t ++ replicate d (Log lvl msg)) r (k + d)).
Proof.
  induction fuel as [|fuel IH]; intros g t r k.
  - simpl. now rewrite app_nil_r, Nat.add_0_r.
  - cbn [while SpawnDemo.unready]. rewrite bind_assoc.
    erewrite bind_Ok by reflexivity. rewrite bind_ret.
    cbn [golfballs trace rand_calls waits].
    destruct (service_ready env srv k) eqn:Hk; cbn [negb].
    + cbn [replicate]. now rewrite app_nil_r, Nat.add_0_r.
    + rewrite bind_assoc. erewrite bind_Ok by reflexivity.
      rewrite bind_ret. cbn [golfballs trace rand_calls waits].
      rewrite IH. cbv zeta.
      change (Nat.ltb (S (unready srv fuel (S k))) (S fuel))
        with (Nat.ltb (unready srv fuel (S k)) fuel).
      cbn [replicate].
      replace (S (S k + unready srv fuel (S k)))
        with (S (k + S (unready srv fuel (S k)))) by lia.
      replace (S k + unready srv fuel (S k))
        with (k + S (unready srv fuel (S k))) by lia.
      rewrite <- !app_assoc. reflexivity.
Qed.

(** *** [create_world] and [publish_golfballs] *)

Local Abbreviation marker_events :=
  (marker_events euler_to_quaternion radians).

Lemma create_world_run (fuel : nat) (g : list (Point.t * string))
    (t : list event) (r k : nat) :
  create_world fuel (mkWorld g t r k) =
    match model_text "grass" with
    | inl e => (Raise e, mkWorld g t r k)
    | inr xg =>
        match model_text "tape" with
        | inl e =>
            (Raise e, mkWorld g (t ++ spawn_events (grass_request xg)) r k)
        | inr xt =>
            match model_text "robot" with
            | inl e =>
                (Raise e,
                 mkWorld g (t ++ spawn_events (grass_request xg)
                              ++ spawn_events (tape0_request xt)
                              ++ spawn_events (tape1_request xt)) r k)
            | inr xr =>
                spawn_golfballs fuel
                  (mkWorld g (t ++ marker_events xg xt xr) r k)
            end
        end
    end.
Proof.
  unfold SpawnDemo.create_world.
  unfold bind at 1. rewrite spawn_grass_run.
  destruct (model_text "grass") as [e|xg]; [reflexivity|].
  unfold bind at 1. rewrite spawn_tape_run.
  destruct (model_text "tape") as [e|xt]; [reflexivity|].
  unfold bind at 1. rewrite spawn_robot_run.
  destruct (model_text "robot") as [e|xr].
  - unfold push. cbn [golfballs trace rand_calls waits].
    now rewrite <- !app_assoc.
  - unfold push, SpawnDemo.marker_events.
    cbn [golfballs trace rand_calls waits].
    now rewrite <- !app_assoc.
Qed.

Lemma publish_golfballs_run (fuel : nat) (g : list (Point.t * string))
    (t : list event) (r k : nat) :
  publish_golfballs fuel (mkWorld g t r k) =
    let d := unready "/golfball_poses" fuel k in
    let t' := t ++ CreateClient "/golfball_poses"
                :: replicate d waiting_for_poses in
    if Nat.ltb d fuel
    then match g with
         | [] =>
             (Raise (ValueError
                       "not enough values to unpack (expected 2, got 0)"),
              mkWorld g t' r (S (k + d)))
         | _ :: _ =>
             (Ok tt,
              mkWorld g
                (t' ++ [CallAsync "/golfball_poses"
                          (SendGolfBallPosesReq (poses_request g));
                        AddDoneCallback CbPublishGolfballsResults])
                r (S (k + d)))
         end
    else (Diverge, mkWorld g t' r (k + d)).
Proof.
  unfold SpawnDemo.publish_golfballs. cbv zeta.
  erewrite bind_Ok by reflexivity.
  unfold bind at 1. cbn [golfballs trace rand_calls waits].
  rewrite wait_loop_run. cbv zeta.
  change (Log INFO ("Waiting for " +:+ "/golfball_poses" +:+ " service..."))
    with waiting_for_poses.
  rewrite <- app_assoc. cbn [app].
  destruct (Nat.ltb (unready "/golfball_poses" fuel k) fuel); [|reflexivity].
  erewrite bind_Ok by reflexivity. cbn [golfballs].
  destruct g as [|b g']; [reflexivity|].
  cbn [zip_star unpack2]. rewrite bind_ret.
  erewrite bind_Ok by reflexivity.
  unfold add_done_callback. rewrite emit_push. unfold push.
  cbn [golfballs trace rand_calls waits fst snd].
  rewrite <- !app_assoc. reflexivity.
Qed.

(** *** [__init__] *)

Local Abbreviation expected_requests :=
  (expected_requests feet_to_meters euler_to_quaternion radians env).

Lemma init_run (fuel : nat) :
  init fuel world0 =
    let d := unready "/spawn_entity" fuel 0 in
    let t := CreateClient "/spawn_entity" :: replicate d waiting_for_spawn in
    if Nat.ltb d fuel
    then bind (create_world fuel) (fun _ => publish_golfballs fuel)
              (mkWorld [] (t ++ started) 0 (S d))
    else (Diverge, mkWorld [] t 0 d).
Proof.
  unfold SpawnDemo.init, world0. cbv zeta.
  erewrite bind_Ok by reflexivity.
  unfold bind at 1. cbn [golfballs trace rand_calls waits app].
  rewrite wait_loop_run. cbv zeta. cbn [Nat.add app].
  destruct (Nat.ltb (unready "/spawn_entity" fuel 0) fuel); [|reflexivity].
  erewrite bind_Ok by reflexivity.
  erewrite bind_Ok by reflexivity.
  reflexivity.
Qed.

Lemma calls_replicate (d : nat) (ev : event) :
  calls [ev] = [] -> calls (replicate d ev) = [].
Proof.
  intros H. induction d as [|d IH]; [reflexivity|].
  change (replicate (S d) ev) with ([ev] ++ replicate d ev).
  now rewrite calls_app, H, IH.
Qed.

Lemma calls_ball_events (xb : string) (j : nat) (idx : list nat) :
  calls (flat_map (ball_events xb j) idx) =
    map (fun i => spawn_call (ball_request xb (j + 2 * i) i)) idx.
Proof.
  induction idx as [|i idx IH]; [reflexivity|].
  cbn [flat_map map]. rewrite calls_app, IH. reflexivity.
Qed.

Lemma calls_marker_events (xg xt xr : string) :
  calls (marker_events xg xt xr) =
    map spawn_call [grass_request xg; tape0_request xt; tape1_request xt;
                    robot_request xr].
Proof. reflexivity. Qed.

Lemma model_text_error (key : string) (e : exn) :
  model_text key = inl e ->
  e = KeyError key \/
  exists path : string,
    model_paths !! key = Some path /\ read_file env path = inl e.
Proof.
  unfold SpawnDemo.model_text.
  destruct (model_paths !! key) as [path|]; [|intros [= <-]; now left].
  intros H. right. now exists path.
Qed.

Lemma stopped_not_Ok (o : outcome unit) : stopped o -> o <> Ok tt.
Proof. intros [->|(key & e & _ & ->)]; discriminate. Qed.

(** Every run of the constructor, by its calls: a complete run sends the
    expected [SpawnEntity] requests and then the one [SendGolfBallPoses]
    request; any other run sends some of the first of the [SpawnEntity]
    requests and nothing else. *)
Lemma init_calls (fuel : nat) (o : outcome unit) (w' : world) :
  init fuel world0 = (o, w') ->
  exists (xg xt xr xb : string) (m : nat),
    let n := ball_count 0 in
    let reqs := expected_requests xg xt xr xb 1 n in
    (o = Ok tt /\
     golfballs w' = map (ball_entry 1) (seq 0 n) /\
     calls (trace w') =
       map spawn_call reqs ++ [send_call (poses_request (golfballs w'))])
    \/
    (stopped o /\ calls (trace w') = map spawn_call (take m reqs)).
Proof.
  rewrite init_run. cbv zeta.
  destruct (Nat.ltb (unready "/spawn_entity" fuel 0) fuel) eqn:Hd.
  2:{ intros [= <- <-]. exists "", "", "", "", 0. right.
      split; [now left|]. cbn [trace take map].
      now apply calls_replicate. }
  assert (Hfuel : exists fuel', fuel = S fuel').
  { destruct fuel as [|fuel']; [discriminate|]. now exists fuel'. }
  destruct Hfuel as [fuel' ->].
  unfold bind. rewrite create_world_run.
  remember ((CreateClient "/spawn_entity" :: replicate _ waiting_for_spawn)
            ++ started) as t0 eqn:Et0.
  assert (Ht0 : calls t0 = []).
  { rewrite Et0, calls_app. cbn [calls].
    now rewrite calls_replicate. }
  clear Et0.
  destruct (model_text "grass") as [e|xg] eqn:Hg.
  { intros [= <- <-]. exists "", "", "", "", 0. right.
    split; [right; now exists "grass", e|]. exact Ht0. }
  destruct (model_text "tape") as [e|xt] eqn:Ht.
  { intros [= <- <-]. exists xg, "", "", "", 1. right.
    split; [right; now exists "tape", e|].
    cbn [trace]. rewrite calls_app, Ht0. reflexivity. }
  destruct (model_text "robot") as [e|xr] eqn:Hr.
  { intros [= <- <-]. exists xg, xt, "", "", 3. right.
    split; [right; now exists "robot", e|].
    cbn [trace]. rewrite calls_app, Ht0. reflexivity. }
  rewrite spawn_golfballs_run.
  pose proof (ball_count_bounds 0) as Hn.
  destruct (model_text "golfball") as [e|xb] eqn:Hb.
  { intros [= <- <-]. exists xg, xt, xr, "", 4. right.
    split; [right; now exists "golfball", e|]. cbn [trace].
    rewrite calls_app, Ht0, calls_marker_events. reflexivity. }
  rewrite publish_golfballs_run. cbv zeta.
  remember ((t0 ++ marker_events xg xt xr) ++ _) as t1 eqn:Et1.
  assert (Ht1 : calls t1 = map spawn_call
                             (expected_requests xg xt xr xb 1 (ball_count 0))).
  { rewrite Et1, !calls_app, Ht0, calls_marker_events,
      calls_ball_events. unfold SpawnDemo.expected_requests.
    now rewrite map_app, map_map. }
  clear Et1. cbn [app].
  match goal with |- context [if ?c then _ else _] => destruct c end.
  2:{ intros [= <- <-]. exists xg, xt, xr, xb, (4 + ball_count 0). right.
      split; [now left|]. cbn [trace].
      rewrite calls_app, Ht1. cbn [calls].
      rewrite calls_replicate by reflexivity. rewrite app_nil_r.
      rewrite firstn_all2; [reflexivity|].
      unfold SpawnDemo.expected_requests.
      rewrite length_app, length_map, length_seq. simpl. lia. }
  destruct (map (ball_entry 1) (seq 0 (ball_count 0))) as [|b bs] eqn:Hgs.
  { apply (f_equal (@length _)) in Hgs.
    rewrite length_map, length_seq in Hgs. simpl in Hgs. lia. }
  rewrite <- Hgs.
  intros [= <- <-]. exists xg, xt, xr, xb, 0. left.
  split; [reflexivity|]. split; [reflexivity|].
  cbn [trace golfballs]. rewrite !calls_app, Ht1. cbn [calls].
  rewrite calls_replicate by reflexivity. rewrite app_nil_r. reflexivity.
Qed.

Lemma unready_stable (srv : string) (fuel fuel' k : nat) :
  unready srv fuel k < fuel -> fuel <= fuel' ->
  unready srv fuel' k = unready srv fuel k.
Proof.
  revert fuel' k. induction fuel as [|fuel IH]; intros fuel' k Hlt Hle; [lia|].
  destruct fuel' as [|fuel']; [lia|]. simpl in *.
  destruct (service_ready env srv k); [reflexivity|].
  f_equal. apply IH; lia.
Qed.

(** With readable models and services that come up, the constructor
    returns, given enough fuel for its waiting loops. *)
Lemma init_returns :
  models_readable ->
  comes_up env "/spawn_entity" ->
  comes_up env "/golfball_poses" ->
  exists fuel0 : nat, forall fuel : nat, fuel0 <= fuel ->
    exists w' : world, init fuel world0 = (Ok tt, w').
Proof.
  intros (xg & xt & xr & xb & Hg & Ht & Hr & Hb) Hup1 Hup2.
  destruct (Hup1 0) as (k1 & _ & Hk1).
  pose proof (unready_found "/spawn_entity" (S k1) 0 k1 Hk1
                (Nat.lt_succ_diag_r _)) as Hd1.
  set (d1 := unready "/spawn_entity" (S k1) 0) in *.
  destruct (Hup2 (S d1)) as (k2 & Hle2 & Hk2).
  exists (S (k1 + k2)). intros fuel Hfuel.
  destruct fuel as [|fuel']; [lia|].
  rewrite init_run. cbv zeta.
  assert (E1 : unready "/spawn_entity" (S fuel') 0 = d1).
  { apply unready_stable; [exact Hd1|lia]. }
  rewrite E1.
  replace (Nat.ltb d1 (S fuel')) with true
    by (symmetry; apply Nat.ltb_lt; lia).
  unfold bind. rewrite create_world_run, Hg, Ht, Hr.
  rewrite spawn_golfballs_run, Hb. rewrite publish_golfballs_run. cbv zeta.
  assert (Hd2 : unready "/golfball_poses" (S fuel') (S d1) < S fuel').
  { apply (unready_found _ _ _ (k2 - S d1)); [|lia].
    now replace (S d1 + (k2 - S d1)) with k2 by lia. }
  replace (Nat.ltb (unready "/golfball_poses" (S fuel') (S d1)) (S fuel'))
    with true by (symmetry; apply Nat.ltb_lt; exact Hd2).
  pose proof (ball_count_bounds 0) as Hn.
  destruct (ball_count 0) as [|n]; [lia|].
  cbn [app seq map]. eexists. reflexivity.
Qed.

(** *** The placement of the golf balls *)

Local Abbreviation unit_draw := (unit_draw env).
Local Abbreviation coordinate := (coordinate env).

Lemma unit_draw_bounds (j : nat) : (0 <= unit_draw j /\ unit_draw j < 1)%Q.
Proof.
  unfold SpawnDemo.unit_draw, Qle, Qlt. cbn [Qnum Qden].
  pose proof (N.mod_lt (entropy env j) (2 ^ 53)) as H.
  assert (Hp : (2 ^ 53 <> 0)%N) by discriminate. specialize (H Hp).
  set (m := (entropy env j mod 2 ^ 53)%N) in *.
  change (2 ^ 53)%N with 9007199254740992%N in H.
  change (2 ^ 53)%positive with 9007199254740992%positive.
  split; lia.
Qed.

Lemma coordinate_bounds (d : Q) (j : nat) :
  (0 < d)%Q ->
  (- (d / 2) <= coordinate d j /\ coordinate d j < d / 2)%Q.
Proof.
  intros Hd. unfold SpawnDemo.coordinate.
  destruct (unit_draw_bounds j) as [H0 H1].
  assert (Hlo : (0 <= unit_draw j * d)%Q).
  { apply Qmult_le_0_compat; [exact H0|]. now apply Qlt_le_weak. }
  assert (Hhi : (unit_draw j * d < 1 * d)%Q).
  { apply Qmult_lt_compat_r; assumption. }
  set (p := (unit_draw j * d)%Q) in *. clearbody p. clear H0 H1.
  assert (Eh : (d / 2 == d * (1 # 2))%Q) by reflexivity.
  set (h := (d / 2)%Q) in *. clearbody h.
  split; lra.
Qed.

(** A coordinate falls in [a, b) exactly when the draw it is made from
    falls in the interval that the affine map sends onto [a, b). *)
Lemma coordinate_interval (d : Q) (j : nat) (a b : Q) :
  (0 < d)%Q ->
  (a <= coordinate d j /\ coordinate d j < b)%Q <->
  ((a + d / 2) / d <= unit_draw j /\ unit_draw j < (b + d / 2) / d)%Q.
Proof.
  intros Hd. unfold SpawnDemo.coordinate.
  assert (Hne : ~ (d == 0)%Q) by lra.
  assert (E : forall c : Q, (c / d * d == c)%Q).
  { intros c. unfold Qdiv. rewrite <- Qmult_assoc, (Qmult_comm (/ d)).
    rewrite Qmult_inv_r by exact Hne. apply Qmult_1_r. }
  generalize (unit_draw j). intros u.
  assert (Eh : (d / 2 == d * (1 # 2))%Q) by reflexivity.
  set (h := (d / 2)%Q) in *. clearbody h.
  split; intros [H1 H2]; split.
  - apply Qmult_le_r with (z := d); [exact Hd|]. rewrite E.
    set (p := (u * d)%Q) in *. clearbody p. lra.
  - apply Qmult_lt_r with (z := d); [exact Hd|]. rewrite E.
    set (p := (u * d)%Q) in *. clearbody p. lra.
  - apply (Qmult_le_r _ _ d Hd) in H1. rewrite E in H1.
    set (p := (u * d)%Q) in *. clearbody p. lra.
  - apply (Qmult_lt_r _ _ d Hd) in H2. rewrite E in H2.
    set (p := (u * d)%Q) in *. clearbody p. lra.
Qed.

Lemma placed_ball_point (j : nat) :
  (0 < dist)%Q -> placed_at j (ball_point j).
Proof.
  intros Hd. unfold SpawnDemo.placed_at, SpawnDemo.ball_point.
  cbn [Point.x Point.y Point.z].
  pose proof (coordinate_bounds dist j Hd) as [Hx1 Hx2].
  pose proof (coordinate_bounds dist (S j) Hd) as [Hy1 Hy2].
  split; [reflexivity|]. split; [reflexivity|]. split; [reflexivity|].
  split; [apply unit_draw_bounds|]. split; [apply unit_draw_bounds|].
  split; [repeat split; assumption|].
  intros a b. split.
  - apply (coordinate_interval dist j a b Hd).
  - apply (coordinate_interval dist (S j) a b Hd).
Qed.

Lemma omap_spawn_call (reqs : list SpawnEntity.Request) :
  omap is_spawn (map spawn_call reqs) = reqs.
Proof.
  induction reqs as [|q reqs IH]; [reflexivity|].
  simpl. f_equal. exact IH.
Qed.

Lemma spawn_requests_ball_events (xb : string) (j : nat) (idx : list nat) :
  spawn_requests (flat_map (ball_events xb j) idx) =
    map (fun i => ball_request xb (j + 2 * i) i) idx.
Proof.
  unfold spawn_requests. rewrite calls_ball_events.
  rewrite <- (map_map (fun i => ball_request xb (j + 2 * i) i) spawn_call).
  apply omap_spawn_call.
Qed.

(** C2.  Every golf ball that [spawn_golfballs] generates is placed in
    the square of side [dist = feet_to_meters(75)] centred at the origin,
    for a positive [dist].  The run generates [n] balls, the number drawn by
    [randint], between 30 and 60, when it returns, and one ball when it
    raises at the reading of the model; it generates at least one.  The ball
    of index [i] is appended to [self.golfballs], and sent in its
    [SpawnEntity] request, with the name [ball<i>] and the position made
    from two calls of [random.random()] of its own, the calls [2 i + 1] and
    [2 i + 2] that the run makes of the random module: x is
    [u * dist - dist / 2] for the value [u] of the first and y the same for
    the value of the second, with [0 <= u < 1], so that each lies in
    [-dist/2, dist/2) and falls in a sub-interval [a, b) exactly when [u]
    falls in the interval of length [(b - a) / dist] that the map sends onto
    it; z is 0.  The run makes [1 + 2 n] calls of the random module in all.
    Python floats are taken as exact rationals. *)
Theorem golfballs_in_square (fuel : nat) (w : world) :
  (0 < dist)%Q ->
  let r := rand_calls w in
  let run := spawn_golfballs (S fuel) w in
  exists n : nat,
    ((fst run = Ok tt /\ n = ball_count r /\ 30 <= n <= 60) \/
     (exists e : exn,
         model_text "golfball" = inl e /\ fst run = Raise e /\ n = 1)) /\
    golfballs (snd run) =
      golfballs w
      ++ map (fun i => (ball_point (S r + 2 * i), ball_name i)) (seq 0 n) /\
    (fst run = Ok tt ->
     map (fun q => (Pose.position (SpawnEntity.initial_pose q),
                    SpawnEntity.name q))
         (drop (length (spawn_requests (trace w)))
               (spawn_requests (trace (snd run)))) =
       map (fun i => (ball_point (S r + 2 * i), ball_name i)) (seq 0 n)) /\
    rand_calls (snd run) = S r + 2 * n /\
    (forall i : nat,
        i < n -> placed_at (S r + 2 * i) (ball_point (S r + 2 * i))) /\
    (forall w0 : world,
        random env w0 =
          (Ok (unit_draw (rand_calls w0)),
           mkWorld (golfballs w0) (trace w0) (S (rand_calls w0))
                   (waits w0))).
Proof.
  intros Hd. cbv zeta. destruct w as [g t r k]. rewrite spawn_golfballs_run.
  cbn [golfballs trace rand_calls].
  destruct (model_text "golfball") as [e|xb] eqn:Hb.
  - exists 1. cbn [fst snd golfballs trace rand_calls seq map].
    split; [right; now exists e|].
    split; [reflexivity|].
    split; [discriminate|]. split; [lia|].
    split; [|reflexivity].
    intros i Hi. apply placed_ball_point, Hd.
  - exists (ball_count r). cbn [fst snd golfballs trace rand_calls].
    split; [left; split; [reflexivity|split; [reflexivity|]];
            apply ball_count_bounds|].
    split; [reflexivity|]. split.
    + intros _. rewrite spawn_requests_app, spawn_requests_ball_events.
      rewrite drop_app_length, map_map. reflexivity.
    + split; [reflexivity|]. split; [|reflexivity].
      intros i Hi. apply placed_ball_point, Hd.
Qed.

(** *** The placement loop *)

Lemma keeps_bind {A B} (m : M world A) (k : A -> M world B) :
  keeps_generator m -> (forall a, keeps_generator (k a)) ->
  keeps_generator (bind m k).
Proof.
  intros Hm Hk w. unfold bind. specialize (Hm w).
  destruct (m w) as [[a|e|] w1]; cbn [snd] in *; [|exact Hm..].
  now rewrite Hk.
Qed.

Lemma keeps_ret {A} (a : A) : keeps_generator (ret a).
Proof. intros w. reflexivity. Qed.

Lemma keeps_raise {A} (e : exn) : keeps_generator (@raise world A e).
Proof. intros w. reflexivity. Qed.

Lemma keeps_getitem {V} (d : gmap string V) (key : string) :
  keeps_generator (getitem d key).
Proof. intros w. unfold getitem. now destruct (d !! key). Qed.

Lemma keeps_float64_field (v : pyval) : keeps_generator (float64_field v).
Proof. intros w. now destruct v. Qed.

Lemma keeps_read_model (key : string) : keeps_generator (read_model key).
Proof.
  intros w. rewrite read_model_run. now destruct (model_text key).
Qed.

Lemma keeps_spawn (name xml : string) (pose : gmap string pyval) :
  keeps_generator (spawn name xml pose).
Proof.
  intros w. unfold spawn, run_local, bind.
  now destruct (spawn_request name xml pose SpawnEntity.Request_default)
    as [[[]|e|] req].
Qed.

(** C3.  The [while True] loop of [spawn_golfballs] makes exactly one pass,
    whatever fuel it is given: its body draws one candidate position (two
    calls of [random.random()], one per coordinate) and always ends with
    [break], and the loop returns what that one pass produced.  So every
    pass of the [for] loop takes exactly two values from the generator,
    however it ends, and a run of [spawn_golfballs] takes one value for
    [randint] and two per ball appended: no candidate is rejected or drawn
    again. *)
Theorem placement_loop_single_pass (fuel i : nat)
    (pose : gmap string pyval) (w : world) :
  let w1 := mkWorld (golfballs w) (trace w) (S (S (rand_calls w))) (waits w) in
  let pose1 := ball_pose (rand_calls w) pose in
  draw_position env dist pose w = (Ok (Break, pose1), w1) /\
  while_with (S fuel) (fun _ => ret true) (draw_position env dist) pose w =
    (Ok pose1, w1) /\
  rand_calls (snd (spawn_golfball (S fuel) dist i pose w)) =
    S (S (rand_calls w)) /\
  rand_calls (snd (spawn_golfballs (S fuel) w)) =
    S (rand_calls w)
    + 2 * (length (golfballs (snd (spawn_golfballs (S fuel) w)))
           - length (golfballs w)).
Proof.
  cbv zeta. split; [apply draw_position_run|].
  split; [apply while_with_break_once, draw_position_run|].
  split.
  - unfold SpawnDemo.spawn_golfball.
    erewrite bind_Ok
      by (apply while_with_break_once; apply draw_position_run).
    match goal with
    | |- rand_calls (snd (?m ?w0)) = _ =>
        assert (H : keeps_generator m); [|exact (H w0)]
    end.
    repeat (first
      [ apply keeps_getitem | apply keeps_float64_field
      | apply keeps_read_model | apply keeps_spawn | apply keeps_ret
      | apply keeps_bind; [|intros ?]
      | (intros ?; reflexivity) ]).
  - destruct w as [g t r k]. rewrite spawn_golfballs_run.
    cbn [golfballs rand_calls].
    destruct (model_text "golfball") as [e|xb]; cbn [snd golfballs rand_calls].
    + rewrite length_app. cbn [length]. lia.
    + rewrite length_app, length_map, length_seq. lia.
Qed.

(** *** The number of golf balls *)

Lemma spawn_golfballs_Ok (fuel : nat) (w w' : world) :
  spawn_golfballs fuel w = (Ok tt, w') ->
  exists xb : string,
    model_text "golfball" = inr xb /\
    w' = mkWorld
           (golfballs w ++ map (ball_entry (S (rand_calls w)))
                               (seq 0 (ball_count (rand_calls w))))
           (trace w ++ flat_map (ball_events xb (S (rand_calls w)))
                                (seq 0 (ball_count (rand_calls w))))
           (S (rand_calls w) + 2 * ball_count (rand_calls w)) (waits w).
Proof.
  destruct w as [g t r k]. rewrite spawn_golfballs_run.
  destruct fuel as [|fuel]; [discriminate|].
  destruct (model_text "golfball") as [e|xb]; [discriminate|].
  intros [= <-]. now exists xb.
Qed.

Lemma publish_golfballs_outcome (fuel : nat) (w : world) :
  golfballs w <> [] ->
  (exists w', publish_golfballs fuel w = (Ok tt, w') /\
              golfballs w' = golfballs w /\
              trace w' = trace w
                ++ (CreateClient "/golfball_poses"
                    :: replicate (unready "/golfball_poses" fuel (waits w))
                                 waiting_for_poses)
                ++ [CallAsync "/golfball_poses"
                      (SendGolfBallPosesReq (poses_request (golfballs w)));
                    AddDoneCallback CbPublishGolfballsResults])
  \/
  (exists w', publish_golfballs fuel w = (Diverge, w') /\
              trace w' = trace w
                ++ (CreateClient "/golfball_poses"
                    :: replicate (unready "/golfball_poses" fuel (waits w))
                                 waiting_for_poses)).
Proof.
  intros Hne. destruct w as [g t r k]. rewrite publish_golfballs_run.
  cbv zeta. cbn [golfballs trace waits] in *.
  destruct (Nat.ltb _ fuel).
  - destruct g as [|b g']; [congruence|]. left. eexists.
    split; [reflexivity|]. cbn [golfballs trace].
    split; [reflexivity|]. now rewrite <- app_assoc.
  - right. eexists. split; reflexivity.
Qed.



(** *** The request that forwards the poses *)

Lemma send_requests_waiting (d : nat) :
  send_requests (CreateClient "/golfball_poses"
                 :: replicate d waiting_for_poses) = [].
Proof.
  unfold send_requests. cbn [calls]. now rewrite calls_replicate.
Qed.

(** C1.  After a run of [spawn_golfballs] that has returned, started as the
    constructor starts it with [self.golfballs] empty, the list holds
    exactly the entries appended, ball after ball.  Every run of
    [publish_golfballs] from there either returns having sent exactly one
    [SendGolfBallPoses] request, whose [golfballs] field is the sequence of
    the positions and whose [names] field is the sequence of the names of
    those entries, in the same order (zipping the two fields gives the list
    back), or is still waiting for the service, having sent nothing; it
    returns, given enough fuel, as soon as the service is found
    available. *)
Theorem poses_request_matches (fuel1 : nat) (w0 w1 : world) :
  golfballs w0 = [] ->
  spawn_golfballs fuel1 w0 = (Ok tt, w1) ->
  let req := SendGolfBallPoses.mkRequest (map fst (golfballs w1))
                                         (map snd (golfballs w1)) in
  golfballs w1 = map (ball_entry (S (rand_calls w0)))
                     (seq 0 (ball_count (rand_calls w0))) /\
  combine (SendGolfBallPoses.golfballs req) (SendGolfBallPoses.names req)
    = golfballs w1 /\
  (forall (fuel : nat) (o : outcome unit) (w2 : world),
      publish_golfballs fuel w1 = (o, w2) ->
      (o = Ok tt /\ golfballs w2 = golfballs w1 /\
       send_requests (trace w2) = send_requests (trace w1) ++ [req])
      \/
      (o = Diverge /\ send_requests (trace w2) = send_requests (trace w1))) /\
  (forall d fuel : nat,
      service_ready env "/golfball_poses" (waits w1 + d) = true ->
      d < fuel ->
      exists w2 : world, publish_golfballs fuel w1 = (Ok tt, w2)).
Proof.
  intros Hg0 Hrun. cbv zeta.
  apply spawn_golfballs_Ok in Hrun as (xb & _ & ->).
  cbn [golfballs trace waits]. rewrite Hg0, app_nil_l.
  set (g := map _ (seq 0 _)).
  assert (Hne : g <> []).
  { pose proof (ball_count_bounds (rand_calls w0)) as Hn.
    intros E. apply (f_equal (@length _)) in E.
    unfold g in E. rewrite length_map, length_seq in E. simpl in E. lia. }
  split; [reflexivity|]. split.
  { cbn [SendGolfBallPoses.golfballs SendGolfBallPoses.names].
    clear Hne. induction g as [|[pt nm] g IH]; [reflexivity|].
    cbn [map combine fst snd]. now rewrite IH. }
  split.
  - intros fuel o w2 Hpub.
    match type of Hpub with _ _ ?w1 = _ => set (w1' := w1) in * end.
    destruct (publish_golfballs_outcome fuel w1' Hne)
      as [(w2' & E & Hg & Ht)|(w2' & E & Ht)];
      rewrite E in Hpub; injection Hpub as <- <-.
    + left. split; [reflexivity|]. split; [exact Hg|].
      rewrite Ht, 2!send_requests_app, send_requests_waiting.
      reflexivity.
    + right. split; [reflexivity|].
      rewrite Ht, send_requests_app, send_requests_waiting.
      now rewrite app_nil_r.
  - intros d fuel Hready Hd. rewrite publish_golfballs_run. cbv zeta.
    pose proof (unready_found _ _ _ _ Hready Hd) as Hlt.
    apply Nat.ltb_lt in Hlt. rewrite Hlt.
    destruct g as [|b g']; [congruence|]. eexists. reflexivity.
Qed.

(** *** The order of the requests, and their names *)

Lemma expected_requests_names (xg xt xr xb : string) (j n : nat) :
  map SpawnEntity.name (expected_requests xg xt xr xb j n) = expected_names n.
Proof.
  unfold SpawnDemo.expected_requests, expected_names.
  rewrite map_app, map_map. reflexivity.
Qed.

Lemma send_is_last (reqs : list SpawnEntity.Request)
    (s0 send : SendGolfBallPoses.Request) (srv : string)
    (pre post : list (string * request)) :
  map spawn_call reqs ++ [send_call s0] =
    pre ++ (srv, SendGolfBallPosesReq send) :: post ->
  pre = map spawn_call reqs /\ post = [].
Proof.
  revert pre. induction reqs as [|r reqs IH]; intros [|c pre] H;
    cbn [map app] in H.
  - injection H as _ _ <-. now split.
  - injection H as _ H. now destruct pre.
  - discriminate H.
  - injection H as <- H. destruct (IH pre H) as [-> ->]. now split.
Qed.

Lemma no_send_among_spawns (reqs : list SpawnEntity.Request)
    (send : SendGolfBallPoses.Request) (srv : string)
    (pre post : list (string * request)) :
  map spawn_call reqs <> pre ++ (srv, SendGolfBallPosesReq send) :: post.
Proof.
  revert pre. induction reqs as [|r reqs IH]; intros [|c pre] H;
    cbn [map app] in H; try discriminate H.
  injection H as _ H. exact (IH pre H).
Qed.

(** C5.  In every run of the constructor, the calls made are either all
    the [SpawnEntity] requests (grass, the two tape strips, the robot, then
    every golf ball) followed by the single [SendGolfBallPoses] request,
    and then the run has returned, or only [SpawnEntity] requests, some of
    the first of that list, and then the run has not returned: it was
    stopped by a model file that cannot be read, or is still waiting for a
    service.  So wherever a [SendGolfBallPoses] request stands among the
    calls of a run, all the [SpawnEntity] requests stand before it and
    nothing stands after it.  With readable model files and services that
    come up, the constructor returns. *)
Theorem send_after_all_spawns :
  (forall (fuel : nat) (o : outcome unit) (w' : world),
      init fuel world0 = (o, w') ->
      exists (xg xt xr xb : string) (m : nat),
        let reqs := expected_requests xg xt xr xb 1 (ball_count 0) in
        map SpawnEntity.name reqs =
          ["grass"; "tape0"; "tape1"; "turtlebot"]
          ++ map ball_name (seq 0 (ball_count 0)) /\
        ((o = Ok tt /\
          calls (trace w') =
            map spawn_call reqs
            ++ [send_call (poses_request (golfballs w'))])
         \/
         (o <> Ok tt /\ calls (trace w') = map spawn_call (take m reqs))) /\
        (forall (pre post : list (string * request)) (srv : string)
                (send : SendGolfBallPoses.Request),
            calls (trace w') =
              pre ++ (srv, SendGolfBallPosesReq send) :: post ->
            pre = map spawn_call reqs /\ post = [])) /\
  (models_readable ->
   comes_up env "/spawn_entity" ->
   comes_up env "/golfball_poses" ->
   exists fuel0 : nat, forall fuel : nat, fuel0 <= fuel ->
     exists w' : world, init fuel world0 = (Ok tt, w')).
Proof.
  split; [|exact init_returns].
  intros fuel o w' Hrun.
  destruct (init_calls _ _ _ Hrun) as (xg & xt & xr & xb & m & H).
  exists xg, xt, xr, xb, m. cbv zeta in *.
  split; [apply expected_requests_names|].
  destruct H as [(Ho & _ & Hc)|(Ho & Hc)].
  - split; [left; now split|].
    intros pre post srv send E. rewrite Hc in E.
    exact (send_is_last _ _ _ _ _ _ E).
  - split; [right; split; [now apply stopped_not_Ok|exact Hc]|].
    intros pre post srv send E. rewrite Hc in E.
    destruct (no_send_among_spawns _ _ _ _ _ E).
Qed.

Lemma ball_name_inj (i j : nat) : ball_name i = ball_name j -> i = j.
Proof.
  unfold ball_name. intros H. cbn in H. injection H as H.
  now apply (inj pretty).
Qed.

Lemma expected_names_NoDup (n : nat) : NoDup (expected_names n).
Proof.
  unfold expected_names. apply NoDup_app. split; [|split].
  - apply (bool_decide_unpack _). vm_compute. exact I.
  - intros x Hx Hin. apply list_elem_of_In, in_map_iff in Hin.
    destruct Hin as (i & <- & _). unfold ball_name in Hx. cbn in Hx.
    repeat (apply elem_of_cons in Hx as [Hx|Hx]; [discriminate|]).
    inversion Hx.
  - change (map ball_name (seq 0 n)) with (ball_name <$> seq 0 n).
    apply NoDup_fmap_2_strong; [|apply NoDup_seq].
    intros i j _ _. apply ball_name_inj.
Qed.

Lemma omap_is_spawn_app_send (reqs : list SpawnEntity.Request)
    (send : SendGolfBallPoses.Request) :
  omap is_spawn (map spawn_call reqs ++ [send_call send]) = reqs.
Proof.
  rewrite omap_app, omap_spawn_call. cbn. apply app_nil_r.
Qed.

(** C10.  In every run of the constructor, the entity names of the
    [SpawnEntity] requests sent are pairwise distinct: they are the first
    names of the list 'grass', 'tape0', 'tape1', 'turtlebot', 'ball0', ...,
    'ball{n-1}', which has no repetition for any [n]. *)
Theorem spawn_names_distinct (fuel : nat) :
  let names :=
    map SpawnEntity.name (spawn_requests (trace (snd (init fuel world0)))) in
  NoDup names /\
  (exists m : nat,
      names = take m (["grass"; "tape0"; "tape1"; "turtlebot"]
                      ++ map ball_name (seq 0 (ball_count 0)))) /\
  (forall n : nat,
      NoDup (["grass"; "tape0"; "tape1"; "turtlebot"]
             ++ map ball_name (seq 0 n))).
Proof.
  cbv zeta.
  assert (Hm : exists m : nat,
             map SpawnEntity.name
               (spawn_requests (trace (snd (init fuel world0)))) =
             take m (expected_names (ball_count 0))).
  { destruct (init fuel world0) as [o w'] eqn:Hrun. cbn [snd].
    destruct (init_calls _ _ _ Hrun) as (xg & xt & xr & xb & m & H).
    cbv zeta in H. unfold spawn_requests.
    destruct H as [(_ & _ & ->)|(_ & ->)].
    - exists (length (expected_names (ball_count 0))).
      rewrite omap_is_spawn_app_send, expected_requests_names.
      now rewrite firstn_all.
    - exists m. rewrite omap_spawn_call, <- firstn_map.
      now rewrite expected_requests_names. }
  split; [|split].
  - destruct Hm as [m ->].
    apply (sublist_NoDup _ _ (expected_names_NoDup (ball_count 0))),
      sublist_take.
  - exact Hm.
  - exact expected_names_NoDup.
Qed.

End Run.

(** C9.  For a pose dictionary with numeric x, y and z and without the key
    'orientation', the lookup of 'orientation' raises [KeyError], and
    [spawn] nevertheless returns: it sends one request whose position is
    (x, y, z) and whose orientation is the default of the message type, and
    registers its callback. *)
Theorem spawn_without_orientation (name xml : string)
    (pose : gmap string pyval) (px py pz : Q) (w : world) :
  numeric_pose pose px py pz ->
  pose !! "orientation" = None ->
  (forall r : SpawnEntity.Request,
      @getitem SpawnEntity.Request pyval pose "orientation" r =
        (Raise (KeyError "orientation"), r)) /\
  spawn name xml pose w =
    (Ok tt,
     push [CallAsync "/spawn_entity"
             (SpawnEntityReq
                (SpawnEntity.mkRequest name xml ""
                   (Pose.mk (Point.mk px py pz) Quaternion.default) ""));
           AddDoneCallback (CbSpawnResult name)] w).
Proof.
  intros Hnum Ho. split.
  - intros r. unfold getitem. now rewrite Ho.
  - apply spawn_sends.
    now rewrite (spawn_request_plain name xml pose px py pz _ Hnum Ho).
Qed.

(** *** The properties at the sample environment *)

Lemma golfballs_in_square_sample :
  (0 < sample_feet_to_meters 75)%Q /\
  let run := spawn_golfballs sample_feet_to_meters sample_model_paths
                             sample_env 1 world0 in
  exists n : nat,
    30 <= n <= 60 /\ fst run = Ok tt /\
    map snd (golfballs (snd run)) = map ball_name (seq 0 n) /\
    rand_calls (snd run) = 1 + 2 * n /\
    forall i : nat,
      i < n ->
      placed_at sample_feet_to_meters sample_env (1 + 2 * i)
                (ball_point sample_feet_to_meters sample_env (1 + 2 * i)).
Proof.
  split; [reflexivity|]. cbv zeta.
  destruct (golfballs_in_square sample_feet_to_meters sample_model_paths
              sample_env 0 world0)
    as (n & [(Hok & _ & Hn)|(e & He & _)] & Hg & _ & Hr & Hp & _);
    [reflexivity| |discriminate He].
  exists n. split; [exact Hn|]. split; [exact Hok|].
  split; [|split; [exact Hr|exact Hp]].
  rewrite Hg. cbn [golfballs world0 app]. now rewrite map_map.
Defined.

Lemma spawn_without_orientation_sample :
  spawn "grass" "<sdf/>"
        {[ "x" := PyNum 0; "y" := PyNum 0; "z" := PyNum 0 ]} world0 =
    (Ok tt,
     push [CallAsync "/spawn_entity"
             (SpawnEntityReq
                (SpawnEntity.mkRequest "grass" "<sdf/>" ""
                   (Pose.mk (Point.mk 0 0 0) Quaternion.default) ""));
           AddDoneCallback (CbSpawnResult "grass")] world0).
Proof.
  apply (spawn_without_orientation "grass" "<sdf/>"
           {[ "x" := PyNum 0; "y" := PyNum 0; "z" := PyNum 0 ]} 0 0 0 world0).
  - repeat split; reflexivity.
  - reflexivity.
Defined.

Lemma sample_models_readable :
  models_readable sample_model_paths sample_env.
Proof.
  unfold models_readable. eexists _, _, _, _.
  repeat split; vm_compute; reflexivity.
Defined.

Lemma sample_comes_up (srv : string) : comes_up sample_env srv.
Proof. intros k0. exists (S k0). split; [lia|reflexivity]. Defined.




Lemma poses_request_matches_sample :
  let w1 := snd (spawn_golfballs sample_feet_to_meters sample_model_paths
                                 sample_env 1 world0) in
  golfballs world0 = [] /\
  spawn_golfballs sample_feet_to_meters sample_model_paths sample_env 1
                  world0 = (Ok tt, w1) /\
  exists w2 : world,
    publish_golfballs sample_env 2 w1 = (Ok tt, w2) /\
    send_requests (trace w2) =
      [SendGolfBallPoses.mkRequest (map fst (golfballs w1))
                                   (map snd (golfballs w1))].
Proof.
  cbv zeta.
  assert (Hrun : spawn_golfballs sample_feet_to_meters sample_model_paths
                   sample_env 1 world0 =
                 (Ok tt,
                  snd (spawn_golfballs sample_feet_to_meters
                         sample_model_paths sample_env 1 world0))).
  { vm_compute. reflexivity. }
  split; [reflexivity|]. split; [exact Hrun|].
  destruct (poses_request_matches sample_feet_to_meters sample_model_paths
              sample_env 1 world0 _ eq_refl Hrun)
    as (_ & _ & Hevery & Hreturns).
  destruct (Hreturns 1 2) as [w2 Hpub]; [reflexivity|lia|].
  exists w2. split; [exact Hpub|].
  destruct (Hevery 2 (Ok tt) w2 Hpub) as [(_ & _ & Hsend)|(Ho & _)];
    [|discriminate].
  rewrite Hsend. vm_compute. reflexivity.
Defined.

Lemma send_after_all_spawns_sample :
  exists fuel0 : nat, forall fuel : nat, fuel0 <= fuel ->
    exists w' : world,
      init sample_feet_to_meters sample_euler_to_quaternion sample_radians
           sample_model_paths sample_env fuel world0 = (Ok tt, w').
Proof.
  destruct (send_after_all_spawns sample_feet_to_meters
              sample_euler_to_quaternion sample_radians sample_model_paths
              sample_env) as [_ Hreturns].
  apply Hreturns.
  - exact sample_models_readable.
  - exact (sample_comes_up "/spawn_entity").
  - exact (sample_comes_up "/golfball_poses").
Defined.

End SpawnDemoProps.

(** ** [client_member_function.py] *)

Module ClientProps.
Import ClientMemberFunction.

Section Run.

Variable env : Env.

Local Abbreviation unready := (unready env).
Local Abbreviation poll_steps := (poll_steps env).

Lemma client_unready_found (fuel k d : nat) :
  service_ready env (k + d) = true -> d < fuel -> unready fuel k < fuel.
Proof.
  revert k d. induction fuel as [|fuel IH]; intros k d Hr Hd; [lia|].
  simpl. destruct (service_ready env k) eqn:Hk; [lia|].
  destruct d as [|d].
  - rewrite Nat.add_0_r in Hr. congruence.
  - assert (unready fuel (S k) < fuel); [|lia].
    apply (IH (S k) d); [|lia].
    now replace (S k + d) with (k + S d) by lia.
Qed.

(** The waiting loop of the constructor. *)
Lemma client_wait_loop_run (fuel : nat) :
  forall (rq : AddTwoInts.Request) (f : future_state) (t : list event)
         (k ko ks : nat),
    while fuel
      (do ready <- wait_for_service env; ret (negb ready))
      (log_info "service not available, waiting again...";; ret Next)
      (mkWorld rq f t k ko ks) =
    let d := unready fuel k in
    if Nat.ltb d fuel
    then (Ok tt, mkWorld rq f (t ++ replicate d waiting_again)
                         (S (k + d)) ko ks)
    else (Diverge, mkWorld rq f (t ++ replicate d waiting_again)
                           (k + d) ko ks).
Proof.
  induction fuel as [|fuel IH]; intros rq f t k ko ks.
  - simpl. now rewrite app_nil_r, Nat.add_0_r.
  - cbn [while ClientMemberFunction.unready]. rewrite bind_assoc.
    erewrite bind_Ok by reflexivity. rewrite bind_ret.
    cbn [req future trace waits oks spins].
    destruct (service_ready env k) eqn:Hk; cbn [negb].
    + cbn [replicate]. now rewrite app_nil_r, Nat.add_0_r.
    + rewrite bind_assoc. erewrite bind_Ok by reflexivity.
      rewrite bind_ret. cbn [req future trace waits oks spins].
      rewrite IH. cbv zeta.
      change (Nat.ltb (S (unready fuel (S k))) (S fuel))
        with (Nat.ltb (unready fuel (S k)) fuel).
      cbn [replicate].
      replace (S (S k + unready fuel (S k)))
        with (S (k + S (unready fuel (S k)))) by lia.
      replace (S k + unready fuel (S k))
        with (k + S (unready fuel (S k))) by lia.
      rewrite <- !app_assoc. reflexivity.
Qed.

(** One pass through the body of the polling loop, the future pending. *)
Lemma poll_pending (rq : AddTwoInts.Request) (t : list event)
    (k ko ks : nat) :
  poll env (mkWorld rq Pending t k ko ks) =
    match completes env ks with
    | Some r =>
        (Ok Break,
         mkWorld rq (Done r)
           (t ++ [SpinOnce; LogInfo (result_message rq r)]) k ko (S ks))
    | None => (Ok Next, mkWorld rq Pending (t ++ [SpinOnce]) k ko (S ks))
    end.
Proof.
  unfold poll, spin_once, future_done, future_result, try_except_else,
    log_info, emit, modify, get, bind, ret.
  cbn [req future trace waits oks spins].
  destruct (completes env ks) as [[e|response]|];
    cbn [lift_result raise ret Exception result_message
         req future trace waits oks spins];
    rewrite <- ?app_assoc; reflexivity.
Qed.

(** One pass through the body of the polling loop, the future done. *)
Lemma poll_done (rq : AddTwoInts.Request) (r : exn + AddTwoInts.Response)
    (t : list event) (k ko ks : nat) :
  poll env (mkWorld rq (Done r) t k ko ks) =
    (Ok Break,
     mkWorld rq (Done r)
       (t ++ [SpinOnce; LogInfo (result_message rq r)]) k ko (S ks)).
Proof.
  unfold poll, spin_once, future_done, future_result, try_except_else,
    log_info, emit, modify, get, bind, ret.
  cbn [req future trace waits oks spins].
  destruct r as [e|response];
    cbn [lift_result raise ret Exception result_message
         req future trace waits oks spins];
    rewrite <- ?app_assoc; reflexivity.
Qed.

(** The polling loop, started with the future pending. *)
Lemma poll_loop_run (fuel : nat) :
  forall (rq : AddTwoInts.Request) (t : list event) (k ko ks : nat),
    while fuel (ok env) (poll env) (mkWorld rq Pending t k ko ks) =
    match poll_steps fuel ko ks with
    | (n, Completed r) =>
        (Ok tt,
         mkWorld rq (Done r)
           (t ++ replicate n SpinOnce ++ [LogInfo (result_message rq r)])
           k (ko + n) (ks + n))
    | (n, Stopped) =>
        (Ok tt,
         mkWorld rq Pending (t ++ replicate n SpinOnce) k
                 (S (ko + n)) (ks + n))
    | (n, OutOfFuel) =>
        (Diverge,
         mkWorld rq Pending (t ++ replicate n SpinOnce) k (ko + n) (ks + n))
    end.
Proof.
  induction fuel as [|fuel IH]; intros rq t k ko ks.
  - simpl. now rewrite app_nil_r, !Nat.add_0_r.
  - cbn [while ClientMemberFunction.poll_steps].
    erewrite bind_Ok by reflexivity.
    cbn [req future trace waits oks spins].
    destruct (rclpy_ok env ko).
    2:{ cbn [replicate ret]. now rewrite app_nil_r, !Nat.add_0_r. }
    unfold bind at 1. rewrite poll_pending.
    destruct (completes env ks) as [r|].
    + cbn [replicate app ret]. rewrite !Nat.add_1_r. reflexivity.
    + rewrite IH. destruct (poll_steps fuel (S ko) (S ks)) as [n [r| |]];
        cbn [replicate];
        replace (S ko + n) with (ko + S n) by lia;
        replace (S ks + n) with (ks + S n) by lia;
        rewrite <- ?app_assoc; reflexivity.
Qed.

Lemma poll_steps_spec (fuel : nat) :
  forall (ko ks n : nat) (e : poll_end),
    poll_steps fuel ko ks = (n, e) ->
    (forall i : nat, i < n -> rclpy_ok env (ko + i) = true) /\
    match e with
    | Completed r =>
        0 < n /\ completes env (ks + (n - 1)) = Some r /\
        (forall i : nat, i < n - 1 -> completes env (ks + i) = None)
    | Stopped =>
        rclpy_ok env (ko + n) = false /\
        (forall i : nat, i < n -> completes env (ks + i) = None)
    | OutOfFuel =>
        n = fuel /\
        (forall i : nat, i < n -> completes env (ks + i) = None)
    end.
Proof.
  induction fuel as [|fuel IH]; intros ko ks n e;
    cbn [ClientMemberFunction.poll_steps].
  - intros [= <- <-]. split; [lia|]. split; [reflexivity|lia].
  - destruct (rclpy_ok env ko) eqn:Hok.
    2:{ intros [= <- <-]. split; [lia|].
        rewrite Nat.add_0_r. split; [exact Hok|lia]. }
    destruct (completes env ks) as [r|] eqn:Hc.
    { intros [= <- <-]. split.
      - intros i Hi. now replace i with 0 by lia; rewrite Nat.add_0_r.
      - cbn [Nat.sub]. rewrite Nat.add_0_r.
        split; [lia|]. split; [exact Hc|lia]. }
    destruct (poll_steps fuel (S ko) (S ks)) as [n' e'] eqn:Hs.
    intros [= <- <-]. destruct (IH _ _ _ _ Hs) as [Hoks He].
    split.
    + intros [|i] Hi; [now rewrite Nat.add_0_r|].
      replace (ko + S i) with (S ko + i) by lia. apply Hoks. lia.
    + destruct e' as [r| |].
      * destruct He as (Hn & Hr & Hnone). split; [lia|]. split.
        -- now replace (ks + (S n' - 1)) with (S ks + (n' - 1)) by lia.
        -- intros [|i] Hi; [now rewrite Nat.add_0_r|].
           replace (ks + S i) with (S ks + i) by lia. apply Hnone. lia.
      * destruct He as (Hstop & Hnone). split.
        -- now replace (ko + S n') with (S ko + n') by lia.
        -- intros [|i] Hi; [now rewrite Nat.add_0_r|].
           replace (ks + S i) with (S ks + i) by lia. apply Hnone. lia.
      * destruct He as (Hn & Hnone). split; [lia|].
        intros [|i] Hi; [now rewrite Nat.add_0_r|].
        replace (ks + S i) with (S ks + i) by lia. apply Hnone. lia.
Qed.

(** The loop ends with the result when the future completes while
    [rclpy.ok()] holds and the fuel lasts. *)
Lemma poll_steps_completes (fuel : nat) :
  forall (ko ks c : nat) (r : exn + AddTwoInts.Response),
    completes env (ks + c) = Some r ->
    (forall i : nat, i <= c -> rclpy_ok env (ko + i) = true) ->
    c < fuel ->
    exists (n : nat) (r' : exn + AddTwoInts.Response),
      poll_steps fuel ko ks = (n, Completed r').
Proof.
  induction fuel as [|fuel IH]; intros ko ks c r Hc Hok Hfuel; [lia|].
  cbn [ClientMemberFunction.poll_steps].
  assert (H0 : rclpy_ok env ko = true).
  { rewrite <- (Nat.add_0_r ko). apply Hok. lia. }
  rewrite H0.
  destruct (completes env ks) as [r0|] eqn:Hks; [now exists 1, r0|].
  destruct c as [|c]; [rewrite Nat.add_0_r in Hc; congruence|].
  destruct (IH (S ko) (S ks) c r) as (n & r' & E).
  - now replace (S ks + c) with (ks + S c) by lia.
  - intros i Hi. replace (S ko + i) with (ko + S i) by lia. apply Hok. lia.
  - lia.
  - rewrite E. now exists (S n), r'.
Qed.

(** *** [send_request] *)

Lemma int_value_parse (elsewhere : string -> option Z) (s : string)
    (n : Z) :
  parse_int s = Some n -> int_value elsewhere s = Some n.
Proof. intros H. unfold int_value. now rewrite H. Qed.

Local Abbreviation int_value := (int_value (int_elsewhere env)).

Lemma send_request_run (w : world) (arg1 arg2 : string) (a b : Z) :
  argv env !! 1 = Some arg1 ->
  int_value arg1 = Some a ->
  AddTwoInts.fits_int64 a = true ->
  argv env !! 2 = Some arg2 ->
  int_value arg2 = Some b ->
  AddTwoInts.fits_int64 b = true ->
  send_request env w =
    (Ok tt,
     mkWorld (AddTwoInts.mkRequest a b) Pending
       (trace w ++ [CallAsync "add_two_ints" (AddTwoInts.mkRequest a b)])
       (waits w) (oks w) (spins w)).
Proof.
  intros H1 Ha Fa H2 Hb Fb. unfold send_request.
  unfold list_index at 1. rewrite H1, bind_ret.
  unfold int at 1. rewrite Ha, bind_ret.
  unfold int64_field at 1. rewrite Fa, bind_ret.
  erewrite bind_Ok by reflexivity.
  unfold list_index at 1. rewrite H2, bind_ret.
  unfold int at 1. rewrite Hb, bind_ret.
  unfold int64_field at 1. rewrite Fb, bind_ret.
  reflexivity.
Qed.

(** The ways [send_request] ends. *)
Lemma send_request_cases (w : world) :
  (exists (arg1 arg2 : string) (a b : Z),
      argv env !! 1 = Some arg1 /\ int_value arg1 = Some a /\
      AddTwoInts.fits_int64 a = true /\
      argv env !! 2 = Some arg2 /\ int_value arg2 = Some b /\
      AddTwoInts.fits_int64 b = true /\
      send_request env w =
        (Ok tt,
         mkWorld (AddTwoInts.mkRequest a b) Pending
           (trace w ++ [CallAsync "add_two_ints" (AddTwoInts.mkRequest a b)])
           (waits w) (oks w) (spins w)))
  \/
  (exists (e : exn) (w' : world),
      send_request env w = (Raise e, w') /\ trace w' = trace w).
Proof.
  destruct (argv env !! 1) as [arg1|] eqn:H1.
  2:{ right. unfold send_request. unfold list_index at 1. rewrite H1.
      eexists _, _. split; reflexivity. }
  destruct (int_value arg1) as [a|] eqn:Ha.
  2:{ right. unfold send_request. unfold list_index at 1.
      rewrite H1, bind_ret. unfold int at 1. rewrite Ha.
      eexists _, _. split; reflexivity. }
  destruct (AddTwoInts.fits_int64 a) eqn:Fa.
  2:{ right. unfold send_request. unfold list_index at 1.
      rewrite H1, bind_ret. unfold int at 1. rewrite Ha, bind_ret.
      unfold int64_field at 1. rewrite Fa.
      eexists _, _. split; reflexivity. }
  destruct (argv env !! 2) as [arg2|] eqn:H2.
  2:{ right. unfold send_request. unfold list_index at 1.
      rewrite H1, bind_ret. unfold int at 1. rewrite Ha, bind_ret.
      unfold int64_field at 1. rewrite Fa, bind_ret.
      erewrite bind_Ok by reflexivity.
      unfold list_index at 1. rewrite H2.
      eexists _, _. split; reflexivity. }
  destruct (int_value arg2) as [b|] eqn:Hb.
  2:{ right. unfold send_request. unfold list_index at 1.
      rewrite H1, bind_ret. unfold int at 1. rewrite Ha, bind_ret.
      unfold int64_field at 1. rewrite Fa, bind_ret.
      erewrite bind_Ok by reflexivity.
      unfold list_index at 1. rewrite H2, bind_ret.
      unfold int at 1. rewrite Hb.
      eexists _, _. split; reflexivity. }
  destruct (AddTwoInts.fits_int64 b) eqn:Fb.
  2:{ right. unfold send_request. unfold list_index at 1.
      rewrite H1, bind_ret. unfold int at 1. rewrite Ha, bind_ret.
      unfold int64_field at 1. rewrite Fa, bind_ret.
      erewrite bind_Ok by reflexivity.
      unfold list_index at 1. rewrite H2, bind_ret.
      unfold int at 1. rewrite Hb, bind_ret.
      unfold int64_field at 1. rewrite Fb.
      eexists _, _. split; reflexivity. }
  left. exists arg1, arg2, a, b. repeat split; try assumption.
  eapply send_request_run; eassumption.
Qed.

(** C7.  When [sys.argv] holds a first and a second argument on which
    [int] returns [a] and [b], two integers that fit the [int64] fields of
    the request, [send_request] sets the fields [a] and [b] of [self.req] to
    them and sends that request, the pair [(a, b)], to the addition
    service: it is the one event added to the trace, and the future it
    returns is stored pending.  The value of [int] is the one of the syntax
    of integer literals on the strings of ASCII characters, and the one
    that Python gives on the other strings. *)
Theorem send_request_fields (w : world) (arg1 arg2 : string) (a b : Z) :
  argv env !! 1 = Some arg1 ->
  int_value arg1 = Some a ->
  AddTwoInts.fits_int64 a = true ->
  argv env !! 2 = Some arg2 ->
  int_value arg2 = Some b ->
  AddTwoInts.fits_int64 b = true ->
  send_request env w =
    (Ok tt,
     mkWorld (AddTwoInts.mkRequest a b) Pending
       (trace w ++ [CallAsync "add_two_ints" (AddTwoInts.mkRequest a b)])
       (waits w) (oks w) (spins w)).
Proof. apply send_request_run. Qed.

(** *** [main] *)

Lemma client_calls_app (a b : list event) : calls (a ++ b) = calls a ++ calls b.
Proof. unfold calls. apply omap_app. Qed.

Lemma client_logs_app (a b : list event) : logs (a ++ b) = logs a ++ logs b.
Proof. unfold logs. apply omap_app. Qed.

Lemma calls_waiting (d : nat) : calls (replicate d waiting_again) = [].
Proof. induction d as [|d IH]; [reflexivity|exact IH]. Qed.

Lemma calls_spins (n : nat) : calls (replicate n SpinOnce) = [].
Proof. induction n as [|n IH]; [reflexivity|exact IH]. Qed.

Lemma logs_spins (n : nat) : logs (replicate n SpinOnce) = [].
Proof. induction n as [|n IH]; [reflexivity|exact IH]. Qed.

Lemma after_call_waiting (d : nat) (srv : string) (rq : AddTwoInts.Request)
    (rest : list event) :
  after_call (replicate d waiting_again ++ CallAsync srv rq :: rest) = rest.
Proof. induction d as [|d IH]; [reflexivity|exact IH]. Qed.

Lemma main_trace_calls (rq : AddTwoInts.Request) (d n : nat) (e : poll_end) :
  calls (main_trace rq d n e) = [rq].
Proof.
  unfold main_trace. rewrite !client_calls_app, calls_waiting, calls_spins.
  destruct e; reflexivity.
Qed.

Lemma main_trace_results (rq : AddTwoInts.Request) (d n : nat)
    (e : poll_end) :
  results_logged (main_trace rq d n e) = logs (processed rq e).
Proof.
  unfold results_logged, main_trace. cbn [app after_call].
  rewrite after_call_waiting, !client_logs_app, logs_spins.
  cbn. now rewrite app_nil_r.
Qed.

(** A run of [main] that returns. *)
Lemma main_Ok (fuel : nat) (w' : world) :
  main env fuel world0 = (Ok tt, w') ->
  exists (arg1 arg2 : string) (a b : Z) (n : nat) (e : poll_end),
    argv env !! 1 = Some arg1 /\ int_value arg1 = Some a /\
    AddTwoInts.fits_int64 a = true /\
    argv env !! 2 = Some arg2 /\ int_value arg2 = Some b /\
    AddTwoInts.fits_int64 b = true /\
    unready fuel 0 < fuel /\
    poll_steps fuel 0 0 = (n, e) /\ e <> OutOfFuel /\
    req w' = AddTwoInts.mkRequest a b /\
    future w' = future_after e /\
    trace w' = main_trace (AddTwoInts.mkRequest a b) (unready fuel 0) n e.
Proof.
  unfold main, world0.
  erewrite bind_Ok by reflexivity.
  unfold bind at 1. unfold init.
  erewrite bind_Ok by reflexivity.
  unfold bind at 1. cbn [req future trace waits oks spins app].
  rewrite client_wait_loop_run. cbv zeta.
  destruct (Nat.ltb (unready fuel 0) fuel) eqn:Hd; [|discriminate].
  apply Nat.ltb_lt in Hd.
  unfold set_req at 1, modify at 1. cbn [req future trace waits oks spins].
  unfold bind at 1.
  match goal with |- context [send_request env ?w1] =>
    destruct (send_request_cases w1)
      as [(arg1 & arg2 & a & b & H1 & Ha & Fa & H2 & Hb & Fb & ->)
         |(e & w2 & -> & _)]
  end; [|discriminate].
  cbn [req future trace waits oks spins].
  unfold bind at 1. rewrite poll_loop_run.
  destruct (poll_steps fuel 0 0) as [n e] eqn:Hs.
  destruct e as [r| |]; [| |discriminate].
  - intros [= <-]. exists arg1, arg2, a, b, n, (Completed r).
    repeat split; try assumption; try discriminate.
    cbn [trace]. unfold main_trace. cbn [processed app].
    rewrite <- !app_assoc. reflexivity.
  - intros [= <-]. exists arg1, arg2, a, b, n, Stopped.
    repeat split; try assumption; try discriminate.
    cbn [trace]. unfold main_trace. cbn [processed app].
    rewrite <- !app_assoc. reflexivity.
Qed.

Lemma after_call_no_call (tr : list event) :
  calls tr = [] -> after_call tr = [].
Proof.
  induction tr as [|ev tr IH]; [reflexivity|].
  destruct ev; cbn; try exact IH. discriminate.
Qed.

(** Every run of [main], however it ends, has sent at most one request and
    has processed at most one result. *)
Lemma main_bounds (fuel : nat) (o : outcome unit) (w' : world) :
  main env fuel world0 = (o, w') ->
  length (calls (trace w')) <= 1 /\
  length (results_logged (trace w')) <= 1.
Proof.
  unfold main, world0.
  erewrite bind_Ok by reflexivity.
  unfold bind at 1. unfold init.
  erewrite bind_Ok by reflexivity.
  unfold bind at 1. cbn [req future trace waits oks spins app].
  rewrite client_wait_loop_run. cbv zeta.
  assert (Hpre : forall d,
             calls (RclpyInit :: CreateClient "add_two_ints"
                    :: replicate d waiting_again) = []).
  { intros d. exact (calls_waiting d). }
  destruct (Nat.ltb (unready fuel 0) fuel) eqn:Hd.
  2:{ intros [= <- <-]. cbn [trace]. unfold results_logged.
      rewrite after_call_no_call by apply Hpre. rewrite Hpre. cbn. lia. }
  unfold set_req at 1, modify at 1. cbn [req future trace waits oks spins].
  unfold bind at 1.
  match goal with |- context [send_request env ?w1] =>
    destruct (send_request_cases w1)
      as [(arg1 & arg2 & a & b & H1 & Ha & Fa & H2 & Hb & Fb & ->)
         |(e & w2 & -> & Htr)]
  end.
  2:{ intros [= <- <-]. rewrite Htr. cbn [trace app]. unfold results_logged.
      rewrite after_call_no_call by apply Hpre. rewrite Hpre. cbn. lia. }
  cbn [req future trace waits oks spins].
  unfold bind at 1. rewrite poll_loop_run.
  destruct (poll_steps fuel 0 0) as [n e] eqn:Hs.
  set (rq := AddTwoInts.mkRequest a b).
  assert (Hshape : forall e0 : poll_end,
             length (calls (main_trace rq (unready fuel 0) n e0)) <= 1 /\
             length (results_logged (main_trace rq (unready fuel 0) n e0))
               <= 1).
  { intros e0. rewrite main_trace_calls, main_trace_results.
    destruct e0; cbn; lia. }
  destruct e as [r| |].
  - intros [= <- <-]. specialize (Hshape (Completed r)).
    unfold main_trace in Hshape. cbn [processed app] in Hshape.
    cbn [trace]. rewrite <- !app_assoc. exact Hshape.
  - intros [= <- <-]. specialize (Hshape Stopped).
    unfold main_trace in Hshape. cbn [processed app] in Hshape.
    cbn [trace]. rewrite <- !app_assoc. exact Hshape.
  - intros [= <- <-]. cbn [trace]. unfold results_logged.
    rewrite <- app_assoc. cbn [app after_call].
    rewrite after_call_waiting, logs_spins.
    match goal with
    | |- context [RclpyInit :: CreateClient ?srv :: ?l] =>
        change (RclpyInit :: CreateClient srv :: l)
          with ([RclpyInit; CreateClient srv] ++ l)
    end.
    change (CallAsync "add_two_ints" rq :: replicate n SpinOnce)
      with ([CallAsync "add_two_ints" rq] ++ replicate n SpinOnce).
    rewrite !client_calls_app, calls_spins, calls_waiting. cbn. lia.
Qed.

(** With two arguments that parse, a service that comes up and a future
    that completes while [rclpy.ok()] holds, [main] returns, given enough
    fuel, and has processed one result. *)
Lemma main_returns (arg1 arg2 : string) (a b : Z) (k c : nat)
    (r : exn + AddTwoInts.Response) :
  argv env !! 1 = Some arg1 -> parse_int arg1 = Some a ->
  AddTwoInts.fits_int64 a = true ->
  argv env !! 2 = Some arg2 -> parse_int arg2 = Some b ->
  AddTwoInts.fits_int64 b = true ->
  service_ready env k = true ->
  completes env c = Some r ->
  (forall i : nat, i <= c -> rclpy_ok env i = true) ->
  forall fuel : nat, k < fuel -> c < fuel ->
    exists (w' : world) (r' : exn + AddTwoInts.Response),
      main env fuel world0 = (Ok tt, w') /\
      future w' = Done r' /\
      calls (trace w') = [AddTwoInts.mkRequest a b] /\
      results_logged (trace w') =
        [result_message (AddTwoInts.mkRequest a b) r'].
Proof.
  intros H1 Ha Fa H2 Hb Fb Hk Hc Hok fuel Hkf Hcf.
  apply (int_value_parse (int_elsewhere env)) in Ha, Hb.
  destruct (poll_steps_completes fuel 0 0 c r Hc Hok Hcf) as (n & r' & Hs).
  pose proof (client_unready_found fuel 0 k Hk Hkf) as Hd.
  apply Nat.ltb_lt in Hd.
  exists (mkWorld (AddTwoInts.mkRequest a b) (Done r')
            (main_trace (AddTwoInts.mkRequest a b) (unready fuel 0) n
                        (Completed r'))
            (S (unready fuel 0)) n n), r'.
  split; [|split; [reflexivity|split]].
  - unfold main, world0.
    erewrite bind_Ok by reflexivity.
    unfold bind at 1. unfold init.
    erewrite bind_Ok by reflexivity.
    unfold bind at 1. cbn [req future trace waits oks spins app].
    rewrite client_wait_loop_run. cbv zeta. rewrite Hd.
    unfold set_req at 1, modify at 1. cbn [req future trace waits oks spins].
    unfold bind at 1.
    erewrite send_request_run by eassumption.
    cbn [req future trace waits oks spins].
    unfold bind at 1. rewrite poll_loop_run, Hs.
    unfold bind, emit, modify, main_trace.
    cbn [processed app Nat.add req future trace waits oks spins].
    rewrite <- !app_assoc. reflexivity.
  - apply main_trace_calls.
  - cbn [trace]. now rewrite main_trace_results.
Qed.

End Run.

(** The run in which the context is shut down before the service answers:
    [main] returns after two calls of [spin_once], the future still pending,
    without having processed any result. *)
Lemma shutdown_run :
  main shutdown_env 10 world0 =
    (Ok tt,
     mkWorld (AddTwoInts.mkRequest 2 3) Pending
       [RclpyInit; CreateClient "add_two_ints";
        CallAsync "add_two_ints" (AddTwoInts.mkRequest 2 3);
        SpinOnce; SpinOnce; DestroyNode; RclpyShutdown]
       1 3 2).
Proof. vm_compute. reflexivity. Qed.

(** C6, as stated, fails: in the run above the polling loop is left with the
    future not done and its result not processed. *)
Lemma result_not_processed_after_shutdown :
  ~ processes_result_once shutdown_env 10.
Proof.
  intros H. destruct (H _ shutdown_run) as (_ & [r Hr] & _).
  discriminate Hr.
Qed.

(** C6, amended.  A run of [main] that returns has sent exactly one
    request, the pair parsed from the arguments, and has then called
    [spin_once] [n] times, [rclpy.ok()] holding before each call.  Either
    the last of these calls completed the future, and its result was
    processed exactly once (one message: the sum, or the failure) before
    leaving the loop; or [rclpy.ok()] was false at the next test while the
    future was still pending, and the loop was left with no result
    processed.  In no run, however it ends, is a second request sent or a
    result processed twice.  When the service comes up and the future
    completes while [rclpy.ok()] holds, [main] returns, given enough fuel,
    with one result processed. *)
Theorem polls_while_ok (env : Env) :
  (forall (fuel : nat) (w' : world),
      main env fuel world0 = (Ok tt, w') ->
      exists (rq : AddTwoInts.Request) (d n : nat),
        req w' = rq /\
        calls (trace w') = [rq] /\
        (forall i : nat, i < n -> rclpy_ok env i = true) /\
        ((exists r : exn + AddTwoInts.Response,
             0 < n /\ completes env (n - 1) = Some r /\
             (forall i : nat, i < n - 1 -> completes env i = None) /\
             future w' = Done r /\
             results_logged (trace w') = [result_message rq r] /\
             trace w' = main_trace rq d n (Completed r))
         \/
         (rclpy_ok env n = false /\
          (forall i : nat, i < n -> completes env i = None) /\
          future w' = Pending /\
          results_logged (trace w') = [] /\
          trace w' = main_trace rq d n Stopped))) /\
  (forall (fuel : nat) (o : outcome unit) (w' : world),
      main env fuel world0 = (o, w') ->
      length (calls (trace w')) <= 1 /\
      length (results_logged (trace w')) <= 1) /\
  (forall (arg1 arg2 : string) (a b : Z) (k c : nat)
          (r : exn + AddTwoInts.Response),
      argv env !! 1 = Some arg1 -> parse_int arg1 = Some a ->
      AddTwoInts.fits_int64 a = true ->
      argv env !! 2 = Some arg2 -> parse_int arg2 = Some b ->
      AddTwoInts.fits_int64 b = true ->
      service_ready env k = true ->
      completes env c = Some r ->
      (forall i : nat, i <= c -> rclpy_ok env i = true) ->
      forall fuel : nat, k < fuel -> c < fuel ->
        exists (w' : world) (r' : exn + AddTwoInts.Response),
          main env fuel world0 = (Ok tt, w') /\
          future w' = Done r' /\
          calls (trace w') = [AddTwoInts.mkRequest a b] /\
          results_logged (trace w') =
            [result_message (AddTwoInts.mkRequest a b) r']).
Proof.
  split; [|split; [exact (main_bounds env)|exact (main_returns env)]].
  intros fuel w' Hrun.
  destruct (main_Ok env fuel w' Hrun)
    as (arg1 & arg2 & a & b & n & e & _ & _ & _ & _ & _ & _ & _ & Hs & He
        & Hreq & Hfut & Htr).
  exists (AddTwoInts.mkRequest a b), (unready env fuel 0), n.
  destruct (poll_steps_spec env fuel 0 0 n e Hs) as [Hoks Hend].
  split; [exact Hreq|]. split; [rewrite Htr; apply main_trace_calls|].
  split; [exact Hoks|].
  destruct e as [r| |]; [left|right|congruence].
  - destruct Hend as (Hn & Hr & Hnone). exists r.
    repeat split; try assumption.
    rewrite Htr. apply main_trace_results.
  - destruct Hend as (Hstop & Hnone).
    repeat split; try assumption.
    rewrite Htr. apply main_trace_results.
Qed.

(** *** The properties at the sample environments *)

Lemma send_request_fields_sample :
  send_request answering_env world0 =
    (Ok tt,
     mkWorld (AddTwoInts.mkRequest 2 3) Pending
       [CallAsync "add_two_ints" (AddTwoInts.mkRequest 2 3)] 0 0 0).
Proof.
  apply (send_request_fields answering_env world0 "2" "3" 2 3); reflexivity.
Defined.

Lemma polls_while_ok_sample :
  exists (w' : world) (r' : exn + AddTwoInts.Response),
    main answering_env 4 world0 = (Ok tt, w') /\
    future w' = Done r' /\
    calls (trace w') = [AddTwoInts.mkRequest 2 3] /\
    results_logged (trace w') =
      [result_message (AddTwoInts.mkRequest 2 3) r'].
Proof.
  destruct (polls_while_ok answering_env) as (_ & _ & Hreturns).
  apply (Hreturns "2" "3" 2%Z 3%Z 1 2 (inr (AddTwoInts.mkResponse 5)));
    try reflexivity; try lia.
Defined.

End ClientProps.

(** ** Exceptions from futures *)

Module FutureErrors.

(** C4.  When the result of a completed future is an exception, each of
    the three places that retrieve it catches the exception and logs a
    failure message, and returns normally: the done-callback of [spawn]
    logs a warning, the done-callback of [publish_golfballs] logs a fatal
    message, the polling loop of the addition client logs the failure and
    leaves the loop.  Nothing else is added to the trace: no request is sent
    again.  A run of the client's [main] whose future ended with an
    exception has returned with its single request sent and that one
    message logged for the result. *)
Theorem future_exception_logged :
  (forall (name : string) (e : exn) (w : SpawnDemo.world),
      SpawnDemo.spawn_result name (inl e) w =
        (Ok tt,
         SpawnDemo.push
           [SpawnDemo.Log SpawnDemo.WARN
              ("Could not spawn " +:+ name +:+ ". Exception: " +:+ str_exn e)]
           w)) /\
  (forall (e : exn) (w : SpawnDemo.world),
      SpawnDemo.publish_golfballs_results (inl e) w =
        (Ok tt,
         SpawnDemo.push
           [SpawnDemo.Log SpawnDemo.FATAL
              ("Could not send golf ball poses. Exception: " +:+ str_exn e)]
           w)) /\
  (forall (env : ClientMemberFunction.Env)
          (rq : ClientMemberFunction.AddTwoInts.Request) (e : exn)
          (t : list ClientMemberFunction.event) (k ko ks : nat),
      ClientMemberFunction.completes env ks = Some (inl e) ->
      ClientMemberFunction.poll env
        (ClientMemberFunction.mkWorld rq ClientMemberFunction.Pending
           t k ko ks) =
        (Ok Break,
         ClientMemberFunction.mkWorld rq (ClientMemberFunction.Done (inl e))
           (t ++ [ClientMemberFunction.SpinOnce;
                  ClientMemberFunction.LogInfo
                    ("Service call failed (" +:+ repr_exn e +:+ ",)")])
           k ko (S ks))) /\
  (forall (env : ClientMemberFunction.Env) (fuel : nat)
          (w' : ClientMemberFunction.world) (e : exn),
      ClientMemberFunction.main env fuel ClientMemberFunction.world0 =
        (Ok tt, w') ->
      ClientMemberFunction.future w' = ClientMemberFunction.Done (inl e) ->
      ClientMemberFunction.calls (ClientMemberFunction.trace w') =
        [ClientMemberFunction.req w'] /\
      ClientMemberFunction.results_logged (ClientMemberFunction.trace w') =
        ["Service call failed (" +:+ repr_exn e +:+ ",)"]).
Proof.
  split; [|split; [|split]].
  - intros name e w. reflexivity.
  - intros e w. reflexivity.
  - intros env rq e t k ko ks Hc.
    rewrite ClientProps.poll_pending, Hc. reflexivity.
  - intros env fuel w' e Hrun Hfut.
    destruct (ClientProps.main_Ok env fuel w' Hrun)
      as (arg1 & arg2 & a & b & n & e0 & _ & _ & _ & _ & _ & _ & _ & _ & _
          & Hreq & Hfut' & Htr).
    rewrite Hfut in Hfut'. destruct e0 as [r| |]; try discriminate.
    injection Hfut' as <-. rewrite Htr, Hreq. split.
    + apply ClientProps.main_trace_calls.
    + now rewrite ClientProps.main_trace_results.
Qed.

Lemma future_exception_logged_sample :
  let e := AnyException "RuntimeError" "no server" in
  let w' := snd (ClientMemberFunction.main ClientMemberFunction.failing_env 4
                   ClientMemberFunction.world0) in
  ClientMemberFunction.main ClientMemberFunction.failing_env 4
    ClientMemberFunction.world0 = (Ok tt, w') /\
  ClientMemberFunction.future w' = ClientMemberFunction.Done (inl e) /\
  ClientMemberFunction.calls (ClientMemberFunction.trace w') =
    [ClientMemberFunction.req w'] /\
  ClientMemberFunction.results_logged (ClientMemberFunction.trace w') =
    ["Service call failed (" +:+ repr_exn e +:+ ",)"].
Proof.
  cbv zeta.
  assert (Hrun : ClientMemberFunction.main ClientMemberFunction.failing_env 4
                   ClientMemberFunction.world0 =
                 (Ok tt,
                  snd (ClientMemberFunction.main
                         ClientMemberFunction.failing_env 4
                         ClientMemberFunction.world0))).
  { vm_compute. reflexivity. }
  assert (Hfut : ClientMemberFunction.future
                   (snd (ClientMemberFunction.main
                           ClientMemberFunction.failing_env 4
                           ClientMemberFunction.world0)) =
                 ClientMemberFunction.Done
                   (inl (AnyException "RuntimeError" "no server"))).
  { vm_compute. reflexivity. }
  split; [exact Hrun|]. split; [exact Hfut|].
  destruct future_exception_logged as (_ & _ & _ & Hmain).
  exact (Hmain ClientMemberFunction.failing_env 4 _ _ Hrun Hfut).
Defined.

End FutureErrors.

(** ** Further properties of [spawn_demo.py] *)

Module SpawnExtras.
Import SpawnDemo SpawnDemoRest SpawnDemoProps.

(** *** [spawn] on any pose *)

Lemma spawn_request_outcome (name xml : string) (pose : gmap string pyval)
    (r0 : SpawnEntity.Request) :
  (exists (px py pz : Q) (req : SpawnEntity.Request),
      spawn_request name xml pose r0 = (Ok tt, req) /\
      numeric_pose pose px py pz /\
      (forall n : Q, pose !! "orientation" <> Some (PyNum n)) /\
      SpawnEntity.name req = name /\ SpawnEntity.xml req = xml /\
      Pose.position (SpawnEntity.initial_pose req) = Point.mk px py pz)
  \/
  (exists (e : exn) (req : SpawnEntity.Request),
      spawn_request name xml pose r0 = (Raise e, req) /\
      ((exists key : string,
           e = KeyError key /\ key ∈ ["x"; "y"; "z"] /\ pose !! key = None)
       \/
       (exists (msg key : string) (d : gmap string Q),
           e = TypeError msg /\ key ∈ ["x"; "y"; "z"] /\
           pose !! key = Some (PyDict d))
       \/
       (exists (msg : string) (n : Q),
           e = TypeError msg /\ pose !! "orientation" = Some (PyNum n)))).
Proof.
  assert (Hx : "x" ∈ ["x"; "y"; "z"]) by repeat constructor.
  assert (Hy : "y" ∈ ["x"; "y"; "z"]) by repeat constructor.
  assert (Hz : "z" ∈ ["x"; "y"; "z"]) by repeat constructor.
  unfold spawn_request, try_except, bind, getitem, float, subscript, getitem,
    modify, ret, raise, numeric_pose.
  destruct (pose !! "x") as [[px|dx]|] eqn:Ex; cbn;
    [|right; eauto 12..].
  destruct (pose !! "y") as [[py|dy]|] eqn:Ey; cbn;
    [|right; eauto 12..].
  destruct (pose !! "z") as [[pz|dz]|] eqn:Ez; cbn;
    [|right; eauto 12..].
  destruct (pose !! "orientation") as [[po|q]|] eqn:Eo; cbn;
    [right; eauto 12| |left; eexists px, py, pz, _; repeat split; congruence].
  destruct (q !! "x"); cbn;
    [|left; eexists px, py, pz, _; repeat split; congruence].
  destruct (q !! "y"); cbn;
    [|left; eexists px, py, pz, _; repeat split; congruence].
  destruct (q !! "z"); cbn;
    [|left; eexists px, py, pz, _; repeat split; congruence].
  destruct (q !! "w"); cbn;
    left; eexists px, py, pz, _; repeat split; congruence.
Qed.

(** X1.  [spawn] on a pose dictionary whose values are numbers in the
    range of a double or dictionaries of such numbers.  It returns when x, y
    and z are numbers and the orientation, if there is one, is a dictionary;
    it has then sent one request with the name, the model text and the
    position given, and registered the callback.  Otherwise it raises,
    [KeyError] for the first coordinate that is missing, [TypeError] for a
    coordinate that is a dictionary or an orientation that is a number, and
    it raises before anything is sent: the world is as it was.  It does not
    loop. *)
Theorem spawn_raises_before_sending (name xml : string)
    (pose : gmap string pyval) (w : world) :
  pose_in_range pose ->
  (exists (px py pz : Q) (req : SpawnEntity.Request),
      spawn name xml pose w = (Ok tt, push (spawn_events req) w) /\
      numeric_pose pose px py pz /\
      (forall n : Q, pose !! "orientation" <> Some (PyNum n)) /\
      SpawnEntity.name req = name /\ SpawnEntity.xml req = xml /\
      Pose.position (SpawnEntity.initial_pose req) = Point.mk px py pz)
  \/
  (exists e : exn,
      spawn name xml pose w = (Raise e, w) /\
      ((exists key : string,
           e = KeyError key /\ key ∈ ["x"; "y"; "z"] /\ pose !! key = None)
       \/
       (exists (msg key : string) (d : gmap string Q),
           e = TypeError msg /\ key ∈ ["x"; "y"; "z"] /\
           pose !! key = Some (PyDict d))
       \/
       (exists (msg : string) (n : Q),
           e = TypeError msg /\ pose !! "orientation" = Some (PyNum n)))).
Proof.
  intros _.
  destruct (spawn_request_outcome name xml pose SpawnEntity.Request_default)
    as [(px & py & pz & req & Hreq & Hnum & Ho & Hn & Hx & Hp)
       |(e & req & Hreq & He)].
  - left. exists px, py, pz, req.
    split; [|exact (conj Hnum (conj Ho (conj Hn (conj Hx Hp))))].
    unfold spawn_events. rewrite Hn. now apply spawn_sends.
  - right. exists e. split; [|exact He].
    unfold spawn, run_local, bind. now rewrite Hreq.
Qed.

Lemma spawn_raises_before_sending_sample :
  let pose : gmap string pyval :=
    {[ "x" := PyNum 1; "z" := PyNum 0;
       "orientation" := PyDict {[ "w" := 1%Q ]} ]} in
  pose_in_range pose /\
  spawn "tape0" "<sdf/>" pose world0 = (Raise (KeyError "y"), world0).
Proof.
  cbv zeta.
  assert (Hr : pose_in_range
                 {[ "x" := PyNum 1; "z" := PyNum 0;
                    "orientation" := PyDict {[ "w" := 1%Q ]} ]}).
  { unfold pose_in_range.
    repeat split; try exact I; vm_compute; discriminate. }
  split; [exact Hr|].
  destruct (spawn_raises_before_sending "tape0" "<sdf/>" _ world0 Hr)
    as [(px & py & pz & req & _ & (_ & Hy & _) & _)
       |(e & Hrun & _)].
  - discriminate Hy.
  - rewrite Hrun. f_equal. vm_compute in Hrun. now injection Hrun as <-.
Defined.

(** X2.  The orientation of the request that [spawn] sends for a pose with
    an orientation dictionary.  The four fields are assigned in the order x,
    y, z, w; a missing key ends the assignments without an error, and the
    fields assigned before it stay: a dictionary with all four keys gives its
    four values, one without x gives the default orientation whatever else
    it holds, and one that lacks a later key gives a mixture of its values
    and the default ones. *)
Theorem spawn_orientation_partial (name xml : string)
    (pose : gmap string pyval) (px py pz : Q) (q : gmap string Q)
    (w : world) :
  numeric_pose pose px py pz ->
  pose !! "orientation" = Some (PyDict q) ->
  exists o : Quaternion.t,
    spawn name xml pose w =
      (Ok tt,
       push (spawn_events
               (SpawnEntity.mkRequest name xml ""
                  (Pose.mk (Point.mk px py pz) o) "")) w) /\
    (forall ox oy oz ow : Q,
        q !! "x" = Some ox -> q !! "y" = Some oy -> q !! "z" = Some oz ->
        q !! "w" = Some ow -> o = Quaternion.mk ox oy oz ow) /\
    (q !! "x" = None -> o = Quaternion.mk 0 0 0 1) /\
    (forall ox : Q,
        q !! "x" = Some ox -> q !! "y" = None ->
        o = Quaternion.mk ox 0 0 1) /\
    (forall ox oy : Q,
        q !! "x" = Some ox -> q !! "y" = Some oy -> q !! "z" = None ->
        o = Quaternion.mk ox oy 0 1) /\
    (forall ox oy oz : Q,
        q !! "x" = Some ox -> q !! "y" = Some oy -> q !! "z" = Some oz ->
        q !! "w" = None -> o = Quaternion.mk ox oy oz 1).
Proof.
  intros Hnum Ho. exists (oriented q Quaternion.default). split.
  - apply spawn_sends.
    apply (spawn_request_oriented name xml pose px py pz q
             SpawnEntity.Request_default Hnum Ho).
  - unfold oriented.
    repeat split; intros; repeat match goal with
                                 | H : q !! _ = _ |- _ => rewrite H
                                 end; reflexivity.
Qed.

Lemma spawn_orientation_partial_sample :
  exists o : Quaternion.t,
    spawn "tape1" "<sdf/>"
      {[ "x" := PyNum 1; "y" := PyNum 2; "z" := PyNum 0;
         "orientation" := PyDict {[ "x" := 0.5%Q; "z" := 0.5%Q ]} ]} world0 =
      (Ok tt,
       push (spawn_events
               (SpawnEntity.mkRequest "tape1" "<sdf/>" ""
                  (Pose.mk (Point.mk 1 2 0) o) "")) world0) /\
    o = Quaternion.mk 0.5 0 0 1.
Proof.
  destruct (spawn_orientation_partial "tape1" "<sdf/>"
              {[ "x" := PyNum 1; "y" := PyNum 2; "z" := PyNum 0;
                 "orientation" := PyDict {[ "x" := 0.5%Q; "z" := 0.5%Q ]} ]}
              1 2 0 {[ "x" := 0.5%Q; "z" := 0.5%Q ]} world0)
    as (o & Hrun & _ & _ & Hy & _).
  - repeat split; reflexivity.
  - reflexivity.
  - exists o. split; [exact Hrun|]. apply Hy; reflexivity.
Defined.


(** *** The done-callbacks *)

Lemma push_nil (w : world) : push [] w = w.
Proof. destruct w. unfold push. simpl. now rewrite app_nil_r. Qed.

(** X3.  The done-callback of [spawn] logs exactly one message, whatever
    the future holds, and does nothing else.  It does not look at the field
    [success] of the response: a response that reports a failure is logged
    at level INFO as a result, like one that reports success; the warning
    is logged only when the future holds an exception. *)
Theorem spawn_result_ignores_success (name : string)
    (future : exn + SpawnEntity.Response) (w : world) :
  exists (lvl : level) (msg : string),
    spawn_result name future w = (Ok tt, push [Log lvl msg] w) /\
    (forall (ok : bool) (status : string),
        future = inr (SpawnEntity.mkResponse ok status) ->
        lvl = INFO /\
        msg = "Result: gazebo_msgs.srv.SpawnEntity_Response(success="
              +:+ SpawnEntity.repr_bool ok +:+ ", status_message="
              +:+ repr_str status +:+ ")") /\
    (lvl = WARN <-> exists e : exn, future = inl e).
Proof.
  destruct future as [e|[ok status]].
  - exists WARN, ("Could not spawn " +:+ name +:+ ". Exception: "
                  +:+ str_exn e).
    split; [reflexivity|]. split; [discriminate|].
    split; [eauto|reflexivity].
  - exists INFO, ("Result: " +:+ SpawnEntity.repr_Response
                                   (SpawnEntity.mkResponse ok status)).
    split; [reflexivity|]. split.
    + intros ok' status' [= <- <-]. split; reflexivity.
    + split; [discriminate|]. intros [e He]. discriminate.
Qed.

(** X4.  The done-callback of [publish_golfballs] returns normally
    whatever the future holds, and logs at most one message, at level FATAL.
    It logs nothing exactly when the future holds a response that reports
    success.  For a response that reports a failure the exception it raises
    for itself carries no argument, so the message ends after
    [Exception: ]. *)
Theorem poses_callback_silent_iff_success
    (future : exn + SendGolfBallPoses.Response) (w : world) :
  exists evs : list event,
    publish_golfballs_results future w = (Ok tt, push evs w) /\
    (evs = [] <->
     future = inr (SendGolfBallPoses.mkResponse true)) /\
    (future = inr (SendGolfBallPoses.mkResponse false) ->
     evs = [Log FATAL "Could not send golf ball poses. Exception: "]) /\
    (evs <> [] -> exists msg : string, evs = [Log FATAL msg]).
Proof.
  destruct future as [e|[[|]]].
  - exists [Log FATAL ("Could not send golf ball poses. Exception: "
                       +:+ str_exn e)].
    split; [reflexivity|]. split; [split; discriminate|].
    split; [discriminate|eauto].
  - exists []. split; [now rewrite push_nil|].
    split; [split; reflexivity|]. split; [discriminate|congruence].
  - exists [Log FATAL "Could not send golf ball poses. Exception: "].
    split; [reflexivity|]. split; [split; discriminate|].
    split; [reflexivity|eauto].
Qed.


Lemma spawn_result_event (name : string)
    (future : exn + SpawnEntity.Response) (w : world) :
  exists (lvl : level) (msg : string),
    spawn_result name future w = (Ok tt, push [Log lvl msg] w) /\
    forall e : exn,
      future = inl e ->
      lvl = WARN /\
      msg = "Could not spawn " +:+ name +:+ ". Exception: " +:+ str_exn e.
Proof.
  destruct future as [e|r]; eexists _, _; (split; [reflexivity|]).
  - intros e' [= <-]. split; reflexivity.
  - discriminate.
Qed.

Lemma poses_result_events (future : exn + SendGolfBallPoses.Response)
    (w : world) :
  exists evs : list event,
    publish_golfballs_results future w = (Ok tt, push evs w) /\
    (evs = [] \/ exists msg : string, evs = [Log FATAL msg]).
Proof.
  destruct future as [e|[[|]]].
  - eexists. split; [reflexivity|]. right. eauto.
  - exists []. split; [now rewrite push_nil|]. now left.
  - eexists. split; [reflexivity|]. right. eauto.
Qed.

(** One call of [spin_once] adds at most one event, a message. *)
Lemma spin_once_events (item : work) (w : world) :
  exists evs : list event,
    spin_once item w = (Ok tt, push evs w) /\
    (evs = [] \/ exists (lvl : level) (msg : string), evs = [Log lvl msg]).
Proof.
  unfold spin_once, bind, get.
  assert (Hidle : exists evs : list event,
             @ret world unit tt w = (Ok tt, push evs w) /\
             (evs = [] \/
              exists (lvl : level) (msg : string), evs = [Log lvl msg])).
  { exists []. split; [now rewrite push_nil|]. now left. }
  destruct item as [|i future|i future]; [exact Hidle| |].
  - destruct (registered (trace w) !! i) as [[name|]|]; try exact Hidle.
    destruct (spawn_result_event name future w) as (lvl & msg & Hrun & _).
    exists [Log lvl msg]. split; [exact Hrun|]. right. eauto.
  - destruct (registered (trace w) !! i) as [[name|]|]; try exact Hidle.
    destruct (poses_result_events future w) as (evs & Hrun & [->|[msg ->]]).
    + exists []. split; [exact Hrun|]. now left.
    + exists [Log FATAL msg]. split; [exact Hrun|]. right. eauto.
Qed.

(** *** Runs of the constructor *)

Lemma appended_app (a b : list event) :
  appended a -> appended b -> appended (a ++ b).
Proof.
  intros Ha Hb. induction Ha; simpl; [exact Hb|now constructor..].
Qed.

Lemma appended_spawn_events (req : SpawnEntity.Request) :
  appended (spawn_events req).
Proof.
  unfold spawn_events.
  apply (appended_call "/spawn_entity" (SpawnEntityReq req)). constructor.
Qed.

Lemma appended_replicate (d : nat) (msg : string) :
  appended (replicate d (Log INFO msg)).
Proof. induction d as [|d IH]; simpl; now constructor. Qed.

Lemma appended_calls (body : list event) :
  appended body ->
  registered body = map callback_of (calls body) /\ warnings body = [].
Proof.
  induction 1 as [|msg rest _ [IH1 IH2]|rest _ [IH1 IH2]
                 |srv req rest _ [IH1 IH2]].
  - split; reflexivity.
  - split; [exact IH1|exact IH2].
  - split; [exact IH1|exact IH2].
  - split; [|exact IH2].
    unfold registered. cbn [omap list_omap calls map]. fold (registered rest).
    now rewrite IH1.
Qed.

Section Run.

Variable feet_to_meters : Q -> Q.
Variable euler_to_quaternion : Q -> Q -> Q -> gmap string Q.
Variable radians : Q -> Q.
Variable model_paths : gmap string string.
Variable env : Env.

Local Abbreviation model_text := (model_text model_paths env).
Local Abbreviation ball_entry := (ball_entry feet_to_meters env).
Local Abbreviation ball_events := (ball_events feet_to_meters env).
Local Abbreviation ball_request := (ball_request feet_to_meters env).
Local Abbreviation init :=
  (init feet_to_meters euler_to_quaternion radians model_paths env).
Local Abbreviation publish_golfballs := (publish_golfballs env).
Local Abbreviation ball_count := (ball_count env).
Local Abbreviation unready := (unready env).
Local Abbreviation marker_events :=
  (marker_events euler_to_quaternion radians).
Local Abbreviation expected_requests :=
  (expected_requests feet_to_meters euler_to_quaternion radians env).
Local Abbreviation tape1_request := (tape1_request euler_to_quaternion radians).
Local Abbreviation robot_request := (robot_request euler_to_quaternion radians).

Lemma appended_ball_events (xb : string) (j : nat) (idx : list nat) :
  appended (flat_map (ball_events xb j) idx).
Proof.
  induction idx as [|i idx IH]; cbn [flat_map]; [constructor|].
  apply appended_app; [apply appended_spawn_events|exact IH].
Qed.

Lemma appended_marker_events (xg xt xr : string) :
  appended (marker_events xg xt xr).
Proof.
  unfold SpawnDemo.marker_events.
  repeat apply appended_app; apply appended_spawn_events.
Qed.

(** What the loop that waits for a service has seen: the calls before the
    one it counts up to found the service unavailable, and that one, when
    the loop ended by itself, found it. *)
Lemma unready_before (srv : string) (fuel : nat) :
  forall k i : nat,
    i < unready srv fuel k -> service_ready env srv (k + i) = false.
Proof.
  induction fuel as [|fuel IH]; intros k i Hi; simpl in *; [lia|].
  destruct (service_ready env srv k) eqn:Hk; [lia|].
  destruct i as [|i]; [now rewrite Nat.add_0_r|].
  rewrite Nat.add_succ_r. apply (IH (S k)). lia.
Qed.

Lemma unready_at (srv : string) (fuel : nat) :
  forall k : nat,
    unready srv fuel k < fuel ->
    service_ready env srv (k + unready srv fuel k) = true.
Proof.
  induction fuel as [|fuel IH]; intros k Hd; [lia|].
  simpl in *. destruct (service_ready env srv k) eqn:Hk.
  - now rewrite Nat.add_0_r.
  - rewrite Nat.add_succ_r. apply (IH (S k)). lia.
Qed.

(** The trace of any run of the constructor: the client of the spawn
    service, one warning for each wait that failed, and behind them only
    what [appended] describes. *)
Lemma init_trace_shape (fuel : nat) (o : outcome unit) (w' : world) :
  init fuel world0 = (o, w') ->
  exists body : list event,
    trace w' = (CreateClient "/spawn_entity"
                :: replicate (unready "/spawn_entity" fuel 0)
                             waiting_for_spawn) ++ body /\
    appended body /\
    (body <> [] -> unready "/spawn_entity" fuel 0 < fuel).
Proof.
  rewrite init_run. cbv zeta.
  destruct (Nat.ltb (unready "/spawn_entity" fuel 0) fuel) eqn:Hd.
  2:{ intros [= <- <-]. exists []. cbn [trace]. rewrite app_nil_r.
      split; [reflexivity|]. split; [constructor|congruence]. }
  apply Nat.ltb_lt in Hd.
  assert (Hfuel : exists fuel', fuel = S fuel').
  { destruct fuel as [|fuel']; [lia|]. now exists fuel'. }
  destruct Hfuel as [fuel' ->].
  remember (CreateClient "/spawn_entity" :: replicate _ waiting_for_spawn)
    as t0 eqn:Et0. clear Et0.
  assert (Hstarted : appended started) by (repeat constructor).
  unfold bind. rewrite create_world_run.
  destruct (model_text "grass") as [e|xg] eqn:Hg.
  { intros [= <- <-]. exists started. now repeat split. }
  destruct (model_text "tape") as [e|xt] eqn:Ht.
  { intros [= <- <-]. exists (started ++ spawn_events (grass_request xg)).
    cbn [trace]. rewrite app_assoc. split; [reflexivity|].
    split; [|easy].
    apply appended_app; [exact Hstarted|apply appended_spawn_events]. }
  destruct (model_text "robot") as [e|xr] eqn:Hr.
  { intros [= <- <-].
    exists (started ++ spawn_events (grass_request xg)
                    ++ spawn_events (tape0_request xt)
                    ++ spawn_events (tape1_request xt)).
    cbn [trace]. rewrite app_assoc. split; [reflexivity|].
    split; [|easy].
    repeat apply appended_app; try apply appended_spawn_events.
    exact Hstarted. }
  rewrite spawn_golfballs_run.
  destruct (model_text "golfball") as [e|xb] eqn:Hb.
  { intros [= <- <-]. exists (started ++ marker_events xg xt xr).
    cbn [trace]. rewrite app_assoc. split; [reflexivity|].
    split; [|easy].
    apply appended_app; [exact Hstarted|apply appended_marker_events]. }
  rewrite publish_golfballs_run. cbv zeta.
  set (balls := flat_map (ball_events xb 1) (seq 0 (ball_count 0))).
  set (d2 := unready "/golfball_poses" (S fuel') (S (unready "/spawn_entity" (S fuel') 0))).
  assert (Hbody : appended (started ++ marker_events xg xt xr ++ balls
                            ++ CreateClient "/golfball_poses"
                               :: replicate d2 waiting_for_poses)).
  { apply appended_app; [exact Hstarted|].
    apply appended_app; [apply appended_marker_events|].
    apply appended_app; [apply appended_ball_events|].
    constructor. apply appended_replicate. }
  set (body0 := started ++ marker_events xg xt xr ++ balls
                ++ CreateClient "/golfball_poses"
                   :: replicate d2 waiting_for_poses) in *.
  match goal with |- context [if ?c then _ else _] => destruct c end.
  2:{ intros [= <- <-]. exists body0. cbn [trace].
      split; [|split; [exact Hbody|easy]].
      unfold body0. now rewrite <- !app_assoc. }
  match goal with |- context [match ?g with [] => _ | _ :: _ => _ end] =>
    destruct g as [|b bs] end.
  { intros [= <- <-]. exists body0. cbn [trace].
    split; [|split; [exact Hbody|easy]].
    unfold body0. now rewrite <- !app_assoc. }
  intros [= <- <-].
  exists (body0 ++ [CallAsync "/golfball_poses"
                      (SendGolfBallPosesReq (poses_request (b :: bs)));
                    AddDoneCallback CbPublishGolfballsResults]).
  cbn [trace]. split; [|split; [|easy]].
  - unfold body0. now rewrite <- !app_assoc.
  - apply appended_app; [exact Hbody|].
    apply (appended_call "/golfball_poses" (SendGolfBallPosesReq _)).
    constructor.
Qed.


Lemma registered_app (a b : list event) :
  registered (a ++ b) = registered a ++ registered b.
Proof. apply omap_app. Qed.

Lemma warnings_app (a b : list event) :
  warnings (a ++ b) = warnings a ++ warnings b.
Proof. apply omap_app. Qed.

Lemma registered_replicate (d : nat) (lvl : level) (msg : string) :
  registered (replicate d (Log lvl msg)) = [].
Proof. induction d as [|d IH]; [reflexivity|exact IH]. Qed.

Lemma warnings_waiting (d : nat) :
  warnings (replicate d waiting_for_spawn) =
    replicate d "Service not available. Waiting...".
Proof.
  induction d as [|d IH]; [reflexivity|]. cbn [replicate].
  unfold warnings in *. cbn [omap list_omap waiting_for_spawn]. now rewrite IH.
Qed.

Lemma omap_is_send_spawn_calls (reqs : list SpawnEntity.Request) :
  omap is_send (map spawn_call reqs) = [].
Proof. induction reqs as [|r reqs IH]; [reflexivity|exact IH]. Qed.

(** X5.  [publish_golfballs] on an empty list of golf balls.  It creates
    the client and waits for the service as usual; once the service is
    found, unpacking the empty [zip] raises [ValueError].  No request is
    sent and no callback is registered, whether the run raises or is still
    waiting. *)
Theorem publish_empty_list_raises (fuel : nat) (w : world) :
  golfballs w = [] ->
  let d := unready "/golfball_poses" fuel (waits w) in
  exists w' : world,
    publish_golfballs fuel w =
      (if Nat.ltb d fuel
       then Raise (ValueError
                     "not enough values to unpack (expected 2, got 0)")
       else Diverge, w') /\
    trace w' = trace w ++ CreateClient "/golfball_poses"
                          :: replicate d waiting_for_poses /\
    calls (trace w') = calls (trace w) /\
    registered (trace w') = registered (trace w).
Proof.
  destruct w as [g t r k]. cbn [golfballs waits trace]. intros ->.
  cbv zeta. rewrite publish_golfballs_run. cbv zeta.
  assert (Hc : calls (t ++ CreateClient "/golfball_poses"
                        :: replicate (unready "/golfball_poses" fuel k)
                                     waiting_for_poses) = calls t).
  { rewrite calls_app. cbn [calls].
    rewrite calls_replicate by reflexivity. apply app_nil_r. }
  assert (Hr : registered (t ++ CreateClient "/golfball_poses"
                             :: replicate (unready "/golfball_poses" fuel k)
                                          waiting_for_poses) = registered t).
  { rewrite registered_app.
    change (registered (CreateClient "/golfball_poses" :: ?l))
      with (registered l).
    unfold waiting_for_poses. rewrite registered_replicate. apply app_nil_r. }
  destruct (Nat.ltb (unready "/golfball_poses" fuel k) fuel);
    eexists; (split; [reflexivity|]); cbn [trace]; now repeat split.
Qed.

(** X6.  The constructor when the model of the golf ball cannot be read
    while the other models can.  Once the spawn service is found, it sends
    the requests for the grass, the two tape strips and the robot, draws the
    number of balls and the position of the first ball, appends the entry of
    that ball to [self.golfballs] and then raises at the reading of the
    model: the list holds a ball for which no request was sent, and nothing
    is forwarded to [/golfball_poses]. *)
Theorem init_without_golfball_model (fuel k : nat) (xg xt xr : string)
    (e : exn) :
  model_text "grass" = inr xg ->
  model_text "tape" = inr xt ->
  model_text "robot" = inr xr ->
  model_text "golfball" = inl e ->
  service_ready env "/spawn_entity" k = true ->
  k < fuel ->
  exists w' : world,
    init fuel world0 = (Raise e, w') /\
    map snd (golfballs w') = ["ball0"] /\
    spawn_requests (trace w') =
      [grass_request xg; tape0_request xt; tape1_request xt;
       robot_request xr] /\
    send_requests (trace w') = [] /\
    rand_calls w' = 3.
Proof.
  intros Hg Ht Hr Hb Hk Hfuel.
  pose proof (unready_found env "/spawn_entity" fuel 0 k Hk Hfuel) as Hd.
  destruct fuel as [|fuel']; [lia|].
  rewrite init_run. cbv zeta.
  replace (Nat.ltb (unready "/spawn_entity" (S fuel') 0) (S fuel'))
    with true by (symmetry; apply Nat.ltb_lt; exact Hd).
  unfold bind. rewrite create_world_run, Hg, Ht, Hr.
  rewrite spawn_golfballs_run, Hb.
  eexists. split; [reflexivity|]. cbn [golfballs trace rand_calls app map].
  split; [reflexivity|].
  unfold spawn_requests, send_requests. cbn [calls].
  rewrite !calls_app, calls_marker_events. cbn [calls started].
  rewrite calls_replicate by reflexivity. cbn [app].
  split; [|split; reflexivity].
  apply omap_spawn_call.
Qed.

(** X7.  What is forwarded is what was spawned.  In a run of the
    constructor that returns, the one request sent to [/golfball_poses]
    lists, in the same order, the positions and the names of the requests
    that were sent for the golf balls, which are the spawn requests after
    the first four.  Each of them has the default orientation: the
    orientations given to the second tape strip and to the robot do not
    reach the golf balls. *)
Theorem forwarded_poses_are_spawned (fuel : nat) (w' : world) :
  init fuel world0 = (Ok tt, w') ->
  exists (send : SendGolfBallPoses.Request)
         (balls : list SpawnEntity.Request),
    send_requests (trace w') = [send] /\
    drop 4 (spawn_requests (trace w')) = balls /\
    length balls = ball_count 0 /\
    SendGolfBallPoses.golfballs send =
      map (fun r => Pose.position (SpawnEntity.initial_pose r)) balls /\
    SendGolfBallPoses.names send = map SpawnEntity.name balls /\
    Forall (fun r => Pose.orientation (SpawnEntity.initial_pose r)
                     = Quaternion.default) balls.
Proof.
  intros Hrun.
  destruct (init_calls feet_to_meters euler_to_quaternion radians
              model_paths env fuel (Ok tt) w' Hrun)
    as (xg & xt & xr & xb & m & [(_ & Hgs & Hcalls)|(Hstop & _)]).
  2:{ now apply stopped_not_Ok in Hstop. }
  exists (poses_request (golfballs w')),
    (map (fun i => ball_request xb (1 + 2 * i) i) (seq 0 (ball_count 0))).
  unfold send_requests, spawn_requests. rewrite Hcalls.
  rewrite omap_is_spawn_app_send, omap_app, omap_is_send_spawn_calls.
  split; [reflexivity|]. split; [reflexivity|].
  split; [now rewrite length_map, length_seq|].
  rewrite Hgs. unfold poses_request.
  cbn [SendGolfBallPoses.golfballs SendGolfBallPoses.names].
  rewrite !map_map. split; [reflexivity|]. split; [reflexivity|].
  apply List.Forall_forall. intros r Hin. apply in_map_iff in Hin.
  now destruct Hin as (i & <- & _).
Qed.

Lemma init_registered (fuel : nat) (o : outcome unit) (w' : world) :
  init fuel world0 = (o, w') ->
  registered (trace w') = map callback_of (calls (trace w')).
Proof.
  intros Hrun.
  destruct (init_trace_shape fuel o w' Hrun) as (body & Htr & Hbody & _).
  rewrite Htr, registered_app, calls_app.
  change (registered (CreateClient "/spawn_entity" :: ?l))
    with (registered l).
  cbn [calls]. unfold waiting_for_spawn.
  rewrite registered_replicate, calls_replicate by reflexivity.
  cbn [app]. now apply appended_calls.
Qed.

(** X8.  No request is left without its callback.  In every run of the
    constructor, whether it returns, raises or is still waiting, the
    done-callbacks registered are, in order, those of the requests sent: the
    callback of a spawn request holds the name of the entity of that
    request, and the request to [/golfball_poses] has the callback of
    [publish_golfballs]. *)
Theorem every_request_has_callback (fuel : nat) :
  let w' := snd (init fuel world0) in
  registered (trace w') = map callback_of (calls (trace w')) /\
  length (registered (trace w')) = length (calls (trace w')).
Proof.
  cbv zeta.
  destruct (init fuel world0) as [o w'] eqn:Hrun. cbn [snd].
  pose proof (init_registered fuel o w' Hrun) as H.
  split; [exact H|]. now rewrite H, length_map.
Qed.

(** X9.  No request before the spawn service is found.  In every run of
    the constructor the trace begins with the creation of the client and one
    warning for each call of [wait_for_service] that failed; nothing behind
    them is a warning, and every request lies behind them.  If any request
    was sent, the call of [wait_for_service] that followed the last warning
    had found the service. *)
Theorem requests_after_service_found (fuel : nat) :
  let w' := snd (init fuel world0) in
  let d := unready "/spawn_entity" fuel 0 in
  warnings (trace w') = replicate d "Service not available. Waiting..." /\
  (forall i : nat, i < d -> service_ready env "/spawn_entity" i = false) /\
  (exists body : list event,
      trace w' = (CreateClient "/spawn_entity"
                  :: replicate d waiting_for_spawn) ++ body /\
      calls (trace w') = calls body /\ warnings body = []) /\
  (calls (trace w') <> [] ->
   d < fuel /\ service_ready env "/spawn_entity" d = true).
Proof.
  cbv zeta.
  destruct (init fuel world0) as [o w'] eqn:Hrun. cbn [snd].
  destruct (init_trace_shape fuel o w' Hrun) as (body & Htr & Hbody & Hne).
  destruct (appended_calls body Hbody) as [_ Hw].
  assert (Hc : calls (trace w') = calls body).
  { rewrite Htr, calls_app. cbn [calls].
    now rewrite calls_replicate by reflexivity. }
  split; [|split; [|split]].
  - rewrite Htr, warnings_app, Hw, app_nil_r.
    change (warnings (CreateClient "/spawn_entity" :: ?l))
      with (warnings l).
    apply warnings_waiting.
  - intros i Hi. apply (unready_before "/spawn_entity" fuel 0 i Hi).
  - exists body. now repeat split.
  - intros Hcalls.
    assert (Hd : unready "/spawn_entity" fuel 0 < fuel).
    { apply Hne. intros ->. apply Hcalls. now rewrite Hc. }
    split; [exact Hd|].
    apply (unready_at "/spawn_entity" fuel 0 Hd).
Qed.


Lemma logs_app (a b : list event) : logs (a ++ b) = logs a ++ logs b.
Proof. apply omap_app. Qed.

Lemma logs_waiting_for_poses (d : nat) :
  logs (replicate d waiting_for_poses) =
    replicate d (INFO, "Waiting for /golfball_poses service...").
Proof.
  induction d as [|d IH]; [reflexivity|]. cbn [replicate].
  unfold logs in *. cbn [omap list_omap waiting_for_poses]. now rewrite IH.
Qed.

(** X10.  [publish_golfballs] sends nothing before its service is found.
    In every run it logs one message at level INFO, with the name of the
    service, for each call of [wait_for_service] that failed, and nothing
    else.  If it sent its request, the call that followed the last message
    had found the service, and the list of golf balls was not empty. *)
Theorem poses_sent_after_service_found (fuel : nat) (w : world) :
  let w' := snd (publish_golfballs fuel w) in
  let d := unready "/golfball_poses" fuel (waits w) in
  (forall i : nat,
      i < d -> service_ready env "/golfball_poses" (waits w + i) = false) /\
  logs (trace w') =
    logs (trace w)
    ++ replicate d (INFO, "Waiting for /golfball_poses service...") /\
  (send_requests (trace w') <> send_requests (trace w) ->
   d < fuel /\
   service_ready env "/golfball_poses" (waits w + d) = true /\
   golfballs w <> [] /\
   send_requests (trace w') =
     send_requests (trace w) ++ [poses_request (golfballs w)]).
Proof.
  cbv zeta. destruct w as [g t r k]. cbn [waits trace golfballs].
  split.
  { intros i Hi. apply (unready_before "/golfball_poses" fuel k i Hi). }
  rewrite publish_golfballs_run. cbv zeta.
  set (d := unready "/golfball_poses" fuel k).
  assert (Hl : logs (t ++ CreateClient "/golfball_poses"
                       :: replicate d waiting_for_poses) =
               logs t
               ++ replicate d (INFO, "Waiting for /golfball_poses service...")).
  { rewrite logs_app.
    change (logs (CreateClient "/golfball_poses" :: ?l)) with (logs l).
    now rewrite logs_waiting_for_poses. }
  assert (Hs : send_requests (t ++ CreateClient "/golfball_poses"
                                :: replicate d waiting_for_poses) =
               send_requests t).
  { rewrite send_requests_app, send_requests_waiting. apply app_nil_r. }
  destruct (Nat.ltb d fuel) eqn:Hd.
  2:{ cbn [snd trace]. split; [exact Hl|]. intros Hne. now rewrite Hs in Hne. }
  apply Nat.ltb_lt in Hd.
  destruct g as [|b bs]; cbn [snd trace].
  { split; [exact Hl|]. intros Hne. now rewrite Hs in Hne. }
  split.
  - rewrite logs_app, Hl. cbn. apply app_nil_r.
  - intros _. split; [exact Hd|].
    split; [apply (unready_at "/golfball_poses" fuel k Hd)|].
    split; [discriminate|].
    now rewrite send_requests_app, Hs.
Qed.

(** *** [main] *)

Local Abbreviation main :=
  (main feet_to_meters euler_to_quaternion radians model_paths env).

Lemma main_run (fuel : nat) (item : work) :
  main fuel item process0 =
    match init fuel world0 with
    | (Ok _, w1) =>
        (Ok tt, mkProcess (snd (spin_once item w1)) ShutDown)
    | (Raise e, w1) => (Raise e, mkProcess w1 Initialised)
    | (Diverge, w1) => (Diverge, mkProcess w1 Initialised)
    end.
Proof.
  unfold SpawnDemoRest.main, bind, in_node, set_rclpy, modify, process0.
  cbn [node rclpy].
  destruct (init fuel world0) as [[[]|e|] w1]; try reflexivity.
  cbn [node rclpy].
  destruct (spin_once_events item w1) as (evs & Hspin & _).
  rewrite Hspin. reflexivity.
Qed.

(** X11.  [main] shuts [rclpy] down only when the constructor returns.
    The outcome of [main] is the outcome of the constructor.  When the
    constructor returns, the single call of [spin_once] adds at most one
    event to the trace, a message, and [rclpy] is shut down; no request is
    sent and no callback registered after the constructor.  When the
    constructor raises or does not end, nothing follows it: [rclpy] stays
    initialised and is not shut down. *)
Theorem main_shuts_down_iff_constructed (fuel : nat) (item : work) :
  let built := init fuel world0 in
  exists evs : list event,
    main fuel item process0 =
      (fst built,
       mkProcess (push evs (snd built))
                 (match fst built with
                  | Ok _ => ShutDown
                  | _ => Initialised
                  end)) /\
    (fst built <> Ok tt -> evs = []) /\
    (evs = [] \/ exists (lvl : level) (msg : string), evs = [Log lvl msg]) /\
    calls (trace (push evs (snd built))) = calls (trace (snd built)) /\
    registered (trace (push evs (snd built))) =
      registered (trace (snd built)) /\
    golfballs (push evs (snd built)) = golfballs (snd built).
Proof.
  cbv zeta. rewrite main_run.
  destruct (init fuel world0) as [[[]|e|] w1]; cbn [fst snd].
  - destruct (spin_once_events item w1) as (evs & Hspin & Hevs).
    exists evs. rewrite Hspin. cbn [snd].
    split; [reflexivity|]. split; [congruence|]. split; [exact Hevs|].
    cbn [push trace golfballs]. rewrite calls_app, registered_app.
    destruct Hevs as [->|(lvl & msg & ->)];
      cbn [calls]; rewrite !app_nil_r; now repeat split.
  - exists []. rewrite push_nil. split; [reflexivity|].
    split; [reflexivity|]. split; [now left|]. now repeat split.
  - exists []. rewrite push_nil. split; [reflexivity|].
    split; [reflexivity|]. split; [now left|]. now repeat split.
Qed.

(** X12.  The callback that the single call of [spin_once] runs reports
    the entity of its own request.  After a constructor that returned, if
    the item of work is the callback registered [i]-th, for a spawn request
    whose future holds an exception, [main] returns with one warning added,
    which names the entity of the [i]-th spawn request; the callbacks of all
    the other requests have not run. *)
Theorem spin_reports_entity (fuel i : nat) (e : exn) (w1 : world)
    (name : string) :
  init fuel world0 = (Ok tt, w1) ->
  map SpawnEntity.name (spawn_requests (trace w1)) !! i = Some name ->
  main fuel (SpawnDone i (inl e)) process0 =
    (Ok tt,
     mkProcess
       (push [Log WARN ("Could not spawn " +:+ name +:+ ". Exception: "
                        +:+ str_exn e)] w1)
       ShutDown) /\
  length (registered (trace w1)) = 5 + ball_count 0.
Proof.
  intros Hrun Hname.
  pose proof (init_registered fuel (Ok tt) w1 Hrun) as Hreg.
  destruct (init_calls feet_to_meters euler_to_quaternion radians
              model_paths env fuel (Ok tt) w1 Hrun)
    as (xg & xt & xr & xb & m & [(_ & Hgs & Hcalls)|(Hstop & _)]).
  2:{ now apply stopped_not_Ok in Hstop. }
  unfold spawn_requests in Hname. rewrite Hcalls in Hname, Hreg.
  rewrite omap_is_spawn_app_send in Hname.
  set (reqs := expected_requests xg xt xr xb 1 (ball_count 0)) in *.
  assert (Hr : exists r : SpawnEntity.Request,
             reqs !! i = Some r /\ SpawnEntity.name r = name).
  { assert (H : map SpawnEntity.name reqs !! i
                 = SpawnEntity.name <$> (reqs !! i))
      by apply (list_lookup_fmap SpawnEntity.name reqs i).
    rewrite Hname in H. destruct (reqs !! i) as [r|]; [|discriminate].
    injection H as H. now exists r. }
  destruct Hr as (r & Hr & <-).
  assert (Hi : registered (trace w1) !! i
               = Some (CbSpawnResult (SpawnEntity.name r))).
  { rewrite Hreg.
    set (sent := map spawn_call reqs
                 ++ [send_call (poses_request (golfballs w1))]).
    assert (H : map callback_of sent !! i = callback_of <$> (sent !! i))
      by apply (list_lookup_fmap callback_of sent i).
    rewrite H. unfold sent. rewrite lookup_app_l.
    2:{ rewrite length_map. now apply lookup_lt_Some in Hr. }
    assert (H' : map spawn_call reqs !! i = spawn_call <$> (reqs !! i))
      by apply (list_lookup_fmap spawn_call reqs i).
    now rewrite H', Hr. }
  split.
  - rewrite main_run, Hrun.
    unfold spin_once, bind, get. rewrite Hi. reflexivity.
  - rewrite Hreg, length_map, length_app, length_map.
    unfold reqs, SpawnDemo.expected_requests.
    rewrite length_app, length_map, length_seq. simpl. lia.
Qed.

End Run.

Lemma publish_empty_list_raises_sample :
  golfballs world0 = [] /\
  exists w' : world,
    publish_golfballs sample_env 3 world0 =
      (Raise (ValueError "not enough values to unpack (expected 2, got 0)"),
       w') /\
    calls (trace w') = [].
Proof.
  split; [reflexivity|].
  destruct (publish_empty_list_raises sample_env 3 world0 eq_refl)
    as (w' & Hrun & _ & Hcalls & _).
  exists w'. split; [exact Hrun|exact Hcalls].
Defined.

Lemma init_without_golfball_model_sample :
  exists w' : world,
    init sample_feet_to_meters sample_euler_to_quaternion sample_radians
         (delete "golfball" sample_model_paths) sample_env 3 world0 =
      (Raise (KeyError "golfball"), w') /\
    map snd (golfballs w') = ["ball0"] /\
    send_requests (trace w') = [].
Proof.
  destruct (init_without_golfball_model sample_feet_to_meters
              sample_euler_to_quaternion sample_radians
              (delete "golfball" sample_model_paths) sample_env 3 1
              "<sdf>models/grass/model.sdf</sdf>"
              "<sdf>models/tape/model.sdf</sdf>"
              "<sdf>models/turtlebot/model.sdf</sdf>"
              (KeyError "golfball"))
    as (w' & Hrun & Hnames & _ & Hsend & _);
    try (vm_compute; reflexivity); [lia|].
  exists w'. split; [exact Hrun|]. split; [exact Hnames|exact Hsend].
Defined.

Lemma forwarded_poses_are_spawned_sample :
  let w' := snd (init sample_feet_to_meters sample_euler_to_quaternion
                      sample_radians sample_model_paths sample_env 3
                      world0) in
  exists (send : SendGolfBallPoses.Request)
         (balls : list SpawnEntity.Request),
    send_requests (trace w') = [send] /\
    drop 4 (spawn_requests (trace w')) = balls /\
    length balls = ball_count sample_env 0 /\
    SendGolfBallPoses.golfballs send =
      map (fun r => Pose.position (SpawnEntity.initial_pose r)) balls /\
    SendGolfBallPoses.names send = map SpawnEntity.name balls /\
    Forall (fun r => Pose.orientation (SpawnEntity.initial_pose r)
                     = Quaternion.default) balls.
Proof.
  cbv zeta.
  apply (forwarded_poses_are_spawned sample_feet_to_meters
           sample_euler_to_quaternion sample_radians sample_model_paths
           sample_env 3).
  vm_compute. reflexivity.
Defined.

Lemma spin_reports_entity_sample :
  let w1 := snd (init sample_feet_to_meters sample_euler_to_quaternion
                      sample_radians sample_model_paths sample_env 3
                      world0) in
  main sample_feet_to_meters sample_euler_to_quaternion sample_radians
       sample_model_paths sample_env 3
       (SpawnDone 2 (inl (AnyException "RuntimeError" "timed out")))
       process0 =
    (Ok tt,
     mkProcess
       (push [Log WARN "Could not spawn tape1. Exception: timed out"] w1)
       ShutDown).
Proof.
  cbv zeta.
  apply (spin_reports_entity sample_feet_to_meters
           sample_euler_to_quaternion sample_radians sample_model_paths
           sample_env 3 2 (AnyException "RuntimeError" "timed out")
           _ "tape1").
  - vm_compute. reflexivity.
  - vm_compute. reflexivity.
Defined.

End SpawnExtras.

(** ** [spawn_border] *)

Module BorderProps.
Import SpawnDemo SpawnDemoRest SpawnDemoProps.

(** *** [round] *)

Lemma round_half_even_near (q : Q) :
  (q - (1 # 2) <= inject_Z (round_half_even q) /\
   inject_Z (round_half_even q) <= q + (1 # 2))%Q.
Proof.
  unfold round_half_even.
  pose proof (Qfloor_le q) as Hlo. pose proof (Qlt_floor q) as Hhi.
  rewrite inject_Z_plus in Hhi. change (inject_Z 1) with 1%Q in Hhi.
  assert (E : (inject_Z (Qfloor q + 1) == inject_Z (Qfloor q) + 1)%Q).
  { now rewrite inject_Z_plus. }
  set (f := Qfloor q) in *. cbv zeta.
  destruct (Qcompare_spec (q - inject_Z f) (1 # 2)) as [He|Hl|Hg].
  - destruct (Z.even f); [|rewrite E]; set (F := inject_Z f) in *;
      clearbody F; split; lra.
  - set (F := inject_Z f) in *; clearbody F; split; lra.
  - rewrite E. set (F := inject_Z f) in *; clearbody F; split; lra.
Qed.

Lemma round_near (q : Q) (ndigits : nat) :
  let scale := inject_Z (10 ^ Z.of_nat ndigits) in
  (q - (1 # 2) / scale <= round q ndigits /\
   round q ndigits <= q + (1 # 2) / scale)%Q.
Proof.
  cbv zeta. unfold round. cbv zeta.
  set (scale := inject_Z (10 ^ Z.of_nat ndigits)).
  assert (Hs : (0 < scale)%Q).
  { unfold scale. change 0%Q with (inject_Z 0). rewrite <- Zlt_Qlt.
    apply Z.pow_pos_nonneg; lia. }
  destruct (round_half_even_near (q * scale)) as [Hlo Hhi].
  set (R := inject_Z (round_half_even (q * scale))) in *. clearbody R.
  split.
  - apply Qle_shift_div_l; [exact Hs|].
    setoid_replace ((q - (1 # 2) / scale) * scale)%Q
      with (q * scale - (1 # 2))%Q using relation Qeq; [exact Hlo|].
    field. intros H. rewrite H in Hs. now apply Qlt_irrefl in Hs.
  - apply Qle_shift_div_r; [exact Hs|].
    setoid_replace ((q + (1 # 2) / scale) * scale)%Q
      with (q * scale + (1 # 2))%Q using relation Qeq; [exact Hhi|].
    field. intros H. rewrite H in Hs. now apply Qlt_irrefl in Hs.
Qed.


(** *** [spawn_border] *)

Section Border.

Variable feet_to_meters : Q -> Q.
Variable euler_to_quaternion : Q -> Q -> Q -> gmap string Q.
Variable radians : Q -> Q.
Variable model_paths : gmap string string.
Variable env : Env.

Local Abbreviation dist := (feet_to_meters 75).
Local Abbreviation model_text := (model_text model_paths env).
Local Abbreviation spawn_border :=
  (spawn_border feet_to_meters euler_to_quaternion radians model_paths env).
Local Abbreviation border_requests :=
  (border_requests feet_to_meters euler_to_quaternion radians).
Local Abbreviation border_placement := (border_placement feet_to_meters).

(** X13.  [spawn_border], which no run calls.  It reads the model of the
    border once for each of its four requests; when the model cannot be
    read it raises in its first pass, before anything is sent.  Otherwise
    it sends four requests, named [border0] to [border3], placed on the
    positive y axis, the positive x axis, the negative y axis and the
    negative x axis at the same distance from the origin, the second and
    the fourth turned by [euler_to_quaternion(0, 0, radians(90))].  It
    leaves [self.golfballs] and the random module alone. *)
Theorem spawn_border_requests (w : world) :
  spawn_border w =
    match model_text "border" with
    | inl e => (Raise e, w)
    | inr xml =>
        (Ok tt, push (flat_map spawn_events (border_requests xml)) w)
    end /\
  (forall xml : string,
      map SpawnEntity.name (border_requests xml) =
        ["border0"; "border1"; "border2"; "border3"] /\
      map (fun r => Pose.position (SpawnEntity.initial_pose r))
          (border_requests xml) =
        [Point.mk 0 border_placement 0; Point.mk border_placement 0 0;
         Point.mk 0 (- border_placement) 0;
         Point.mk (- border_placement) 0 0]) /\
  golfballs (snd (spawn_border w)) = golfballs w /\
  rand_calls (snd (spawn_border w)) = rand_calls w.
Proof.
  assert (Hrun : spawn_border w =
    match model_text "border" with
    | inl e => (Raise e, w)
    | inr xml =>
        (Ok tt, push (flat_map spawn_events (border_requests xml)) w)
    end).
  { unfold SpawnDemoRest.spawn_border. cbv zeta.
    cbn [enumerate length seq combine for_each fst snd].
    destruct (model_text "border") as [e|xml] eqn:Hm.
    - rewrite bind_assoc.
      now rewrite (bind_Raise _ _ _ _ _ (read_model_err _ _ _ _ _ Hm)).
    - rewrite bind_assoc.
      rewrite (bind_Ok _ _ _ _ _ (read_model_ok _ _ _ _ _ Hm)).
      erewrite bind_Ok.
      2:{ apply spawn_sends.
          apply spawn_request_plain; [repeat split|]; reflexivity. }
      rewrite bind_assoc.
      rewrite (bind_Ok _ _ _ _ _ (read_model_ok _ _ _ _ _ Hm)).
      erewrite bind_Ok.
      2:{ apply spawn_sends.
          eapply spawn_request_oriented; [repeat split|]; reflexivity. }
      rewrite bind_assoc.
      rewrite (bind_Ok _ _ _ _ _ (read_model_ok _ _ _ _ _ Hm)).
      erewrite bind_Ok.
      2:{ apply spawn_sends.
          apply spawn_request_plain; [repeat split|]; reflexivity. }
      rewrite bind_assoc.
      rewrite (bind_Ok _ _ _ _ _ (read_model_ok _ _ _ _ _ Hm)).
      erewrite bind_Ok.
      2:{ apply spawn_sends.
          eapply spawn_request_oriented; [repeat split|]; reflexivity. }
      cbn [ret]. rewrite !push_push. reflexivity. }
  split; [exact Hrun|]. split; [intros xml; split; reflexivity|].
  rewrite Hrun. destruct (model_text "border"); split; reflexivity.
Qed.

Lemma border_name_not_expected (n : nat) (name : string) :
  name ∈ ["border0"; "border1"; "border2"; "border3"] ->
  name ∉ expected_names n.
Proof.
  intros Hb Hin. unfold expected_names in Hin.
  apply elem_of_app in Hin as [Hin|Hin].
  - repeat (apply elem_of_cons in Hb as [->|Hb];
            [repeat (apply elem_of_cons in Hin as [Hin|Hin];
                     [discriminate|]); inversion Hin|]).
    inversion Hb.
  - apply list_elem_of_In, in_map_iff in Hin.
    destruct Hin as (i & <- & _). unfold ball_name in Hb. cbn in Hb.
    repeat (apply elem_of_cons in Hb as [Hb|Hb]; [discriminate|]).
    inversion Hb.
Qed.

(** X14.  The names of the border do not clash.  The four names that
    [spawn_border] gives are distinct from one another and from every name
    that a run of [create_world] gives, whatever the number of golf
    balls. *)
Theorem border_names_fresh (n : nat) (xml : string) :
  NoDup (expected_names n
         ++ map SpawnEntity.name (border_requests xml)).
Proof.
  apply NoDup_app. split; [apply expected_names_NoDup|]. split.
  - intros name Hin Hb. revert Hin.
    now apply border_name_not_expected.
  - apply (bool_decide_unpack _). vm_compute. exact I.
Qed.

(** X15.  The border lies outside the square of the golf balls.  The
    distance of the border from the origin is half of the side of the
    square, rounded to two decimals, plus half of the width 0.3: it exceeds
    half of the side by 0.15 up to the rounding, which is at most 0.0025.
    So every point of the square in which the golf balls are placed lies
    strictly between the borders, on both axes. *)
Theorem border_outside_square :
  (dist / 2 + 0.1475 <= border_placement /\
   border_placement <= dist / 2 + 0.1525)%Q /\
  forall p : Point.t,
    in_square dist p ->
    (- border_placement < Point.x p /\ Point.x p < border_placement /\
     - border_placement < Point.y p /\ Point.y p < border_placement)%Q.
Proof.
  assert (Hb : (dist / 2 + 0.1475 <= border_placement /\
                border_placement <= dist / 2 + 0.1525)%Q).
  { unfold SpawnDemoRest.border_placement.
    destruct (round_near dist 2) as [Hlo Hhi]. cbv zeta in Hlo, Hhi.
    change ((1 # 2) / inject_Z (10 ^ Z.of_nat 2))%Q with (1 # 200)%Q
      in Hlo, Hhi.
    set (r := round dist 2) in *. clearbody r.
    set (d := dist) in *. clearbody d.
    assert (E1 : (d / 2 == d * (1 # 2))%Q) by reflexivity.
    assert (E2 : ((r + 0.3) / 2 == (r + 0.3) * (1 # 2))%Q) by reflexivity.
    rewrite E1, E2. split; lra. }
  split; [exact Hb|].
  intros p (Hx1 & Hx2 & Hy1 & Hy2). destruct Hb as [Hb _].
  set (P := border_placement) in *. clearbody P.
  set (h := (dist / 2)%Q) in *. clearbody h.
  repeat split; lra.
Qed.

End Border.

(** 75 feet are 22.86 m: at the sample conversion the border is placed at
    11.58 m from the origin. *)
Example sample_border_placement :
  (border_placement sample_feet_to_meters == 11.58)%Q.
Proof. vm_compute. reflexivity. Qed.

End BorderProps.

(** ** Further properties of [client_member_function.py] *)

Module ClientExtras.
Import ClientMemberFunction ClientRest ClientProps.

Section Run.

Variable env : Env.

Local Abbreviation unready := (unready env).
Local Abbreviation poll_steps := (poll_steps env).
Local Abbreviation argument := (argument env).
Local Abbreviation read_field := (read_field env).

(** The three steps for one field: the value, or the exception of the
    step that fails, with the node as it was. *)
Lemma read_field_run (name : string) (i : nat) (w : world) :
  match argument i with
  | Value v => read_field name i w = (Ok v, w)
  | f => exists e : exn, raises f e /\ read_field name i w = (Raise e, w)
  end.
Proof.
  unfold ClientRest.argument, ClientRest.read_field, list_index, int.
  destruct (argv env !! i) as [arg|]; [|eexists; split; [|reflexivity]].
  2:{ cbn. eauto. }
  rewrite bind_ret.
  destruct (int_value (int_elsewhere env) arg) as [v|];
    [|eexists; split; [|reflexivity]].
  2:{ cbn. eauto. }
  rewrite bind_ret. unfold int64_field.
  destruct (AddTwoInts.fits_int64 v); [reflexivity|].
  eexists. split; [|reflexivity]. cbn. eauto.
Qed.

Lemma send_request_steps (w : world) :
  send_request env w =
    bind (read_field "a" 1) (fun a =>
      bind (set_req (AddTwoInts.set_a a)) (fun _ =>
        bind (read_field "b" 2) (fun b =>
          bind (set_req (AddTwoInts.set_b b)) (fun _ =>
            bind get (fun w1 =>
              bind (call_async (req w1)) set_future))))) w.
Proof.
  unfold send_request, ClientRest.read_field, bind.
  destruct (list_index (argv env) 1 w) as [[arg1|e|] w1]; try reflexivity.
  destruct (int (int_elsewhere env) arg1 w1) as [[a|e|] w2]; try reflexivity.
  destruct (int64_field "a" a w2) as [[a'|e|] w3]; try reflexivity.
  destruct (set_req (AddTwoInts.set_a a') w3) as [[[]|e|] w4];
    try reflexivity.
  destruct (list_index (argv env) 2 w4) as [[arg2|e|] w5]; try reflexivity.
  destruct (int (int_elsewhere env) arg2 w5) as [[b|e|] w6]; reflexivity.
Qed.

Lemma send_request_closed (w : world) :
  match argument 1 with
  | Value a =>
      match argument 2 with
      | Value b =>
          send_request env w =
            (Ok tt,
             mkWorld (AddTwoInts.mkRequest a b) Pending
               (trace w
                ++ [CallAsync "add_two_ints" (AddTwoInts.mkRequest a b)])
               (waits w) (oks w) (spins w))
      | f2 =>
          exists e : exn,
            raises f2 e /\
            send_request env w =
              (Raise e,
               mkWorld (AddTwoInts.set_a a (req w)) (future w) (trace w)
                       (waits w) (oks w) (spins w))
      end
  | f1 => exists e : exn, raises f1 e /\ send_request env w = (Raise e, w)
  end.
Proof.
  rewrite send_request_steps.
  pose proof (read_field_run "a" 1 w) as H1.
  destruct (argument 1) as [| | |a];
    try (destruct H1 as (e & He & H1); exists e; split; [exact He|];
         unfold bind at 1; now rewrite H1).
  pose proof (read_field_run "b" 2
                (mkWorld (AddTwoInts.set_a a (req w)) (future w) (trace w)
                         (waits w) (oks w) (spins w))) as H2.
  destruct (argument 2) as [| | |b];
    try (destruct H2 as (e & He & H2); exists e; split; [exact He|];
         unfold bind at 1; rewrite H1;
         unfold bind at 1, set_req at 1, modify at 1;
         unfold bind at 1; now rewrite H2).
  unfold bind at 1. rewrite H1.
  unfold bind at 1, set_req at 1, modify at 1.
  unfold bind at 1. rewrite H2. reflexivity.
Qed.

(** X16.  [send_request] on any command line.  The two fields are read
    and assigned one after the other, each from [sys.argv], through [int]
    and through the assertion of the field.  An argument that is missing
    raises [IndexError], one on which [int] fails raises [ValueError], one
    whose value does not fit the field raises [AssertionError]; no request
    is sent then and no future created.  When the first argument fails the
    node is left as it was; when only the second fails, the field [a] of
    [self.req] has already been assigned.  With two values that fit, the
    request that holds them is sent. *)
Theorem send_request_outcomes (w : world) :
  match argument 1 with
  | Value a =>
      match argument 2 with
      | Value b =>
          send_request env w =
            (Ok tt,
             mkWorld (AddTwoInts.mkRequest a b) Pending
               (trace w
                ++ [CallAsync "add_two_ints" (AddTwoInts.mkRequest a b)])
               (waits w) (oks w) (spins w))
      | f2 =>
          exists e : exn,
            raises f2 e /\
            send_request env w =
              (Raise e,
               mkWorld (AddTwoInts.set_a a (req w)) (future w) (trace w)
                       (waits w) (oks w) (spins w))
      end
  | f1 => exists e : exn, raises f1 e /\ send_request env w = (Raise e, w)
  end.
Proof. apply send_request_closed. Qed.

(** The run of [main], in every case. *)
Lemma client_main_run (fuel : nat) :
  let d := unready fuel 0 in
  if Nat.ltb d fuel then
    match argument 1 with
    | Value a =>
        match argument 2 with
        | Value b =>
            let rq := AddTwoInts.mkRequest a b in
            main env fuel world0 =
              match poll_steps fuel 0 0 with
              | (n, Completed r) =>
                  (Ok tt,
                   mkWorld rq (Done r) (main_trace rq d n (Completed r))
                           (S d) n n)
              | (n, Stopped) =>
                  (Ok tt,
                   mkWorld rq Pending (main_trace rq d n Stopped)
                           (S d) (S n) n)
              | (n, OutOfFuel) =>
                  (Diverge,
                   mkWorld rq Pending
                     (waiting_trace d ++ CallAsync "add_two_ints" rq
                                         :: replicate n SpinOnce)
                     (S d) n n)
              end
        | f2 =>
            exists e : exn,
              raises f2 e /\
              main env fuel world0 =
                (Raise e,
                 mkWorld (AddTwoInts.mkRequest a 0) NoFuture
                         (waiting_trace d) (S d) 0 0)
        end
    | f1 =>
        exists e : exn,
          raises f1 e /\
          main env fuel world0 =
            (Raise e,
             mkWorld AddTwoInts.Request_default NoFuture (waiting_trace d)
                     (S d) 0 0)
    end
  else
    main env fuel world0 =
      (Diverge,
       mkWorld AddTwoInts.Request_default NoFuture (waiting_trace d) d 0 0).
Proof.
  cbv zeta.
  assert (Hstart : main env fuel world0 =
            if Nat.ltb (unready fuel 0) fuel then
              bind (send_request env)
                   (fun _ => while fuel (ok env) (poll env);;
                             emit DestroyNode;; emit RclpyShutdown)
                   (mkWorld AddTwoInts.Request_default NoFuture
                            (waiting_trace (unready fuel 0))
                            (S (unready fuel 0)) 0 0)
            else
              (Diverge,
               mkWorld AddTwoInts.Request_default NoFuture
                       (waiting_trace (unready fuel 0)) (unready fuel 0)
                       0 0)).
  { unfold main, world0.
    erewrite bind_Ok by reflexivity.
    unfold bind at 1. unfold init.
    erewrite bind_Ok by reflexivity.
    unfold bind at 1. cbn [req future trace waits oks spins app].
    rewrite client_wait_loop_run. cbv zeta.
    destruct (Nat.ltb (unready fuel 0) fuel); reflexivity. }
  rewrite Hstart. clear Hstart.
  destruct (Nat.ltb (unready fuel 0) fuel); [|reflexivity].
  match goal with |- context [bind _ _ ?w1] =>
    pose proof (send_request_closed w1) as Hsend
  end.
  cbn [req future trace waits oks spins] in Hsend.
  destruct (argument 1) as [| | |a];
    try (destruct Hsend as (e & He & Hsend); exists e; split; [exact He|];
         unfold bind at 1; now rewrite Hsend).
  destruct (argument 2) as [| | |b];
    try (destruct Hsend as (e & He & Hsend); exists e; split; [exact He|];
         unfold bind at 1; now rewrite Hsend).
  cbv zeta. unfold bind at 1. rewrite Hsend.
  unfold bind at 1. rewrite poll_loop_run.
  destruct (poll_steps fuel 0 0) as [n [r| |]].
  - unfold bind, emit, modify. cbn [req future trace waits oks spins].
    unfold main_trace, waiting_trace. cbn [processed app Nat.add].
    rewrite <- !app_assoc. reflexivity.
  - unfold bind, emit, modify. cbn [req future trace waits oks spins].
    unfold main_trace, waiting_trace. cbn [processed app Nat.add].
    rewrite <- !app_assoc. reflexivity.
  - unfold waiting_trace. cbn [app Nat.add]. rewrite <- !app_assoc.
    reflexivity.
Qed.

Lemma client_unready_before (fuel : nat) :
  forall k i : nat, i < unready fuel k -> service_ready env (k + i) = false.
Proof.
  induction fuel as [|fuel IH]; intros k i Hi; simpl in *; [lia|].
  destruct (service_ready env k) eqn:Hk; [lia|].
  destruct i as [|i]; [now rewrite Nat.add_0_r|].
  rewrite Nat.add_succ_r. apply (IH (S k)). lia.
Qed.

Lemma client_unready_at (fuel : nat) :
  forall k : nat,
    unready fuel k < fuel -> service_ready env (k + unready fuel k) = true.
Proof.
  induction fuel as [|fuel IH]; intros k Hd; [lia|].
  simpl in *. destruct (service_ready env k) eqn:Hk.
  - now rewrite Nat.add_0_r.
  - rewrite Nat.add_succ_r. apply (IH (S k)). lia.
Qed.

Lemma calls_waiting_trace (d : nat) : calls (waiting_trace d) = [].
Proof. exact (calls_waiting d). Qed.

(** X17.  [main] with a command line that [send_request] rejects: an
    argument is missing, or [int] fails on it, or its value does not fit
    the field.  The arguments are read only after the service was found: the
    run first waits, logging its message for each wait that fails, and does
    not end if the service never comes up.  Once the service is found, the
    exception of the argument leaves [main]: no request is sent, no future
    is created, and neither [destroy_node] nor [rclpy.shutdown] is
    called. *)
Theorem main_with_bad_arguments (fuel : nat) (f : field_value) :
  (argument 1 = f \/
   exists a : Z, argument 1 = Value a /\ argument 2 = f) ->
  (forall v : Z, f <> Value v) ->
  let d := unready fuel 0 in
  exists w' : world,
    (if Nat.ltb d fuel
     then exists e : exn,
            raises f e /\ main env fuel world0 = (Raise e, w')
     else main env fuel world0 = (Diverge, w')) /\
    trace w' = waiting_trace d /\
    future w' = NoFuture /\
    calls (trace w') = [].
Proof.
  intros Harg Hbad. cbv zeta.
  pose proof (client_main_run fuel) as Hrun. cbv zeta in Hrun.
  destruct (Nat.ltb (unready fuel 0) fuel).
  - destruct Harg as [Hf|(a & Ha & Hf)].
    + rewrite Hf in Hrun.
      destruct f as [| | |v]; [| | |now destruct (Hbad v)];
        destruct Hrun as (e & He & Hrun); eexists;
        (split; [exists e; split; [exact He|exact Hrun]|]);
        cbn [trace future]; (split; [reflexivity|]);
        (split; [reflexivity|]); apply calls_waiting_trace.
    + rewrite Ha, Hf in Hrun.
      destruct f as [| | |v]; [| | |now destruct (Hbad v)];
        destruct Hrun as (e & He & Hrun); eexists;
        (split; [exists e; split; [exact He|exact Hrun]|]);
        cbn [trace future]; (split; [reflexivity|]);
        (split; [reflexivity|]); apply calls_waiting_trace.
  - eexists. split; [exact Hrun|]. cbn [trace future].
    split; [reflexivity|]. split; [reflexivity|].
    apply calls_waiting_trace.
Qed.

(** X18.  No request before the service is found.  In every run of
    [main] the trace begins with the initialisation, the creation of the
    client and one message for each call of [wait_for_service] that failed,
    and every request lies behind them.  If a request was sent, the call of
    [wait_for_service] that followed the last message had found the
    service. *)
Theorem client_request_after_service_found (fuel : nat) :
  let w' := snd (main env fuel world0) in
  let d := unready fuel 0 in
  (forall i : nat, i < d -> service_ready env i = false) /\
  (exists rest : list event,
      trace w' = waiting_trace d ++ rest /\
      calls (trace w') = calls rest) /\
  (calls (trace w') <> [] -> d < fuel /\ service_ready env d = true).
Proof.
  cbv zeta. split.
  { intros i Hi. apply (client_unready_before fuel 0 i Hi). }
  pose proof (client_main_run fuel) as Hrun. cbv zeta in Hrun.
  assert (Hshape : forall rest : list event,
             calls (waiting_trace (unready fuel 0) ++ rest) = calls rest).
  { intros rest. now rewrite client_calls_app, calls_waiting_trace. }
  destruct (Nat.ltb (unready fuel 0) fuel) eqn:Hd.
  2:{ rewrite Hrun. cbn [snd trace]. split.
      - exists []. now rewrite app_nil_r, calls_waiting_trace.
      - rewrite calls_waiting_trace. congruence. }
  apply Nat.ltb_lt in Hd.
  assert (Hfound : unready fuel 0 < fuel /\
                   service_ready env (unready fuel 0) = true).
  { split; [exact Hd|]. apply (client_unready_at fuel 0 Hd). }
  split; [|intros _; exact Hfound].
  destruct (argument 1) as [| | |a];
    try (destruct Hrun as (e & _ & ->); cbn [snd trace]; exists [];
         now rewrite app_nil_r, calls_waiting_trace).
  destruct (argument 2) as [| | |b];
    try (destruct Hrun as (e & _ & ->); cbn [snd trace]; exists [];
         now rewrite app_nil_r, calls_waiting_trace).
  cbv zeta in Hrun. rewrite Hrun.
  destruct (poll_steps fuel 0 0) as [n [r| |]]; cbn [snd trace].
  - eexists. split; [|apply Hshape]. unfold main_trace, waiting_trace.
    now rewrite <- !app_assoc.
  - eexists. split; [|apply Hshape]. unfold main_trace, waiting_trace.
    now rewrite <- !app_assoc.
  - eexists. split; [reflexivity|apply Hshape].
Qed.

Lemma running_waiting_trace (d : nat) :
  Forall (fun ev => ev <> DestroyNode /\ ev <> RclpyShutdown)
         (waiting_trace d).
Proof.
  unfold waiting_trace. apply Forall_app. split.
  - repeat constructor; discriminate.
  - apply Forall_replicate. split; discriminate.
Qed.

Lemma running_spins (n : nat) :
  Forall (fun ev => ev <> DestroyNode /\ ev <> RclpyShutdown)
         (replicate n SpinOnce).
Proof. apply Forall_replicate. split; discriminate. Qed.

(** X19.  The node is destroyed and [rclpy] shut down exactly when
    [main] returns.  In a run that returns, [destroy_node] and
    [rclpy.shutdown] are the last two events and occur nowhere else.  In a
    run that raises, on the command line, or that does not end, neither of
    them occurs: there is no [finally] around the body of [main]. *)
Theorem main_cleans_up_iff_returns (fuel : nat) :
  let o := fst (main env fuel world0) in
  let tr := trace (snd (main env fuel world0)) in
  (o = Ok tt ->
   exists pre : list event,
     tr = pre ++ [DestroyNode; RclpyShutdown] /\
     Forall (fun ev => ev <> DestroyNode /\ ev <> RclpyShutdown) pre) /\
  (o <> Ok tt ->
   Forall (fun ev => ev <> DestroyNode /\ ev <> RclpyShutdown) tr).
Proof.
  cbv zeta. pose proof (client_main_run fuel) as Hrun. cbv zeta in Hrun.
  pose proof (running_waiting_trace (unready fuel 0)) as Hw.
  destruct (Nat.ltb (unready fuel 0) fuel).
  2:{ rewrite Hrun. cbn [fst snd trace]. split; [discriminate|].
      intros _. exact Hw. }
  destruct (argument 1) as [| | |a];
    try (destruct Hrun as (e & _ & ->); cbn [fst snd trace];
         split; [discriminate|]; intros _; exact Hw).
  destruct (argument 2) as [| | |b];
    try (destruct Hrun as (e & _ & ->); cbn [fst snd trace];
         split; [discriminate|]; intros _; exact Hw).
  cbv zeta in Hrun. rewrite Hrun.
  destruct (poll_steps fuel 0 0) as [n [r| |]]; cbn [fst snd trace].
  - split; [intros _|congruence].
    exists (waiting_trace (unready fuel 0)
            ++ CallAsync "add_two_ints" (AddTwoInts.mkRequest a b)
               :: replicate n SpinOnce
               ++ [LogInfo (result_message (AddTwoInts.mkRequest a b) r)]).
    split.
    + unfold main_trace, waiting_trace. cbn [processed].
      repeat (first [rewrite <- app_assoc|progress cbn [app]]).
      reflexivity.
    + apply Forall_app. split; [exact Hw|].
      constructor; [split; discriminate|].
      apply Forall_app. split; [apply running_spins|].
      repeat constructor; discriminate.
  - split; [intros _|congruence].
    exists (waiting_trace (unready fuel 0)
            ++ CallAsync "add_two_ints" (AddTwoInts.mkRequest a b)
               :: replicate n SpinOnce).
    split.
    + unfold main_trace, waiting_trace. cbn [processed].
      repeat (first [rewrite <- app_assoc|progress cbn [app]]).
      reflexivity.
    + apply Forall_app. split; [exact Hw|].
      constructor; [split; discriminate|]. apply running_spins.
  - split; [discriminate|]. intros _.
    apply Forall_app. split; [exact Hw|].
    constructor; [split; discriminate|]. apply running_spins.
Qed.

End Run.

Lemma main_with_bad_arguments_sample :
  exists w' : world,
    (exists e : exn,
        raises NotAnInteger e /\
        main bad_argument_env 3 world0 = (Raise e, w')) /\
    trace w' = [RclpyInit; CreateClient "add_two_ints"; waiting_again] /\
    future w' = NoFuture.
Proof.
  destruct (main_with_bad_arguments bad_argument_env 3 NotAnInteger)
    as (w' & Hrun & Htr & Hfut & _).
  - right. exists 2%Z. split; reflexivity.
  - discriminate.
  - exists w'. split; [exact Hrun|]. split; [exact Htr|exact Hfut].
Defined.

(** A command line whose first argument is a digit beyond ASCII, on which
    [int] returns 3: the request (3, 42) is sent. *)
Example send_request_unicode_digit :
  send_request unicode_digit_env world0 =
    (Ok tt,
     mkWorld (AddTwoInts.mkRequest 3 42) Pending
       [CallAsync "add_two_ints" (AddTwoInts.mkRequest 3 42)] 0 0 0).
Proof. vm_compute. reflexivity. Qed.

(** The characters 28 to 31 are not whitespace for [int]: an argument that
    begins with one of them is refused. *)
Example int_refuses_separator :
  argument (mkEnv ["prog"; String (ascii_of_nat 28) "9"; "3"]
                  (fun _ => true) (fun _ => true) (fun _ => None)
                  (fun _ => None)) 1 = NotAnInteger.
Proof. vm_compute. reflexivity. Qed.

End ClientExtras.
